(** * Tarot-Flow backend: payment verification and entitlement granting

    A shallow embedding of the purchase subsystem of the backend
    ([services/baseService.ts], [services/golemDbService.ts],
    [controllers/purchaseController.ts], the video controller and the
    authentication middleware) together with the parts of the JavaScript
    runtime the code relies on: [parseFloat], the relational operator on
    numbers, [Date.prototype.setDate] and string case conversion.

    The code around it is embedded as well: [services/authService.ts],
    the whitelist handlers of [controllers/adminController.ts], the
    routing table and the wallet login of the application, and
    [utils/helpers.ts].

    Asynchronous methods are functions in a state-and-exception monad over
    a [World] that holds the GolemDB entity list, the chain data served by
    the JSON-RPC provider, the log of RPC calls, the clock and the supply
    of fresh ids. *)

From Stdlib Require Import ZArith QArith Qround Qpower Qabs.
From Stdlib Require Import List String Ascii Bool Lia Lqa.
Import ListNotations.

Set Implicit Arguments.

(* ================================================================== *)
(** ** IEEE-754 binary64 values and round-to-nearest-even              *)
(* ================================================================== *)

Module Float64.

Local Open Scope Q_scope.

(** A JavaScript Number.  A finite double is kept as the rational it
    denotes (both zeros are [FFin 0]: they compare equal). *)
Inductive F64 : Type :=
| FNaN
| FInf (neg : bool)
| FFin (v : Q).

Definition pow2 (k : Z) : Q := (2#1) ^ k.

(** [ilog2 x] is the binary exponent of a positive rational:
    [2^(ilog2 x) <= x < 2^(ilog2 x + 1)]. *)
Definition ilog2 (x : Q) : Z :=
  let k := (Z.log2 (Qnum x) - Z.log2 (Zpos (Qden x)))%Z in
  if Qle_bool (pow2 k) x then k else (k - 1)%Z.

(** Round to the nearest integer, ties to even. *)
Definition rne (z : Q) : Z :=
  let f := Qfloor z in
  match Qcompare (z - inject_Z f) (1#2) with
  | Lt => f
  | Gt => (f + 1)%Z
  | Eq => if Z.even f then f else (f + 1)%Z
  end.

(** The exponent of the unit in the last place of a positive rational:
    53 significant bits, subnormals below [2^-1022]. *)
Definition ulpExp (x : Q) : Z := Z.max (ilog2 x - 52) (-1074).

(** The value a positive rational rounds to, before the overflow test. *)
Definition roundVal (x : Q) : Q :=
  inject_Z (rne (x / pow2 (ulpExp x))) * pow2 (ulpExp x).

Definition roundPos (x : Q) : F64 :=
  if Qle_bool (pow2 1024) (roundVal x) then FInf false else FFin (roundVal x).

Definition fneg (a : F64) : F64 :=
  match a with
  | FNaN => FNaN
  | FInf s => FInf (negb s)
  | FFin v => FFin (- v)
  end.

(** The double nearest to a rational (the Number value for it). *)
Definition round64 (x : Q) : F64 :=
  match Qnum x with
  | Z0 => FFin 0
  | Zpos _ => roundPos x
  | Zneg _ => fneg (roundPos (- x))
  end.

(** The relational operator [a < b] on Numbers: false as soon as one
    operand is NaN. *)
Definition flt (a b : F64) : bool :=
  match a, b with
  | FNaN, _ => false
  | _, FNaN => false
  | FInf true, FInf true => false
  | FInf true, _ => true
  | FInf false, _ => false
  | FFin _, FInf s => negb s
  | FFin u, FFin v => negb (Qle_bool v u)
  end.

Definition isNaN (a : F64) : bool :=
  match a with FNaN => true | _ => false end.

End Float64.

(* ================================================================== *)
(** ** JavaScript strings: case conversion and numeric literals        *)
(* ================================================================== *)

Module JsString.

Local Open Scope string_scope.
Local Open Scope Z_scope.

(** A text is the sequence of its UTF-16 code units, each of them a
    character of [string]: the texts of the model are those whose code
    units lie below 256 (Latin-1), which holds of addresses, hashes,
    numerals, dates and request paths.  A text with a code unit beyond
    that range has no counterpart here. *)
Definition codeOf (c : ascii) : Z := Z.of_nat (nat_of_ascii c).

(** [String.prototype.toLowerCase] on one code unit: the capitals of
    ASCII, and those of Latin-1 (U+00C0 to U+00DE, the multiplication
    sign U+00D7 apart), are 32 below their small letters; every other
    code unit below 256 is left as it is. *)
Definition isCapital (c : ascii) : bool :=
  let n := codeOf c in
  ((65 <=? n) && (n <=? 90))
  || ((192 <=? n) && (n <=? 222) && negb (n =? 215)).

Definition lowerChar (c : ascii) : ascii :=
  if isCapital c then ascii_of_nat (nat_of_ascii c + 32) else c.

Fixpoint toLowerCase (s : string) : string :=
  match s with
  | EmptyString => EmptyString
  | String c r => String (lowerChar c) (toLowerCase r)
  end.

(** Truthiness of an optional string ([undefined] and [""] are falsy). *)
Definition truthy (o : option string) : bool :=
  match o with
  | None => false
  | Some s => negb (String.eqb s "")
  end.

(** [o || ''] *)
Definition orEmpty (o : option string) : string :=
  match o with
  | Some s => s
  | None => ""
  end.

Definition isDigit (c : ascii) : bool := (48 <=? codeOf c) && (codeOf c <=? 57).

(** StrWhiteSpaceChar, the white space and the line terminators that
    [parseFloat] and StringToNumber trim: TAB, LF, VT, FF, CR, SP and the
    no-break space U+00A0 (the others, U+1680, U+2000 to U+200A, U+2028,
    U+2029, U+202F, U+205F, U+3000 and U+FEFF, lie beyond 255). *)
Definition isWhiteSpace (c : ascii) : bool :=
  let n := codeOf c in
  (n =? 9) || (n =? 10) || (n =? 11) || (n =? 12) || (n =? 13) || (n =? 32)
  || (n =? 160).

Fixpoint skipWhiteSpace (s : string) : string :=
  match s with
  | String c r => if isWhiteSpace c then skipWhiteSpace r else s
  | EmptyString => s
  end.

(** [takeDigits acc n s]: the value and the count of the leading decimal
    digits of [s], and what follows them. *)
Fixpoint takeDigits (acc : Z) (n : Z) (s : string) : Z * Z * string :=
  match s with
  | String c r =>
      if isDigit c then takeDigits (10 * acc + (codeOf c - 48)) (n + 1) r
      else (acc, n, s)
  | EmptyString => (acc, n, s)
  end.

(** What a StrDecimalLiteral denotes. *)
Inductive Literal : Type :=
| LitInfinity (neg : bool)
| LitDecimal (neg : bool) (mantissa : Z) (exp10 : Z).

(** ExponentPart, taken only when at least one digit follows. *)
Definition exponentPart (s : string) : Z * string :=
  match s with
  | String c r =>
      if (codeOf c =? 101) || (codeOf c =? 69) then
        let '(neg, r') :=
          match r with
          | String c1 r1 =>
              if Ascii.eqb c1 "+" then (false, r1)
              else if Ascii.eqb c1 "-" then (true, r1)
              else (false, r)
          | EmptyString => (false, r)
          end in
        let '(e, n, rest) := takeDigits 0 0 r' in
        if n =? 0 then (0, s) else ((if neg then - e else e), rest)
      else (0, s)
  | EmptyString => (0, s)
  end.

(** The digits after a decimal point, if [s] starts with one. *)
Definition afterPoint (s : string) : option string :=
  match s with
  | String c r => if Ascii.eqb c "." then Some r else None
  | EmptyString => None
  end.

(** The longest prefix of [s] that is a StrUnsignedDecimalLiteral. *)
Definition unsignedLiteral (neg : bool) (s : string) : option (Literal * string) :=
  if prefix "Infinity" s
  then Some (LitInfinity neg, substring 8 (String.length s - 8) s)
  else
    let '(ip, ni, r1) := takeDigits 0 0 s in
    match afterPoint r1 with
    | Some r2 =>
        let '(m, nf, r3) := takeDigits ip 0 r2 in
        if (ni =? 0) && (nf =? 0) then None
        else let '(e, r4) := exponentPart r3 in
             Some (LitDecimal neg m (e - nf), r4)
    | None =>
        if ni =? 0 then None
        else let '(e, r4) := exponentPart r1 in
             Some (LitDecimal neg ip e, r4)
    end.

Definition strDecimalLiteral (s : string) : option (Literal * string) :=
  match s with
  | String c r =>
      if Ascii.eqb c "+" then unsignedLiteral false r
      else if Ascii.eqb c "-" then unsignedLiteral true r
      else unsignedLiteral false s
  | EmptyString => None
  end.

(** The rational a finite literal denotes. *)
Definition decimalQ (neg : bool) (mantissa exp10 : Z) : Q :=
  let v := (inject_Z mantissa * (10#1) ^ exp10)%Q in
  if neg then Qopp v else v.

Definition literalNumber (l : Literal) : Float64.F64 :=
  match l with
  | LitInfinity neg => Float64.FInf neg
  | LitDecimal neg m e => Float64.round64 (decimalQ neg m e)
  end.

(** The global [parseFloat]: leading white space is skipped, the longest
    numeric prefix is read, anything after it is ignored; NaN when there
    is no such prefix. *)
Definition parseFloat (s : string) : Float64.F64 :=
  match strDecimalLiteral (skipWhiteSpace s) with
  | Some (l, _) => literalNumber l
  | None => Float64.FNaN
  end.

(** The exact decimal value parsed from a string, when it is finite. *)
Definition decimalValue (s : string) : option Q :=
  match strDecimalLiteral (skipWhiteSpace s) with
  | Some (LitDecimal neg m e, _) => Some (decimalQ neg m e)
  | _ => None
  end.

(** Digits of a NonDecimalIntegerLiteral in the given radix. *)
Definition radixDigit (radix : Z) (c : ascii) : option Z :=
  let n := codeOf c in
  let d := if isDigit c then n - 48
           else if (97 <=? n) && (n <=? 102) then n - 87
           else if (65 <=? n) && (n <=? 70) then n - 55
           else radix in
  if d <? radix then Some d else None.

Fixpoint takeRadix (radix acc n : Z) (s : string) : Z * Z * string :=
  match s with
  | String c r =>
      match radixDigit radix c with
      | Some d => takeRadix radix (radix * acc + d) (n + 1) r
      | None => (acc, n, s)
      end
  | EmptyString => (acc, n, s)
  end.

Definition nonDecimalLiteral (s : string) : option (Z * string) :=
  match s with
  | String "0" (String c r) =>
      let n := codeOf c in
      let radix := if (n =? 120) || (n =? 88) then 16
                   else if (n =? 111) || (n =? 79) then 8
                   else if (n =? 98) || (n =? 66) then 2
                   else 0 in
      if radix =? 0 then None
      else let '(v, k, rest) := takeRadix radix 0 0 r in
           if k =? 0 then None else Some (v, rest)
  | _ => None
  end.

(** StringToNumber, the conversion the relational operators apply to a
    string operand: the whole text, white space trimmed, must be one
    numeric literal; the empty text is [0]; anything else is NaN. *)
Definition stringToNumber (s : string) : Float64.F64 :=
  let t := skipWhiteSpace s in
  match t with
  | EmptyString => Float64.FFin 0
  | _ =>
      match nonDecimalLiteral t with
      | Some (v, rest) =>
          match skipWhiteSpace rest with
          | EmptyString => Float64.round64 (inject_Z v)
          | _ => Float64.FNaN
          end
      | None =>
          match strDecimalLiteral t with
          | Some (l, rest) =>
              match skipWhiteSpace rest with
              | EmptyString => literalNumber l
              | _ => Float64.FNaN
              end
          | None => Float64.FNaN
          end
      end
  end.

(** [s.split(sep)] for a separator of one character: the pieces between
    the separators, one piece at least. *)
Fixpoint split (sep : ascii) (s : string) : list string :=
  match s with
  | EmptyString => [EmptyString]
  | String c r =>
      if Ascii.eqb c sep then EmptyString :: split sep r
      else
        match split sep r with
        | piece :: pieces => String c piece :: pieces
        | [] => [String c EmptyString]
        end
  end.

End JsString.

(* ================================================================== *)
(** ** Decimal text of integers and [ethers.formatUnits]               *)
(* ================================================================== *)

Module Units.

Import JsString.
Local Open Scope string_scope.
Local Open Scope Z_scope.

Definition digitChar (d : Z) : ascii := ascii_of_nat (Z.to_nat (48 + d)).

Fixpoint digitsFuel (fuel : nat) (n : Z) (acc : string) : string :=
  match fuel with
  | O => acc
  | S f =>
      let acc' := String (digitChar (n mod 10)) acc in
      if n <? 10 then acc' else digitsFuel f (n / 10) acc'
  end.

(** [BigInt.prototype.toString] of a non-negative integer. *)
Definition decimalDigits (n : Z) : string :=
  digitsFuel (S (Z.to_nat (Z.log2 n))) n "".

(** Exactly [k] digits of [n], most significant first (zero padded). *)
Fixpoint fixedDigits (k : nat) (n : Z) (acc : string) : string :=
  match k with
  | O => acc
  | S k' => fixedDigits k' (n / 10) (String (digitChar (n mod 10)) acc)
  end.

Fixpoint trimTrailingZeros (s : string) : string :=
  match s with
  | EmptyString => EmptyString
  | String c r =>
      match trimTrailingZeros r with
      | EmptyString => if Ascii.eqb c "0" then EmptyString else String c EmptyString
      | r' => String c r'
      end
  end.

(** The decimal text of a fixed-point number that is not negative: the
    whole part, a point, and the fraction without trailing zeros (one
    digit at least); no point when [decimals] is 0. *)
Definition unsignedFixed (value decimals : Z) : string :=
  if decimals <=? 0 then decimalDigits value
  else
    let scale := 10 ^ decimals in
    let frac := trimTrailingZeros (fixedDigits (Z.to_nat decimals) (value mod scale) "") in
    decimalDigits (value / scale) ++ "." ++
      (match frac with EmptyString => "0" | _ => frac end).

(** [FixedNumber.prototype.toString]: a minus sign first when the value
    is negative. *)
Definition fixedToString (value decimals : Z) : string :=
  if value <? 0 then "-" ++ unsignedFixed (- value) decimals
  else unsignedFixed value decimals.

(** What [ethers.formatUnits] answers: the text, or the error it throws. *)
Inductive Formatted : Type :=
| Text (text : string)
| FormatFails (message : string).

(** [ethers.formatUnits value decimals], that is
    [FixedNumber.fromValue(value, decimals, { decimals, width: 512 }).toString()],
    for a number of decimals that is not negative (the [uint8] that
    [decimals()] returns): the format takes 80 decimals at most, and a
    value of 512 bits with its sign.  (The messages are the texts ethers
    puts first; it appends the argument, its error code and its version.) *)
Definition formatUnits (value decimals : Z) : Formatted :=
  if 80 <? decimals then FormatFails "invalid FixedNumber decimals (too large)"
  else if (value <? - 2 ^ 511) || (2 ^ 511 <=? value) then FormatFails "overflow"
  else Text (fixedToString value decimals).

(** [ethers.formatEther]: 18 decimals. *)
Definition formatEther (value : Z) : Formatted := formatUnits value 18.

(** What a string of decimal digits denotes (used to state what
    [formatUnits] prints). *)
Fixpoint allDigits (s : string) : bool :=
  match s with
  | EmptyString => true
  | String c r => isDigit c && allDigits r
  end.

Definition len (s : string) : Z := Z.of_nat (String.length s).

Fixpoint dval (s : string) : Z :=
  match s with
  | EmptyString => 0
  | String c r => (codeOf c - 48) * 10 ^ len r + dval r
  end.

End Units.

(* ================================================================== *)
(** ** Time values and the calendar of [Date]                          *)
(* ================================================================== *)

Module JsDate.

Import Units.
Local Open Scope string_scope.
Local Open Scope Z_scope.

Definition msPerDay : Z := 86400000.

Definition Day (t : Z) : Z := t / msPerDay.
Definition TimeWithinDay (t : Z) : Z := t mod msPerDay.

Definition isLeapYear (y : Z) : bool :=
  (y mod 4 =? 0) && (negb (y mod 100 =? 0) || (y mod 400 =? 0)).

Definition DayFromYear (y : Z) : Z :=
  365 * (y - 1970) + (y - 1969) / 4 - (y - 1901) / 100 + (y - 1601) / 400.

(** The largest year that starts on or before day [d]: an estimate from
    the mean length of a year, off by one at most, then adjusted. *)
Definition yearFromDay (d : Z) : Z :=
  let y0 := 1970 + d * 400 / 146097 in
  if DayFromYear (y0 + 1) <=? d then y0 + 1
  else if DayFromYear y0 <=? d then y0
  else y0 - 1.

Definition YearFromTime (t : Z) : Z := yearFromDay (Day t).
Definition DayWithinYear (t : Z) : Z := Day t - DayFromYear (YearFromTime t).
Definition InLeapYear (t : Z) : Z := if isLeapYear (YearFromTime t) then 1 else 0.

(** Days of the year before month [m] (0 = January) starts. *)
Definition daysBeforeMonth (leap m : Z) : Z :=
  match m with
  | 0 => 0
  | 1 => 31
  | 2 => 59 + leap
  | 3 => 90 + leap
  | 4 => 120 + leap
  | 5 => 151 + leap
  | 6 => 181 + leap
  | 7 => 212 + leap
  | 8 => 243 + leap
  | 9 => 273 + leap
  | 10 => 304 + leap
  | _ => 334 + leap
  end.

Definition MonthFromTime (t : Z) : Z :=
  let d := DayWithinYear t in
  let l := InLeapYear t in
  if d <? 31 then 0
  else if d <? 59 + l then 1
  else if d <? 90 + l then 2
  else if d <? 120 + l then 3
  else if d <? 151 + l then 4
  else if d <? 181 + l then 5
  else if d <? 212 + l then 6
  else if d <? 243 + l then 7
  else if d <? 273 + l then 8
  else if d <? 304 + l then 9
  else if d <? 334 + l then 10
  else 11.

Definition DateFromTime (t : Z) : Z :=
  DayWithinYear t - daysBeforeMonth (InLeapYear t) (MonthFromTime t) + 1.

(** [MakeDay year month date]: the day number of the first of the month,
    plus [date - 1]; [date] may lie outside the month. *)
Definition MakeDay (year month date : Z) : Z :=
  let ym := year + month / 12 in
  let mn := month mod 12 in
  DayFromYear ym + daysBeforeMonth (if isLeapYear ym then 1 else 0) mn + date - 1.

Definition MakeDate (day time : Z) : Z := day * msPerDay + time.

(** [TimeClip]: [None] is the time value NaN of an Invalid Date. *)
Definition TimeClip (t : Z) : option Z :=
  if Z.abs t <=? 8640000000000000 then Some t else None.

Section LocalTime.

(** LocalTZA(t, isUTC): the offset of local time from UTC, in
    milliseconds, at the time value [t], which is read as a UTC time when
    [isUTC] and as a local time otherwise.  It is constant in a zone
    without daylight saving. *)
Variable localTZA : Z -> bool -> Z.

Definition LocalTime (t : Z) : Z := t + localTZA t true.
Definition UTC (t : Z) : Z := t - localTZA t false.

(** [Date.prototype.getDate] of a valid date. *)
Definition getDate (t : Z) : Z := DateFromTime (LocalTime t).

(** [Date.prototype.setDate] on a valid date with time value [t]: the
    new time value. *)
Definition setDate (t : Z) (dt : Z) : option Z :=
  let lt := LocalTime t in
  let newDate :=
    MakeDate (MakeDay (YearFromTime lt) (MonthFromTime lt) dt) (TimeWithinDay lt) in
  TimeClip (UTC newDate).

End LocalTime.

(** [Date.prototype.toISOString] of a valid date. *)
Definition pad (k : nat) (n : Z) : string := fixedDigits k n "".

Definition toISOString (t : Z) : string :=
  let y := YearFromTime t in
  let tw := TimeWithinDay t in
  let year :=
    if (0 <=? y) && (y <=? 9999) then pad 4 y
    else if y <? 0 then "-" ++ pad 6 (- y) else "+" ++ pad 6 y in
  year ++ "-" ++ pad 2 (MonthFromTime t + 1) ++ "-" ++ pad 2 (DateFromTime t)
    ++ "T" ++ pad 2 (tw / 3600000) ++ ":" ++ pad 2 (tw / 60000 mod 60)
    ++ ":" ++ pad 2 (tw / 1000 mod 60) ++ "." ++ pad 3 (tw mod 1000) ++ "Z".

End JsDate.

(* ================================================================== *)
(** ** Documents, the world and the monad of asynchronous methods      *)
(* ================================================================== *)

Module Runtime.

Local Open Scope string_scope.
Local Open Scope Z_scope.

(** *** Documents ([types/index.ts])

    The records keep the fields the purchase subsystem reads or writes;
    descriptive fields (e-mail, preferences, tags, media other than the
    video URL, watch history) play no part in it and are left out. *)

Inductive Role : Type := RoleUser | RoleAdmin.
Inductive WhitelistStatus : Type := Approved | Pending | Rejected.
Inductive PaymentToken : Type := USDC | ETH.
Inductive AccessType : Type := AccessPurchase | AccessSubscription | AccessFree.

(** The run-time value of a field declared [Date]: a [Date] object (with
    [None] for the time value of an Invalid Date), or the text that
    [JSON.parse] leaves in a document read back from the store. *)
Inductive DateField : Type :=
| DateObj (t : option Z)
| DateStr (s : string).

(** Records are parameterised by the representation [D] of their date
    fields: [DateField] in memory, [string] in a stored JSON document. *)
Record Subscription (D : Type) : Type := mkSubscription {
  tierId : option string;
  startDate : option D;
  endDate : option D;
  isActive : bool
}.

Record User (D : Type) : Type := mkUser {
  user_id : string;
  walletAddress : string;
  role : Role;
  whitelistStatus : WhitelistStatus;
  subscription : option (Subscription D);
  createdAt : option D;
  updatedAt : option D;
  lastLogin : option D
}.

Record Video : Type := mkVideo {
  video_id : string;
  title : string;
  singlePriceUsd : string;
  isFreeWithSubscription : bool;
  videoUrl : string;
  video_isActive : bool
}.

Record SubscriptionTier : Type := mkTier {
  tier_id : string;
  tier_name : string;
  priceUsd : string;
  durationDays : Z;
  tier_isActive : bool
}.

Record UserVideoAccess (D : Type) : Type := mkAccess {
  access_id : string;
  access_userId : string;
  access_videoId : string;
  accessType : AccessType;
  transactionHash : option string;
  purchaseDate : option D;
  paymentToken : option PaymentToken;
  amountPaid : option string;
  isFavorite : bool
}.

(** *** JSON round trip of the date fields

    [encodeData] is [JSON.stringify] and [decodeData] is [JSON.parse]
    without a reviver: a [Date] is written as its ISO text and read back
    as that text, not as a [Date]. *)

(** [Date.prototype.toJSON]: the ISO text, [null] for an Invalid Date;
    text stays text. *)
Definition dateToJSON (d : DateField) : option string :=
  match d with
  | DateObj (Some t) => Some (JsDate.toISOString t)
  | DateObj None => None
  | DateStr s => Some s
  end.

Definition optBind {A B : Type} (o : option A) (f : A -> option B) : option B :=
  match o with
  | Some a => f a
  | None => None
  end.

Definition encodeSubscription (s : Subscription DateField) : Subscription string :=
  mkSubscription (tierId s) (optBind (startDate s) dateToJSON)
                 (optBind (endDate s) dateToJSON) (isActive s).

Definition decodeSubscription (s : Subscription string) : Subscription DateField :=
  mkSubscription (tierId s) (option_map DateStr (startDate s))
                 (option_map DateStr (endDate s)) (isActive s).

Definition encodeUser (u : User DateField) : User string :=
  mkUser (user_id u) (walletAddress u) (role u) (whitelistStatus u)
         (option_map encodeSubscription (subscription u))
         (optBind (createdAt u) dateToJSON) (optBind (updatedAt u) dateToJSON)
         (optBind (lastLogin u) dateToJSON).

Definition decodeUser (u : User string) : User DateField :=
  mkUser (user_id u) (walletAddress u) (role u) (whitelistStatus u)
         (option_map decodeSubscription (subscription u))
         (option_map DateStr (createdAt u)) (option_map DateStr (updatedAt u))
         (option_map DateStr (lastLogin u)).

Definition encodeAccess (a : UserVideoAccess DateField) : UserVideoAccess string :=
  mkAccess (access_id a) (access_userId a) (access_videoId a) (accessType a)
           (transactionHash a) (optBind (purchaseDate a) dateToJSON)
           (paymentToken a) (amountPaid a) (isFavorite a).

(** *** GolemDB entities *)

(** The JSON document an entity stores. *)
Inductive Payload : Type :=
| PUser (u : User string)
| PVideo (v : Video)
| PTier (t : SubscriptionTier)
| PAccess (a : UserVideoAccess string).

(** [GolemBaseCreate]: what [createEntities] is given and the store keeps. *)
Record Entity : Type := mkEntity {
  data : Payload;
  btl : Z;
  stringAnnotations : list (string * string);
  numericAnnotations : list (string * Z)
}.

(** A query text [k1 = "v1" && k2 = "v2" && ...] over string annotations. *)
Definition Query : Type := list (string * string).

Definition annotationEqb (a b : string * string) : bool :=
  String.eqb (fst a) (fst b) && String.eqb (snd a) (snd b).

Definition matchesQuery (q : Query) (e : Entity) : bool :=
  forallb (fun kv => existsb (annotationEqb kv) (stringAnnotations e)) q.

Inductive StoreCall : Type :=
| CallQuery (q : Query)
| CallCreate.

(** *** Chain data served by the JSON-RPC provider *)

Record Log : Type := mkLog {
  log_address : string;
  topics : list string;
  log_data : string
}.

Record TransferArgs : Type := mkArgs {
  arg_from : string;
  arg_to : string;
  arg_value : Z
}.

(** What [Interface.parseLog] does with a log entry: it raises, returns
    [null], or returns the description of an event of the ABI. *)
Inductive ParseResult : Type :=
| ParseThrows
| ParseNull
| Parsed (name : string) (args : TransferArgs).

Record Receipt : Type := mkReceipt {
  status : option Z;
  logs : list Log;
  blockNumber : Z;
  gasUsed : Z;
  gasPrice : option Z
}.

Record Transaction : Type := mkTransaction {
  tx_to : option string;
  tx_from : string;
  tx_value : Z
}.

Inductive RpcCall : Type :=
| GetTransactionReceipt (hash : string)
| GetTransaction (hash : string)
| CallDecimals.

(** *** The world *)

(** What the process is configured with and what its collaborators
    answer: fixed during a request. *)
Record Env : Type := mkEnv {
  usdcAddress : string;                   (* NETWORK_CONFIG.BASE.usdcAddress *)
  STORE_WALLET_ADDRESS : option string;   (* process.env.STORE_WALLET_ADDRESS *)
  localTZA : Z -> bool -> Z;              (* offset of local time, ms *)
  receipts : string -> option Receipt;
  transactions : string -> option Transaction;
  usdcDecimals : Z;
  parseLog : Log -> ParseResult;
  rpcFault : RpcCall -> option string;    (* the call rejects with this message *)
  storeFault : StoreCall -> bool;         (* the GolemDB call rejects *)
  uuid : nat -> string                    (* crypto.randomUUID, in order *)
}.

(** What a request reads and changes. *)
Record State : Type := mkState {
  entities : list Entity;     (* the store, oldest entity first *)
  rpcLog : list RpcCall;      (* RPC calls issued so far, latest first *)
  now : Z;                    (* the clock, ms since the epoch *)
  ticks : list Z;             (* by how much each reading advances it *)
  nextId : nat                (* ids handed out so far *)
}.

Record Error : Type := mkError { message : string }.

Inductive Outcome (A : Type) : Type :=
| Returned (a : A)
| Thrown (e : Error).

Arguments Returned {A} a.
Arguments Thrown {A} e.

(** An asynchronous method: it returns or throws, and changes the state
    either way. *)
Definition M (A : Type) : Type := Env -> State -> Outcome A * State.

Definition ret {A : Type} (a : A) : M A := fun _ s => (Returned a, s).

Definition throw {A : Type} (msg : string) : M A :=
  fun _ s => (Thrown (mkError msg), s).

Definition bind {A B : Type} (m : M A) (f : A -> M B) : M B :=
  fun env s =>
    match m env s with
    | (Returned a, s') => f a env s'
    | (Thrown e, s') => (Thrown e, s')
    end.

(** [try { body } catch (error) { handler }] *)
Definition tryCatch {A : Type} (body : M A) (handler : Error -> M A) : M A :=
  fun env s =>
    match body env s with
    | (Returned a, s') => (Returned a, s')
    | (Thrown e, s') => handler e env s'
    end.

Definition asks {A : Type} (f : Env -> A) : M A := fun env s => (Returned (f env), s).

Declare Scope js_scope.
Delimit Scope js_scope with js.
Notation "x <- m ;; k" := (bind m (fun x => k))
  (at level 100, m at next level, right associativity) : js_scope.
Notation "m ;;; k" := (bind m (fun _ => k))
  (at level 100, right associativity) : js_scope.

(** *** Primitive effects *)

(** [new Date()] and [Date.now()]. *)
Definition newDate : M Z :=
  fun _ s =>
    (Returned (now s),
     mkState (entities s) (rpcLog s) (now s + hd 0 (ticks s)) (tl (ticks s)) (nextId s)).

(** [generateId()], that is [crypto.randomUUID()]. *)
Definition generateId : M string :=
  fun env s =>
    (Returned (uuid env (nextId s)),
     mkState (entities s) (rpcLog s) (now s) (ticks s) (S (nextId s))).

(** [client.queryEntities(query)] *)
Definition queryEntities (q : Query) : M (list Entity) :=
  fun env s =>
    if storeFault env (CallQuery q)
    then (Thrown (mkError "query failed"), s)
    else (Returned (filter (matchesQuery q) (entities s)), s).

(** [client.createEntities(creates)] *)
Definition createEntities (creates : list Entity) : M unit :=
  fun env s =>
    if storeFault env CallCreate
    then (Thrown (mkError "create failed"), s)
    else (Returned tt,
          mkState (entities s ++ creates) (rpcLog s) (now s) (ticks s) (nextId s)).

(** A provider call: logged, then answered or rejected. *)
Definition rpc {A : Type} (call : RpcCall) (answer : Env -> A) : M A :=
  fun env s =>
    let s' := mkState (entities s) (call :: rpcLog s) (now s) (ticks s) (nextId s) in
    match rpcFault env call with
    | Some msg => (Thrown (mkError msg), s')
    | None => (Returned (answer env), s')
    end.

Definition getTransactionReceipt (hash : string) : M (option Receipt) :=
  rpc (GetTransactionReceipt hash) (fun env => receipts env hash).

Definition getTransaction (hash : string) : M (option Transaction) :=
  rpc (GetTransaction hash) (fun env => transactions env hash).

Definition decimals : M Z := rpc CallDecimals usdcDecimals.

(** *** Documents of the reading journal *)

Record UserReading (D : Type) : Type := mkReading {
  reading_id : string;
  reading_userId : string;
  cardDrawn : string;
  drawnAt : option D
}.

(** [decodeData] of a stored reading: the date comes back as text. *)
Definition decodeReading (r : UserReading string) : UserReading DateField :=
  mkReading (reading_id r) (reading_userId r) (cardDrawn r)
            (option_map DateStr (drawnAt r)).

(** *** Sequencing over arrays *)

(** [array.map(f)] for a callback that may throw: in order, stopping at
    the first failure. *)
Fixpoint mapM {A B : Type} (f : A -> M B) (l : list A) : M (list B) :=
  match l with
  | [] => ret []
  | a :: r =>
      bind (f a) (fun b => bind (mapM f r) (fun bs => ret (b :: bs)))
  end.

(** [Array.prototype.slice(start, end)] with integral arguments: a
    negative index counts from the end. *)
Definition slice {A : Type} (start finish : Z) (l : list A) : list A :=
  let n := Z.of_nat (List.length l) in
  let relative i := if i <? 0 then Z.max (n + i) 0 else Z.min i n in
  let k := relative start in
  firstn (Z.to_nat (relative finish - k)) (skipn (Z.to_nat k) l).

(** [Array.prototype.sort(compare)]: insertion from the right end.  The
    order in which an engine calls [compare] is its own; each of them
    calls it at least once when the array has two elements, and stops at
    the first call that throws.  [None] is a comparator result of NaN,
    which [sort] treats as [+0]. *)
Fixpoint insertSorted {A : Type} (compare : A -> A -> M (option Z)) (x : A)
    (sorted : list A) : M (list A) :=
  match sorted with
  | [] => ret [x]
  | y :: r =>
      bind (compare x y) (fun c =>
        match c with
        | Some n =>
            if 0 <? n then bind (insertSorted compare x r) (fun r' => ret (y :: r'))
            else ret (x :: y :: r)
        | None => ret (x :: y :: r)
        end)
  end.

Fixpoint sort {A : Type} (compare : A -> A -> M (option Z)) (l : list A)
    : M (list A) :=
  match l with
  | [] => ret []
  | x :: r => bind (sort compare r) (insertSorted compare x)
  end.

End Runtime.

(* ================================================================== *)
(** ** [services/golemDbService.ts]                                    *)
(* ================================================================== *)

Module GolemDBService.

Import JsString Runtime.
Local Open Scope string_scope.
Local Open Scope Z_scope.
Local Open Scope js_scope.

(** [decodeData] of a stored document read as a user, a video or a tier.
    The service tags what it writes, so a document found under a tag has
    that tag's shape; a document of another shape is undecodable. *)
Definition decodeUserData (e : Entity) : M (User DateField) :=
  match data e with
  | PUser u => ret (decodeUser u)
  | _ => throw "Unexpected token in JSON"
  end.

Definition decodeVideoData (e : Entity) : M Video :=
  match data e with
  | PVideo v => ret v
  | _ => throw "Unexpected token in JSON"
  end.

Definition decodeTierData (e : Entity) : M SubscriptionTier :=
  match data e with
  | PTier t => ret t
  | _ => throw "Unexpected token in JSON"
  end.

(** [`type = "user" && walletAddress = "${walletAddress}"`] *)
Definition walletQuery (wallet : string) : Query :=
  [("type", "user"); ("walletAddress", wallet)].

Definition findUserByWallet (wallet : string) : M (option (User DateField)) :=
  tryCatch
    (found <- queryEntities (walletQuery wallet) ;;
     match found with
     | e :: _ => u <- decodeUserData e ;; ret (Some u)
     | [] => ret None
     end)
    (fun _ => ret None).

Definition getUserById (id : string) : M (option (User DateField)) :=
  tryCatch
    (found <- queryEntities [("type", "user"); ("id", id)] ;;
     match found with
     | e :: _ => u <- decodeUserData e ;; ret (Some u)
     | [] => ret None
     end)
    (fun _ => ret None).

Definition getVideoById (id : string) : M (option Video) :=
  tryCatch
    (found <- queryEntities [("type", "video"); ("id", id)] ;;
     match found with
     | e :: _ => v <- decodeVideoData e ;; ret (Some v)
     | [] => ret None
     end)
    (fun _ => ret None).

Definition getSubscriptionTierById (id : string) : M (option SubscriptionTier) :=
  tryCatch
    (found <- queryEntities [("type", "subscription_tier"); ("id", id)] ;;
     match found with
     | e :: _ => t <- decodeTierData e ;; ret (Some t)
     | [] => ret None
     end)
    (fun _ => ret None).

(** [d.getTime()] on the value of a date field: the time value of a
    [Date] object ([None] is NaN); a TypeError on anything else, text
    included. *)
Definition getTime (expr : string) (d : option DateField) : M (option Z) :=
  match d with
  | Some (DateObj t) => ret t
  | Some (DateStr _) => throw (expr ++ ".getTime is not a function")
  | None => throw "Cannot read properties of undefined (reading 'getTime')"
  end.

(** [n || Date.now()] for a time value [n]. *)
Definition orNow (n : option Z) : M Z :=
  match n with
  | Some t => if t =? 0 then newDate else ret t
  | None => newDate
  end.

(** [Partial<User>] as the callers of [updateUser] use it. *)
Record UserUpdates : Type := mkUpdates {
  upd_whitelistStatus : option WhitelistStatus;
  upd_subscription : option (Subscription DateField);
  upd_updatedAt : option DateField;
  upd_lastLogin : option DateField
}.

Definition orElse {A : Type} (o : option A) (d : option A) : option A :=
  match o with
  | Some a => Some a
  | None => d
  end.

(** [{ ...existingUser, ...updates, updatedAt }] *)
Definition mergeUser (existingUser : User DateField) (updates : UserUpdates)
    (updatedAtNow : Z) : User DateField :=
  mkUser (user_id existingUser) (walletAddress existingUser) (role existingUser)
         (match upd_whitelistStatus updates with
          | Some w => w
          | None => whitelistStatus existingUser
          end)
         (orElse (upd_subscription updates) (subscription existingUser))
         (createdAt existingUser)
         (Some (DateObj (Some updatedAtNow)))
         (orElse (upd_lastLogin updates) (lastLogin existingUser)).

Definition updateUser (id : string) (updates : UserUpdates)
    : M (option (User DateField)) :=
  existing <- getUserById id ;;
  match existing with
  | None => ret None
  | Some existingUser =>
      t <- newDate ;;
      let updatedUser := mergeUser existingUser updates t in
      createdAtMs <- getTime "updatedUser.createdAt" (createdAt updatedUser) ;;
      updatedAtMs <- (n <- getTime "updatedUser.updatedAt" (updatedAt updatedUser) ;; orNow n) ;;
      createEntities
        [ mkEntity (PUser (encodeUser updatedUser)) 1000000
            [("type", "user"); ("id", user_id updatedUser);
             ("walletAddress", walletAddress updatedUser)]
            [("createdAt", match createdAtMs with Some c => c | None => 0 end);
             ("updatedAt", updatedAtMs)] ] ;;;
      ret (Some updatedUser)
  end.

Definition accessTypeText (a : AccessType) : string :=
  match a with
  | AccessPurchase => "purchase"
  | AccessSubscription => "subscription"
  | AccessFree => "free"
  end.

(** [{ id: generateId(), ...accessData }]: the [access_id] of [accessData]
    is not read ([Omit<UserVideoAccess, 'id'>]). *)
Definition withId (id : string) (a : UserVideoAccess DateField)
    : UserVideoAccess DateField :=
  mkAccess id (access_userId a) (access_videoId a) (accessType a)
           (transactionHash a) (purchaseDate a) (paymentToken a)
           (amountPaid a) (isFavorite a).

Definition recordUserVideoAccess (accessData : UserVideoAccess DateField)
    : M (UserVideoAccess DateField) :=
  id <- generateId ;;
  let newAccess := withId id accessData in
  createdAtMs <-
    match purchaseDate newAccess with
    | None => newDate
    | Some d => n <- getTime "newAccess.purchaseDate" (Some d) ;; orNow n
    end ;;
  createEntities
    [ mkEntity (PAccess (encodeAccess newAccess)) 1000000
        [("type", "user_video_access"); ("id", access_id newAccess);
         ("userId", access_userId newAccess);
         ("videoId", access_videoId newAccess);
         ("accessType", accessTypeText (accessType newAccess))]
        [("createdAt", createdAtMs)] ] ;;;
  ret newAccess.

(** Truthiness of the value of a date field. *)
Definition dateTruthy (d : DateField) : bool :=
  match d with
  | DateObj _ => true
  | DateStr s => negb (String.eqb s "")
  end.

(** [d > new Date()] where the right operand has time value [t]: both
    operands are converted to Number, text through StringToNumber. *)
Definition laterThan (d : DateField) (t : Z) : bool :=
  match d with
  | DateObj (Some t') => t <? t'
  | DateObj None => false
  | DateStr s => Float64.flt (Float64.FFin (inject_Z t)) (stringToNumber s)
  end.

(** [sub?.isActive && sub.endDate && sub.endDate > new Date()]: the clock
    is read only when the first two conjuncts are truthy. *)
Definition subscriptionCurrent (sub : option (Subscription DateField)) : M bool :=
  match sub with
  | Some s =>
      if isActive s then
        match endDate s with
        | Some d =>
            if dateTruthy d then (t <- newDate ;; ret (laterThan d t))
            else ret false
        | None => ret false
        end
      else ret false
  | None => ret false
  end.

Definition accessQuery (userId videoId : string) : Query :=
  [("type", "user_video_access"); ("userId", userId); ("videoId", videoId)].

Definition checkUserVideoAccess (userId videoId : string) : M bool :=
  tryCatch
    (found <- queryEntities (accessQuery userId videoId) ;;
     match found with
     | _ :: _ => ret true
     | [] =>
         user <- findUserByWallet "" ;;
         current <- subscriptionCurrent (optBind user (@subscription DateField)) ;;
         if current then ret true else ret false
     end)
    (fun _ => ret false).

(** *** The other methods of the service *)

(** [Partial<User>] as the callers of [createUser] use it. *)
Record UserData : Type := mkUserData {
  data_walletAddress : string;
  data_role : option Role;
  data_whitelistStatus : option WhitelistStatus
}.

(** The entity [createUser] and [updateUser] file a user document as. *)
Definition userAnnotations (u : User DateField) : list (string * string) :=
  [("type", "user"); ("id", user_id u); ("walletAddress", walletAddress u)].

(** [createUser]: two ids are drawn, the second ([const id = randomUUID()])
    is not used. *)
Definition createUser (userData : UserData) : M (User DateField) :=
  id <- generateId ;;
  created <- newDate ;;
  updated <- newDate ;;
  let newUser :=
    mkUser id (data_walletAddress userData)
           (match data_role userData with Some r => r | None => RoleUser end)
           (match data_whitelistStatus userData with Some w => w | None => Pending end)
           None (Some (DateObj (Some created))) (Some (DateObj (Some updated))) None in
  generateId ;;;
  createdAtMs <- getTime "newUser.createdAt" (createdAt newUser) ;;
  createEntities
    [ mkEntity (PUser (encodeUser newUser)) 1000000 (userAnnotations newUser)
        [("createdAt", match createdAtMs with Some c => c | None => 0 end)] ] ;;;
  ret newUser.

Definition whitelistUser (userId : string) : M (option (User DateField)) :=
  stamp <- newDate ;;
  updateUser userId (mkUpdates (Some Approved) None (Some (DateObj (Some stamp))) None).

Definition getActiveSubscriptionTiers : M (list SubscriptionTier) :=
  tryCatch
    (found <- queryEntities [("type", "subscription_tier"); ("isActive", "true")] ;;
     mapM decodeTierData found)
    (fun _ => ret []).

(** [(a, b) => b.drawnAt.getTime() - a.drawnAt.getTime()] *)
Definition byDrawnAt (a b : UserReading DateField) : M (option Z) :=
  tb <- getTime "b.drawnAt" (drawnAt b) ;;
  ta <- getTime "a.drawnAt" (drawnAt a) ;;
  ret (match tb, ta with
       | Some x, Some y => Some (x - y)
       | _, _ => None
       end).

Section Readings.

(** The reading documents are kept under the tag [user_reading], apart
    from the documents of the purchase subsystem: what the store answers
    to [`type = "user_reading" && userId = "${userId}"`] is given. *)
Variable queryReadings : string -> M (list (UserReading string)).

Definition getUserReadings (userId : string) (limit : Z)
    : M (list (UserReading DateField)) :=
  tryCatch
    (found <- queryReadings userId ;;
     sorted <- sort byDrawnAt (map decodeReading found) ;;
     ret (slice 0 limit sorted))
    (fun _ => ret []).

End Readings.

End GolemDBService.

(* ================================================================== *)
(** ** [services/baseService.ts]                                       *)
(* ================================================================== *)

Module BaseService.

Import JsString Units Runtime.
Local Open Scope string_scope.
Local Open Scope Z_scope.
Local Open Scope js_scope.

Record TransactionDetails : Type := mkDetails {
  d_blockNumber : Z;
  d_gasUsed : string;
  d_gasPrice : option string
}.

Record PaymentResult : Type := mkPayment {
  success : bool;
  amount : string;
  from : string;
  transactionDetails : TransactionDetails
}.

(** A parsed event ([LogDescription]); [None] stands for [null]. *)
Definition LogDescription : Type := (string * TransferArgs)%type.

(** [log => { try { return parseLog(log) } catch { return null } }] *)
Definition parseOrNull (parse : Log -> ParseResult) (log : Log)
    : option LogDescription :=
  match parse log with
  | Parsed name args => Some (name, args)
  | ParseNull => None
  | ParseThrows => None
  end.

Definition isTransfer (event : option LogDescription) : bool :=
  match event with
  | Some (name, _) => String.eqb name "Transfer"
  | None => false
  end.

Definition fromToken (usdc : string) (log : Log) : bool :=
  String.eqb (toLowerCase (log_address log)) (toLowerCase usdc).

(** [receipt.logs.filter(..).map(..).filter(..)] *)
Definition transferEvents (usdc : string) (parse : Log -> ParseResult)
    (receiptLogs : list Log) : list (option LogDescription) :=
  filter isTransfer (map (parseOrNull parse) (filter (fromToken usdc) receiptLogs)).

Definition directedTo (recipientAddress : string) (event : option LogDescription)
    : bool :=
  match event with
  | Some (_, args) =>
      String.eqb (toLowerCase (arg_to args)) (toLowerCase recipientAddress)
  | None => false
  end.

Definition detailsOf (receipt : Receipt) : TransactionDetails :=
  mkDetails (blockNumber receipt) (decimalDigits (gasUsed receipt))
            (option_map decimalDigits (gasPrice receipt)).

Definition statusIsOne (receipt : Receipt) : bool :=
  match status receipt with
  | Some n => n =? 1
  | None => false
  end.

Definition insufficient (expected got : string) : string :=
  "Insufficient payment: expected " ++ expected ++ ", got " ++ got.

(** [parseFloat(amount) < parseFloat(expected)] *)
Definition belowExpected (amountText expected : string) : bool :=
  Float64.flt (parseFloat amountText) (parseFloat expected).

(** [catch (error) { throw new Error(`Payment verification failed: ...`) }] *)
Definition wrapFailure {A : Type} (body : M A) : M A :=
  tryCatch body
    (fun error => throw ("Payment verification failed: " ++ message error)).

(** The [try] block of [verifyUsdcPayment] once the receipt is there. *)
Definition usdcFromReceipt (receipt : Receipt)
    (expectedAmountUsd recipientAddress : string) : M PaymentResult :=
  if negb (statusIsOne receipt) then throw "Transaction failed"
  else
    usdc <- asks usdcAddress ;;
    parse <- asks parseLog ;;
    let events := transferEvents usdc parse (logs receipt) in
    match events with
    | [] => throw "No USDC transfer found in transaction"
    | _ =>
        match find (directedTo recipientAddress) events with
        | Some (Some (_, args)) =>
            dec <- decimals ;;
            match formatUnits (arg_value args) dec with
            | FormatFails msg => throw msg
            | Text amountUsd =>
                if belowExpected amountUsd expectedAmountUsd
                then throw (insufficient expectedAmountUsd amountUsd)
                else ret (mkPayment true amountUsd (arg_from args) (detailsOf receipt))
            end
        | _ => throw "USDC transfer not directed to store wallet"
        end
    end.

Definition usdcTry (transactionHash expectedAmountUsd recipientAddress : string)
    : M PaymentResult :=
  receipt <- getTransactionReceipt transactionHash ;;
  match receipt with
  | None => throw "Transaction not found"
  | Some receipt => usdcFromReceipt receipt expectedAmountUsd recipientAddress
  end.

Definition verifyUsdcPayment (transactionHash expectedAmountUsd recipientAddress : string)
    : M PaymentResult :=
  wrapFailure (usdcTry transactionHash expectedAmountUsd recipientAddress).

Definition sameAddress (to : option string) (recipientAddress : string) : bool :=
  match to with
  | Some a => String.eqb (toLowerCase a) (toLowerCase recipientAddress)
  | None => false
  end.

Definition ethTry (transactionHash expectedAmountEth recipientAddress : string)
    : M PaymentResult :=
  transaction <- getTransaction transactionHash ;;
  match transaction with
  | None => throw "Transaction not found"
  | Some transaction =>
      receipt <- getTransactionReceipt transactionHash ;;
      match receipt with
      | None => throw "Transaction receipt not found"
      | Some receipt =>
          if negb (statusIsOne receipt) then throw "Transaction failed"
          else if negb (sameAddress (tx_to transaction) recipientAddress)
          then throw "Transaction not directed to store wallet"
          else
            match formatEther (tx_value transaction) with
            | FormatFails msg => throw msg
            | Text amountEth =>
                if belowExpected amountEth expectedAmountEth
                then throw (insufficient expectedAmountEth amountEth)
                else ret (mkPayment true amountEth (tx_from transaction)
                                    (detailsOf receipt))
            end
      end
  end.

Definition verifyEthPayment (transactionHash expectedAmountEth recipientAddress : string)
    : M PaymentResult :=
  wrapFailure (ethTry transactionHash expectedAmountEth recipientAddress).

End BaseService.

(* ================================================================== *)
(** ** [controllers/purchaseController.ts], [videoController.ts]       *)
(* ================================================================== *)

Module Controllers.

Import JsString Runtime GolemDBService BaseService.
Local Open Scope string_scope.
Local Open Scope Z_scope.
Local Open Scope js_scope.

(** The part of an Express request the handlers read; [req_user] is set
    by the authentication middleware from the token. *)
Record Request : Type := mkRequest {
  req_user : option (User DateField);
  body_transactionHash : option string;
  body_videoId : option string;
  body_tierId : option string;
  body_paymentToken : option string;
  params_id : option string
}.

Inductive Body : Type :=
| ErrorBody (error : string)
| PurchaseBody (accessId : string) (paid : string) (token : string)
    (details : TransactionDetails)
| SubscriptionBody (tier : string) (tierName : string) (starts : Z)
    (ends : option Z) (paid : string) (token : string)
    (details : TransactionDetails)
| CancelledBody (tier : option string) (starts ends : option DateField)
| ContentBody (url : string) (expiresAt : Z).

Record Response : Type := mkResponse {
  statusCode : Z;
  body : Body
}.

Definition respond (code : Z) (msg : string) : M Response :=
  ret (mkResponse code (ErrorBody msg)).

Definition json (b : Body) : M Response := ret (mkResponse 200 b).

Definition userIdOf (req : Request) : option string :=
  option_map (@user_id DateField) (req_user req).

Definition walletOf (req : Request) : string :=
  orEmpty (option_map (@walletAddress DateField) (req_user req)).

Definition isApproved (w : WhitelistStatus) : bool :=
  match w with
  | Approved => true
  | _ => false
  end.

Definition tokenOf (s : string) : option PaymentToken :=
  if String.eqb s "USDC" then Some USDC
  else if String.eqb s "ETH" then Some ETH
  else None.

Definition verifyPayment (token : PaymentToken) (hash price : string)
    : M PaymentResult :=
  store <- asks STORE_WALLET_ADDRESS ;;
  match token with
  | USDC => verifyUsdcPayment hash price (orEmpty store)
  | ETH => verifyEthPayment hash price (orEmpty store)
  end.

(** The last step of [verifyVideoPurchase]: record the purchase and answer. *)
Definition grantPurchase (userId videoId hash : string) (token : PaymentToken)
    (tokenText : string) (paymentResult : PaymentResult) : M Response :=
  purchased <- newDate ;;
  accessRecord <-
    recordUserVideoAccess
      (mkAccess "" userId videoId AccessPurchase (Some hash)
                (Some (DateObj (Some purchased))) (Some token)
                (Some (amount paymentResult)) false) ;;
  json (PurchaseBody (access_id accessRecord) (amount paymentResult) tokenText
                     (transactionDetails paymentResult)).

Definition verifyVideoPurchase (req : Request) : M Response :=
  tryCatch
    (if negb (truthy (userIdOf req)) then respond 401 "Authentication required"
     else if negb (truthy (body_transactionHash req)) || negb (truthy (body_videoId req))
             || negb (truthy (body_paymentToken req))
     then respond 400 "transactionHash, videoId, and paymentToken are required"
     else
       let userId := orEmpty (userIdOf req) in
       let hash := orEmpty (body_transactionHash req) in
       let videoId := orEmpty (body_videoId req) in
       let tokenText := orEmpty (body_paymentToken req) in
       match tokenOf tokenText with
       | None => respond 400 "paymentToken must be either USDC or ETH"
       | Some token =>
           user <- findUserByWallet (walletOf req) ;;
           match user with
           | None => respond 403 "User not whitelisted for purchases"
           | Some user =>
               if negb (isApproved (whitelistStatus user))
               then respond 403 "User not whitelisted for purchases"
               else
                 video <- getVideoById videoId ;;
                 match video with
                 | None => respond 404 "Video not found"
                 | Some video =>
                     if negb (video_isActive video)
                     then respond 400 "Video is not available for purchase"
                     else
                       paymentResult <- verifyPayment token hash (singlePriceUsd video) ;;
                       if negb (success paymentResult)
                       then respond 400 "Payment verification failed"
                       else
                         hasAccess <- checkUserVideoAccess userId videoId ;;
                         if hasAccess
                         then respond 400 "User already has access to this video"
                         else grantPurchase userId videoId hash token tokenText
                                            paymentResult
                 end
           end
       end)
    (fun error => respond 500 ("Purchase verification failed: " ++ message error)).

Definition verifySubscriptionPurchase (req : Request) : M Response :=
  tryCatch
    (if negb (truthy (userIdOf req)) then respond 401 "Authentication required"
     else if negb (truthy (body_transactionHash req)) || negb (truthy (body_tierId req))
             || negb (truthy (body_paymentToken req))
     then respond 400 "transactionHash, tierId, and paymentToken are required"
     else
       let userId := orEmpty (userIdOf req) in
       let hash := orEmpty (body_transactionHash req) in
       let tierId := orEmpty (body_tierId req) in
       let tokenText := orEmpty (body_paymentToken req) in
       match tokenOf tokenText with
       | None => respond 400 "paymentToken must be either USDC or ETH"
       | Some token =>
           user <- findUserByWallet (walletOf req) ;;
           match user with
           | None => respond 403 "User not whitelisted for purchases"
           | Some user =>
               if negb (isApproved (whitelistStatus user))
               then respond 403 "User not whitelisted for purchases"
               else
                 tier <- getSubscriptionTierById tierId ;;
                 match tier with
                 | None => respond 404 "Subscription tier not found"
                 | Some tier =>
                     if negb (tier_isActive tier)
                     then respond 400 "Subscription tier is not available"
                     else
                       paymentResult <- verifyPayment token hash (priceUsd tier) ;;
                       if negb (success paymentResult)
                       then respond 400 "Payment verification failed"
                       else
                         startDate <- newDate ;;
                         endDate0 <- newDate ;;
                         zone <- asks localTZA ;;
                         let endDate :=
                           JsDate.setDate zone endDate0
                             (JsDate.getDate zone startDate + durationDays tier) in
                         stamp <- newDate ;;
                         updatedUser <-
                           updateUser userId
                             (mkUpdates None
                                (Some (mkSubscription (Some (tier_id tier))
                                         (Some (DateObj (Some startDate)))
                                         (Some (DateObj endDate)) true))
                                (Some (DateObj (Some stamp))) None) ;;
                         match updatedUser with
                         | None => respond 500 "Failed to update user subscription"
                         | Some _ =>
                             json (SubscriptionBody (tier_id tier) (tier_name tier)
                                     startDate endDate (amount paymentResult)
                                     tokenText (transactionDetails paymentResult))
                         end
                 end
           end
       end)
    (fun error => respond 500 ("Subscription purchase failed: " ++ message error)).

Definition cancelSubscription (req : Request) : M Response :=
  tryCatch
    (if negb (truthy (userIdOf req)) then respond 401 "Authentication required"
     else
       let userId := orEmpty (userIdOf req) in
       user <- findUserByWallet (walletOf req) ;;
       match user with
       | None => respond 404 "User not found"
       | Some user =>
           match subscription user with
           | None => respond 400 "No active subscription found"
           | Some sub =>
               if negb (isActive sub) then respond 400 "No active subscription found"
               else
                 stamp <- newDate ;;
                 updatedUser <-
                   updateUser userId
                     (mkUpdates None
                        (Some (mkSubscription (tierId sub) (startDate sub)
                                              (endDate sub) false))
                        (Some (DateObj (Some stamp))) None) ;;
                 match updatedUser with
                 | None => respond 500 "Failed to cancel subscription"
                 | Some updated =>
                     let s := subscription updated in
                     json (CancelledBody
                             (optBind s (@tierId DateField))
                             (optBind s (@startDate DateField))
                             (optBind s (@endDate DateField)))
                 end
           end
       end)
    (fun _ => respond 500 "Failed to cancel subscription").

(** [VideoController.getVideoContent] *)
Definition getVideoContent (req : Request) : M Response :=
  tryCatch
    (if negb (truthy (params_id req)) then respond 400 "Video ID is required"
     else
       match req_user req with
       | None => respond 401 "Authentication required"
       | Some user =>
           video <- getVideoById (orEmpty (params_id req)) ;;
           match video with
           | None => respond 404 "Video not found"
           | Some video =>
               if negb (video_isActive video) then respond 404 "Video not available"
               else
                 hasAccess <- checkUserVideoAccess (user_id user) (video_id video) ;;
                 if negb hasAccess
                 then respond 403 "Access to this video requires purchase or subscription"
                 else
                   t <- newDate ;;
                   json (ContentBody (videoUrl video) (t + 3600000))
           end
       end)
    (fun _ => respond 500 "Failed to access video content").

(** *** The other handlers of the purchase controller *)

(** The answer of a handler whose success body has type [B]:
    [res.status(code).json({ error })] or [res.json(b)] (status 200). *)
Inductive Reply (B : Type) : Type :=
| Refused (code : Z) (error : string)
| Accepted (b : B).

Arguments Refused {B} code error.
Arguments Accepted {B} b.

Definition refuse {B : Type} (code : Z) (msg : string) : M (Reply B) :=
  ret (Refused code msg).

Definition accept {B : Type} (b : B) : M (Reply B) := ret (Accepted b).

(** The body of [getSubscriptionStatus]; [status_isActive] is [None] when
    the expression is [undefined] (the user has no subscription). *)
Record StatusBody : Type := mkStatusBody {
  hasSubscription : bool;
  status_isActive : option bool;
  status_subscription : option (Subscription DateField)
}.

Definition getSubscriptionStatus (req : Request) : M (Reply StatusBody) :=
  tryCatch
    (if negb (truthy (userIdOf req)) then refuse 401 "Authentication required"
     else
       user <- findUserByWallet (walletOf req) ;;
       match user with
       | None => refuse 404 "User not found"
       | Some user =>
           match subscription user with
           | None => accept (mkStatusBody false None None)
           | Some sub =>
               current <- subscriptionCurrent (Some sub) ;;
               accept (mkStatusBody true (Some current) (Some sub))
           end
       end)
    (fun _ => refuse 500 "Failed to fetch subscription status").

Record TiersBody : Type := mkTiersBody {
  tiers_count : Z;
  tiers : list SubscriptionTier
}.

Definition getSubscriptionTiers : M (Reply TiersBody) :=
  tryCatch
    (found <- getActiveSubscriptionTiers ;;
     accept (mkTiersBody (Z.of_nat (List.length found)) found))
    (fun _ => refuse 500 "Failed to fetch subscription tiers").

End Controllers.

(* ================================================================== *)
(** ** [services/authService.ts]                                       *)
(* ================================================================== *)

Module AuthService.

Import JsString Runtime GolemDBService.
Local Open Scope string_scope.
Local Open Scope Z_scope.
Local Open Scope js_scope.

(** The claims a token carries. *)
Record TokenPayload : Type := mkPayload {
  tok_id : string;
  tok_walletAddress : string;
  tok_role : Role;
  tok_whitelistStatus : WhitelistStatus
}.

(** The secret the process is configured with and the [jsonwebtoken]
    library: [sign payload secret t] is the token [jwt.sign] issues at
    time [t]; [verify token secret t] is what [jwt.verify] returns at time
    [t], [None] when it throws. *)
Record Jwt : Type := mkJwt {
  JWT_SECRET : option string;
  sign : TokenPayload -> string -> Z -> string;
  verify : string -> string -> Z -> option TokenPayload
}.

Section WithJwt.

Variable jwt : Jwt.

Definition payloadOf (user : User DateField) : TokenPayload :=
  mkPayload (user_id user) (walletAddress user) (role user) (whitelistStatus user).

Definition generateToken (user : User DateField) : M string :=
  if negb (truthy (JWT_SECRET jwt)) then throw "JWT_SECRET is not configured"
  else
    issued <- newDate ;;
    ret (sign jwt (payloadOf user) (orEmpty (JWT_SECRET jwt)) issued).

Definition verifyToken (token : string) : M TokenPayload :=
  if negb (truthy (JWT_SECRET jwt)) then throw "JWT_SECRET is not configured"
  else
    tryCatch
      (t <- newDate ;;
       match verify jwt token (orEmpty (JWT_SECRET jwt)) t with
       | Some decoded => ret decoded
       | None => throw "invalid token"
       end)
      (fun _ => throw "Invalid or expired token").

Definition authenticateUser (wallet : string)
    : M (option (User DateField * string)) :=
  tryCatch
    (found <- findUserByWallet wallet ;;
     user <-
       match found with
       | Some user => ret user
       | None => createUser (mkUserData wallet (Some RoleUser) (Some Pending))
       end ;;
     token <- generateToken user ;;
     login <- newDate ;;
     updateUser (user_id user)
                (mkUpdates None None None (Some (DateObj (Some login)))) ;;;
     ret (Some (user, token)))
    (fun _ => ret None).

End WithJwt.

(** [hasSubscriptionAccess]: the test of [checkUserVideoAccess] on the
    user it is given. *)
Definition hasSubscriptionAccess (user : User DateField) : M bool :=
  subscriptionCurrent (subscription user).

End AuthService.

(* ================================================================== *)
(** ** [middleware/authMiddleware.ts]                                  *)
(* ================================================================== *)

Module AuthMiddleware.

Import JsString Runtime GolemDBService Controllers AuthService.
Local Open Scope string_scope.
Local Open Scope Z_scope.
Local Open Scope js_scope.

(** What follows a middleware: the handler of the route, given the
    request as the middleware leaves it. *)
Definition Next : Type := Request -> M Response.

(** [req.user = user] *)
Definition setUser (user : User DateField) (req : Request) : Request :=
  mkRequest (Some user) (body_transactionHash req) (body_videoId req)
            (body_tierId req) (body_paymentToken req) (params_id req).

(** The user the middleware rebuilds from the claims of a token. *)
Definition userOf (decoded : TokenPayload) : User DateField :=
  mkUser (tok_id decoded) (tok_walletAddress decoded) (tok_role decoded)
         (tok_whitelistStatus decoded) None
         (Some (DateObj (Some 0))) (Some (DateObj (Some 0))) None.

(** [authHeader.startsWith('Bearer ')] and [authHeader.substring(7)] *)
Definition bearerToken (authHeader : option string) : option string :=
  match authHeader with
  | Some h =>
      if truthy authHeader && prefix "Bearer " h
      then Some (substring 7 (String.length h - 7) h)
      else None
  | None => None
  end.

Section WithJwt.

Variable jwt : Jwt.

(** The [try] block of [requireAuth] up to [next()]: a refusal, or the
    user to attach. *)
Definition authenticate (authHeader : option string) : M (Response + User DateField) :=
  tryCatch
    (match bearerToken authHeader with
     | None =>
         ret (inl (mkResponse 401
                     (ErrorBody "Authentication required. Please provide a valid JWT token.")))
     | Some token =>
         decoded <- verifyToken jwt token ;;
         ret (inr (userOf decoded))
     end)
    (fun _ => ret (inl (mkResponse 401 (ErrorBody "Invalid or expired token")))).

(** [requireAuth].  [next()] starts the asynchronous handler and is not
    awaited: a failure of the handler is not raised at the call, so the
    [catch] clause of the middleware does not see it. *)
Definition requireAuth (authHeader : option string) (req : Request) (next : Next)
    : M Response :=
  verdict <- authenticate authHeader ;;
  match verdict with
  | inl refusal => ret refusal
  | inr user => next (setUser user req)
  end.

Definition requireAdmin (authHeader : option string) (req : Request) (next : Next)
    : M Response :=
  requireAuth authHeader req
    (fun req =>
       match req_user req with
       | Some user =>
           match role user with
           | RoleAdmin => next req
           | RoleUser => respond 403 "Admin privileges required"
           end
       | None => respond 403 "Admin privileges required"
       end).

Definition requireWhitelist (authHeader : option string) (req : Request) (next : Next)
    : M Response :=
  requireAuth authHeader req
    (fun req =>
       match req_user req with
       | Some user =>
           if isApproved (whitelistStatus user) then next req
           else respond 403 "User not whitelisted. Contact administrator for access."
       | None => respond 403 "User not whitelisted. Contact administrator for access."
       end).

Definition requireContentAccess (authHeader : option string) (req : Request)
    (next : Next) : M Response :=
  requireAuth authHeader req
    (fun req =>
       match req_user req with
       | None => respond 401 "User not authenticated"
       | Some user =>
           if isApproved (whitelistStatus user) then next req
           else
             hasSubscription <- hasSubscriptionAccess user ;;
             if hasSubscription then next req
             else respond 403
                    "Content access requires whitelist approval or active subscription"
       end).

(** [optionalAuth]: the user to attach, if the header carries a token
    that verifies. *)
Definition optionalUser (authHeader : option string) : M (option (User DateField)) :=
  tryCatch
    (match bearerToken authHeader with
     | None => ret None
     | Some token =>
         decoded <- verifyToken jwt token ;;
         ret (Some (userOf decoded))
     end)
    (fun _ => ret None).

Definition optionalAuth (authHeader : option string) (req : Request) (next : Next)
    : M Response :=
  attached <- optionalUser authHeader ;;
  match attached with
  | Some user => next (setUser user req)
  | None => next req
  end.

End WithJwt.

End AuthMiddleware.

(* ================================================================== *)
(** ** [controllers/adminController.ts]: the whitelist                 *)
(* ================================================================== *)

Module AdminController.

Import JsString Runtime GolemDBService Controllers.
Local Open Scope string_scope.
Local Open Scope Z_scope.
Local Open Scope js_scope.

(** [user: { id, walletAddress, whitelistStatus }] of the two answers. *)
Record WhitelistBody : Type := mkWhitelistBody {
  wl_message : string;
  wl_id : string;
  wl_walletAddress : string;
  wl_whitelistStatus : WhitelistStatus
}.

Definition whitelistBody (msg : string) (user : User DateField) : WhitelistBody :=
  mkWhitelistBody msg (user_id user) (walletAddress user) (whitelistStatus user).

(** [walletAddress.startsWith('0x') && walletAddress.length === 42] *)
Definition addressFormat (wallet : string) : bool :=
  prefix "0x" wallet && (Z.of_nat (String.length wallet) =? 42).

(** [addUserToWhitelist]; [body_walletAddress] is [req.body.walletAddress],
    a JSON string or absent. *)
Definition addUserToWhitelist (body_walletAddress : option string)
    : M (Reply WhitelistBody) :=
  tryCatch
    (if negb (truthy body_walletAddress) then refuse 400 "walletAddress is required"
     else
       let wallet := orEmpty body_walletAddress in
       if negb (addressFormat wallet) then refuse 400 "Invalid wallet address format"
       else
         found <- findUserByWallet wallet ;;
         user <-
           match found with
           | None =>
               created <- createUser (mkUserData wallet (Some RoleUser) (Some Approved)) ;;
               ret (Some created)
           | Some existing =>
               stamp <- newDate ;;
               updateUser (user_id existing)
                          (mkUpdates (Some Approved) None
                                     (Some (DateObj (Some stamp))) None)
           end ;;
         match user with
         | None => refuse 500 "Failed to whitelist user"
         | Some user =>
             accept (whitelistBody "User added to whitelist successfully" user)
         end)
    (fun _ => refuse 500 "Failed to whitelist user").

Definition removeUserFromWhitelist (body_walletAddress : option string)
    : M (Reply WhitelistBody) :=
  tryCatch
    (if negb (truthy body_walletAddress) then refuse 400 "walletAddress is required"
     else
       let wallet := orEmpty body_walletAddress in
       found <- findUserByWallet wallet ;;
       match found with
       | None => refuse 404 "User not found"
       | Some user =>
           stamp <- newDate ;;
           updatedUser <-
             updateUser (user_id user)
                        (mkUpdates (Some Rejected) None
                                   (Some (DateObj (Some stamp))) None) ;;
           match updatedUser with
           | None => refuse 500 "Failed to update user whitelist status"
           | Some updatedUser =>
               accept (whitelistBody "User removed from whitelist successfully"
                                     updatedUser)
           end
       end)
    (fun _ => refuse 500 "Failed to remove user from whitelist").

End AdminController.

(* ================================================================== *)
(** ** The application: routes and the wallet login                    *)
(* ================================================================== *)

Module App.

Import JsString Runtime GolemDBService Controllers AuthService AuthMiddleware.
Local Open Scope string_scope.
Local Open Scope Z_scope.
Local Open Scope js_scope.

(** *** [POST /api/auth/wallet] *)

Record LoginBody : Type := mkLoginBody {
  login_id : string;
  login_walletAddress : string;
  login_role : Role;
  login_whitelistStatus : WhitelistStatus;
  login_token : string
}.

(** The handler of the route; [body_walletAddress] is
    [req.body.walletAddress], a JSON string or absent. *)
Definition authWallet (jwt : Jwt) (body_walletAddress : option string)
    : M (Reply LoginBody) :=
  tryCatch
    (if negb (truthy body_walletAddress) then refuse 400 "walletAddress is required"
     else
       authResult <- authenticateUser jwt (orEmpty body_walletAddress) ;;
       match authResult with
       | None => refuse 401 "Authentication failed"
       | Some (user, token) =>
           accept (mkLoginBody (user_id user) (walletAddress user) (role user)
                               (whitelistStatus user) token)
       end)
    (fun _ => refuse 500 "Authentication failed").

(** *** The routing table *)

(** The methods that reach the routes.  (An OPTIONS request is answered
    by the [cors] middleware before them.) *)
Inductive Method : Type := GET | HEAD | POST | PUT | DELETE | PATCH.

(** A segment of a route path: fixed text, or a parameter ([:id]). *)
Inductive Segment : Type :=
| Lit (text : string)
| Param (name : string).

(** The middleware a route is registered with. *)
Inductive Guard : Type := Unguarded | RequireAuth | RequireWhitelist | RequireAdmin.

Inductive Endpoint : Type :=
| Health | GetVideos | GetVideoById | SearchVideos | GetVideosByCard
| GetAllCards | GetCardById | GetSubscriptionTiers | AuthWallet
| GetVideoContent | GetUserPurchasedVideos
| DrawCard | SaveReading | GetReadingHistory | GetReadingById
| VerifyVideoPurchase | VerifySubscriptionPurchase
| GetSubscriptionStatus | CancelSubscription
| CreateVideo | UpdateVideo | BulkUpdatePrices | CreateTarotCard
| CreateSubscriptionTier | UpdateSubscriptionTier
| AddUserToWhitelist | RemoveUserFromWhitelist | GetWhitelistStats
| BulkImportVideos.

Record Route : Type := mkRoute {
  route_method : Method;
  route_path : list Segment;
  route_guard : Guard;
  route_endpoint : Endpoint
}.

Definition api (rest : list Segment) : list Segment := Lit "api" :: rest.

(** The routes, in the order the application registers them. *)
Definition routes : list Route :=
  [ mkRoute GET [Lit "health"] Unguarded Health;
    mkRoute GET (api [Lit "videos"]) Unguarded GetVideos;
    mkRoute GET (api [Lit "videos"; Param "id"]) Unguarded GetVideoById;
    mkRoute GET (api [Lit "videos"; Lit "search"]) Unguarded SearchVideos;
    mkRoute GET (api [Lit "videos"; Lit "card"; Param "cardId"]) Unguarded GetVideosByCard;
    mkRoute GET (api [Lit "tarot"; Lit "cards"]) Unguarded GetAllCards;
    mkRoute GET (api [Lit "tarot"; Lit "cards"; Param "id"]) Unguarded GetCardById;
    mkRoute GET (api [Lit "subscriptions"; Lit "tiers"]) Unguarded GetSubscriptionTiers;
    mkRoute POST (api [Lit "auth"; Lit "wallet"]) Unguarded AuthWallet;
    mkRoute GET (api [Lit "videos"; Param "id"; Lit "content"]) RequireAuth GetVideoContent;
    mkRoute GET (api [Lit "user"; Lit "videos"]) RequireAuth GetUserPurchasedVideos;
    mkRoute POST (api [Lit "tarot"; Lit "draw"]) RequireWhitelist DrawCard;
    mkRoute POST (api [Lit "readings"]) RequireWhitelist SaveReading;
    mkRoute GET (api [Lit "readings"]) RequireWhitelist GetReadingHistory;
    mkRoute GET (api [Lit "readings"; Param "id"]) RequireWhitelist GetReadingById;
    mkRoute POST (api [Lit "purchases"; Lit "video"]) RequireWhitelist VerifyVideoPurchase;
    mkRoute POST (api [Lit "purchases"; Lit "subscription"]) RequireWhitelist
            VerifySubscriptionPurchase;
    mkRoute GET (api [Lit "subscriptions"; Lit "status"]) RequireAuth GetSubscriptionStatus;
    mkRoute POST (api [Lit "subscriptions"; Lit "cancel"]) RequireAuth CancelSubscription;
    mkRoute POST (api [Lit "admin"; Lit "videos"]) RequireAdmin CreateVideo;
    mkRoute PUT (api [Lit "admin"; Lit "videos"; Param "id"]) RequireAdmin UpdateVideo;
    mkRoute POST (api [Lit "admin"; Lit "videos"; Lit "bulk-price-update"]) RequireAdmin
            BulkUpdatePrices;
    mkRoute POST (api [Lit "admin"; Lit "cards"]) RequireAdmin CreateTarotCard;
    mkRoute POST (api [Lit "admin"; Lit "subscription-tiers"]) RequireAdmin
            CreateSubscriptionTier;
    mkRoute PUT (api [Lit "admin"; Lit "subscription-tiers"; Param "id"]) RequireAdmin
            UpdateSubscriptionTier;
    mkRoute POST (api [Lit "admin"; Lit "users"; Lit "whitelist"]) RequireAdmin
            AddUserToWhitelist;
    mkRoute DELETE (api [Lit "admin"; Lit "users"; Lit "whitelist"]) RequireAdmin
            RemoveUserFromWhitelist;
    mkRoute GET (api [Lit "admin"; Lit "users"; Lit "whitelist"; Lit "stats"]) RequireAdmin
            GetWhitelistStats;
    mkRoute POST (api [Lit "admin"; Lit "videos"; Lit "bulk-import"]) RequireAdmin
            BulkImportVideos ].

(** The pieces of a request path between its slashes; one slash at the
    end is ignored (routing is not strict). *)
Fixpoint dropLastEmpty (pieces : list string) : list string :=
  match pieces with
  | [] => []
  | [piece] => if String.eqb piece "" then [] else [piece]
  | piece :: rest => piece :: dropLastEmpty rest
  end.

Definition segmentsOf (path : string) : option (list string) :=
  match split "/" path with
  | first :: pieces => if String.eqb first "" then Some (dropLastEmpty pieces) else None
  | [] => None
  end.

(** A route path against the pieces of a request path: fixed text is
    compared without regard to case, a parameter takes one piece that is
    not empty.  The result holds the pieces the parameters captured, as
    they stand in the path. *)
Fixpoint matchPath (pattern : list Segment) (pieces : list string)
    : option (list (string * string)) :=
  match pattern, pieces with
  | [], [] => Some []
  | Lit text :: pattern', piece :: pieces' =>
      if String.eqb (toLowerCase text) (toLowerCase piece)
      then matchPath pattern' pieces'
      else None
  | Param name :: pattern', piece :: pieces' =>
      if String.eqb piece "" then None
      else option_map (cons (name, piece)) (matchPath pattern' pieces')
  | _, _ => None
  end.

Definition methodEqb (a b : Method) : bool :=
  match a, b with
  | GET, GET | HEAD, HEAD | POST, POST | PUT, PUT | DELETE, DELETE => true
  | _, _ => false
  end.

(** A route registered with [app.get] answers HEAD requests as well. *)
Definition handlesMethod (route : Route) (method : Method) : bool :=
  methodEqb (route_method route) method
  || (methodEqb (route_method route) GET && methodEqb method HEAD).

Fixpoint firstMatch (table : list Route) (method : Method) (pieces : list string)
    : option (Route * list (string * string)) :=
  match table with
  | [] => None
  | route :: table' =>
      if handlesMethod route method then
        match matchPath (route_path route) pieces with
        | Some params => Some (route, params)
        | None => firstMatch table' method pieces
        end
      else firstMatch table' method pieces
  end.

(** The first route registered whose method and path match the request,
    with what its parameters captured: the route that answers the
    request, if one does; its handler ends the request. *)
Definition dispatch (method : Method) (path : string)
    : option (Route * list (string * string)) :=
  match segmentsOf path with
  | Some pieces => firstMatch routes method pieces
  | None => None
  end.

(** Where the router takes a request: to no route, to the error handler
    because a parameter of the path does not decode, or to a route, with
    the parameters decoded. *)
Inductive Routing : Type :=
| NoRoute
| BadParameter
| Routed (route : Route) (params : list (string * string)).

Section Serving.

Variable jwt : Jwt.

(** [decodeURIComponent], [None] when it throws a URIError. *)
Variable decodeURIComponent : string -> option string.

(** The handlers of the endpoints, each given the parameters of the path. *)
Variable handlers : Endpoint -> list (string * string) -> Next.

(** The parameters of a route whose path matches: each capture is
    decoded; [None] when one of them does not decode. *)
Fixpoint decodeParams (captures : list (string * string))
    : option (list (string * string)) :=
  match captures with
  | [] => Some []
  | (name, raw) :: rest =>
      match decodeURIComponent raw with
      | Some value =>
          option_map (cons (name, value)) (decodeParams rest)
      | None => None
      end
  end.

(** The router goes through the routes in the order of registration.  A
    route whose path matches has its parameters decoded, whatever the
    method of the request, and a parameter that does not decode ends the
    search: the routes that follow are passed over.  A route whose path
    matches and whose parameters decode answers if it handles the
    method; otherwise the search goes on. *)
Fixpoint route (table : list Route) (method : Method) (pieces : list string)
    : Routing :=
  match table with
  | [] => NoRoute
  | candidate :: table' =>
      match matchPath (route_path candidate) pieces with
      | Some captures =>
          match decodeParams captures with
          | None => BadParameter
          | Some params =>
              if handlesMethod candidate method then Routed candidate params
              else route table' method pieces
          end
      | None => route table' method pieces
      end
  end.

Definition guardOf (guard : Guard) : option string -> Request -> Next -> M Response :=
  match guard with
  | Unguarded => fun _ req next => next req
  | RequireAuth => requireAuth jwt
  | RequireWhitelist => requireWhitelist jwt
  | RequireAdmin => requireAdmin jwt
  end.

(** The handler registered last, with [app.use('*', ...)]: the path as a
    whole is its parameter and is decoded like the others; when it does
    not decode the error handler answers instead. *)
Definition notFound (path : string) : M Response :=
  match decodeURIComponent path with
  | Some _ => respond 404 "Endpoint not found"
  | None => respond 500 "Internal server error"
  end.

(** A request whose body has been parsed, through the routes of the
    application: the middleware of the route, then its handler; the 404
    handler when no route matches; the error handler, which answers 500,
    when a parameter of the path does not decode (the 404 handler hands
    the error on). *)
Definition serve (method : Method) (path : string) (authHeader : option string)
    (req : Request) : M Response :=
  match segmentsOf path with
  | Some pieces =>
      match route routes method pieces with
      | Routed answering params =>
          guardOf (route_guard answering) authHeader req
                  (handlers (route_endpoint answering) params)
      | BadParameter => respond 500 "Internal server error"
      | NoRoute => notFound path
      end
  | None => notFound path
  end.

End Serving.

End App.

(* ================================================================== *)
(** ** [utils/helpers.ts]                                              *)
(* ================================================================== *)

Module Helpers.

Import Float64 JsString JsDate.
Local Open Scope string_scope.
Local Open Scope Z_scope.

(** [formatDate]: [None] when [toISOString] throws (an Invalid Date). *)
Definition formatDate (date : option Z) : option string :=
  match date with
  | Some t => Some (hd "" (split "." (toISOString t)) ++ "Z")
  | None => None
  end.

Record VideoMetadata : Type := mkMetadata {
  meta_key : string;
  meta_value : string;
  meta_type : string
}.

(** The values [convertValueType] produces. *)
Inductive MetaValue : Type :=
| MString (s : string)
| MNumber (n : F64)
| MBoolean (b : bool)
| MDate (t : option Z).

Section Conversion.

(** [Date.parse]: the time value [new Date(text)] gets, [None] for NaN. *)
Variable parseDate : string -> option Z.

Definition convertValueType (value type : string) : MetaValue :=
  if String.eqb type "number" then MNumber (stringToNumber value)
  else if String.eqb type "boolean" then MBoolean (String.eqb value "true")
  else if String.eqb type "date" then MDate (parseDate value)
  else MString value.

Definition inferValueType (value : MetaValue) : string :=
  match value with
  | MNumber _ => "number"
  | MBoolean _ => "boolean"
  | MDate _ => "date"
  | MString _ => "string"
  end.

(** An object that starts as [{}]: its own properties, and the [Date] its
    prototype has been set to, if any. *)
Record JsObject : Type := mkObject {
  properties : list (string * MetaValue);
  prototype : option MetaValue
}.

Fixpoint assign (key : string) (value : MetaValue) (props : list (string * MetaValue))
    : list (string * MetaValue) :=
  match props with
  | [] => [(key, value)]
  | (k, v) :: rest =>
      if String.eqb k key then (k, value) :: rest else (k, v) :: assign key value rest
  end.

(** [obj[key] = value].  The key [__proto__] reaches the accessor of
    [Object.prototype]: a [Date] becomes the prototype, a primitive value
    is ignored; no own property is created. *)
Definition setProperty (obj : JsObject) (key : string) (value : MetaValue) : JsObject :=
  if String.eqb key "__proto__" then
    match value with
    | MDate _ => mkObject (properties obj) (Some value)
    | _ => obj
    end
  else mkObject (assign key value (properties obj)) (prototype obj).

(** The own property [key] of [obj]. *)
Definition getOwnProperty (obj : JsObject) (key : string) : option MetaValue :=
  option_map snd (find (fun kv => String.eqb (fst kv) key) (properties obj)).

Definition metadataToObject (metadataArray : list VideoMetadata) : JsObject :=
  fold_left
    (fun obj item =>
       setProperty obj (meta_key item)
                   (convertValueType (meta_value item) (meta_type item)))
    metadataArray (mkObject [] None).

End Conversion.

End Helpers.

(* ================================================================== *)
(** ** Vocabulary of the properties                                    *)
(* ================================================================== *)

Module Properties.

Import JsString Runtime GolemDBService BaseService Controllers.
Local Open Scope string_scope.
Local Open Scope Z_scope.

(** [s'] differs from [s] by RPC calls logged, at least one. *)
Definition sameButRpc (s s' : State) : Prop :=
  entities s' = entities s /\ now s' = now s /\ ticks s' = ticks s /\
  nextId s' = nextId s /\
  exists calls, calls <> [] /\ rpcLog s' = (calls ++ rpcLog s)%list.

(** [preserves P m]: whatever the world, [m] ends in an outcome that
    satisfies [P] and leaves the entities of the store as they were. *)
Definition preserves {A : Type} (P : Outcome A -> Prop) (m : M A) : Prop :=
  forall env s, P (fst (m env s)) /\ entities (snd (m env s)) = entities s.

(** [ends P m]: whatever the world, [m] ends in an outcome that
    satisfies [P]. *)
Definition ends {A : Type} (P : Outcome A -> Prop) (m : M A) : Prop :=
  forall env s, P (fst (m env s)).

Definition succeedsOrThrows (o : Outcome Response) : Prop :=
  match o with
  | Returned resp => statusCode resp = 200
  | Thrown _ => True
  end.

(** Outcomes: a return, a failed request, a return other than a user. *)
Definition returns {A : Type} (o : Outcome A) : Prop :=
  exists a, o = Returned a.

Definition refused (o : Outcome Response) : Prop :=
  exists resp, o = Returned resp /\ statusCode resp <> 200.

Definition refusedOrThrown (o : Outcome Response) : Prop :=
  match o with
  | Returned resp => statusCode resp <> 200
  | Thrown _ => True
  end.

Definition noUser (o : Outcome (option (User DateField))) : Prop :=
  forall u, o <> Returned (Some u).

Definition successful (o : Outcome PaymentResult) : Prop :=
  forall p, o = Returned p -> success p = true.

(** The [try] block behind [verifyPayment]. *)
Definition paymentTry (token : PaymentToken) (hash price : string) : M PaymentResult :=
  fun env =>
    match token with
    | USDC => usdcTry hash price (orEmpty (STORE_WALLET_ADDRESS env)) env
    | ETH => ethTry hash price (orEmpty (STORE_WALLET_ADDRESS env)) env
    end.

(** The store holds an access record for the user and the video. *)
Definition hasRecord (userId videoId : string) (s : State) : bool :=
  existsb (matchesQuery (accessQuery userId videoId)) (entities s).

(** The access records of the store that carry a transaction hash. *)
Definition recordsWithHash (hash : string) (s : State) : list Entity :=
  filter (fun e =>
            match data e with
            | PAccess a =>
                match transactionHash a with
                | Some h => String.eqb h hash
                | None => false
                end
            | _ => false
            end) (entities s).

(** The ids a purchase request names. *)
Definition userIdIn (req : Request) : string := orEmpty (userIdOf req).
Definition videoIdIn (req : Request) : string := orEmpty (body_videoId req).
Definition hashIn (req : Request) : string := orEmpty (body_transactionHash req).

(** A video purchase request that gets as far as payment verification:
    the token it pays with and the video it resolves to. *)
Definition beforeVerification (req : Request) (env : Env) (s : State)
    : option (PaymentToken * Video) :=
  if truthy (userIdOf req) && truthy (body_transactionHash req)
     && truthy (body_videoId req) && truthy (body_paymentToken req)
  then
    match tokenOf (orEmpty (body_paymentToken req)) with
    | Some token =>
        match fst (findUserByWallet (walletOf req) env s) with
        | Returned (Some user) =>
            if isApproved (whitelistStatus user) then
              match fst (getVideoById (videoIdIn req) env s) with
              | Returned (Some video) =>
                  if video_isActive video then Some (token, video) else None
              | _ => None
              end
            else None
        | _ => None
        end
    | None => None
    end
  else None.

Definition alreadyHasAccess : Response :=
  mkResponse 400 (ErrorBody "User already has access to this video").

Definition purchaseFailed (msg : string) : Response :=
  mkResponse 500 (ErrorBody ("Purchase verification failed: " ++ msg)).

(** The answer of the branch [if (!paymentResult.success)]. *)
Definition genericFailure : Response :=
  mkResponse 400 (ErrorBody "Payment verification failed").



(** A stored user document with another subscription state. *)
Definition withSubscription (sub : option (Subscription string)) (u : User string)
    : User string :=
  mkUser (user_id u) (walletAddress u) (role u) (whitelistStatus u) sub
         (createdAt u) (updatedAt u) (lastLogin u).

(** [e'] is the entity [e] of user [userId], filed under a wallet address
    that is not empty, with another subscription state. *)
Definition subscriptionChanged (userId : string) (e e' : Entity) : Prop :=
  exists u sub,
    data e = PUser u /\ user_id u = userId /\
    matchesQuery (walletQuery "") e = false /\
    e' = mkEntity (PUser (withSubscription sub u)) (btl e)
                  (stringAnnotations e) (numericAnnotations e).

Definition related (userId : string) (e e' : Entity) : Prop :=
  e' = e \/ subscriptionChanged userId e e'.

(** Two states that differ only in the subscription state of [userId]. *)
Definition differOnlyInSubscription (userId : string) (s s' : State) : Prop :=
  Forall2 (related userId) (entities s) (entities s') /\
  rpcLog s' = rpcLog s /\ now s' = now s /\ ticks s' = ticks s /\
  nextId s' = nextId s.

(** A log entry the decoder drops: it is not from the token contract, or
    [parseLog] raises on it, returns [null], or names another event. *)
Definition dropped (usdc : string) (parse : Log -> ParseResult) (log : Log) : bool :=
  negb (fromToken usdc log) || negb (isTransfer (parseOrNull parse log)).

Definition withLogs (receiptLogs : list Log) (receipt : Receipt) : Receipt :=
  mkReceipt (status receipt) receiptLogs (blockNumber receipt) (gasUsed receipt)
            (gasPrice receipt).

(** The amount a payment verification takes from the chain, once the
    checks before the amount comparison have passed and the amount has
    been formatted: the raw value, the number of decimals it is formatted
    with, and the result returned if the amount is enough (which carries
    the text of the amount). *)
Definition noFault (env : Env) (call : RpcCall) : bool :=
  match rpcFault env call with
  | None => true
  | Some _ => false
  end.

Definition usdcAmount (env : Env) (hash recipientAddress : string)
    : option (Z * Z * PaymentResult) :=
  if noFault env (GetTransactionReceipt hash) && noFault env CallDecimals then
    match receipts env hash with
    | Some receipt =>
        if statusIsOne receipt then
          match find (directedTo recipientAddress)
                     (transferEvents (usdcAddress env) (parseLog env) (logs receipt)) with
          | Some (Some (_, args)) =>
              match Units.formatUnits (arg_value args) (usdcDecimals env) with
              | Units.Text amountUsd =>
                  Some (arg_value args, usdcDecimals env,
                        mkPayment true amountUsd (arg_from args) (detailsOf receipt))
              | Units.FormatFails _ => None
              end
          | _ => None
          end
        else None
    | None => None
    end
  else None.

Definition ethAmount (env : Env) (hash recipientAddress : string)
    : option (Z * Z * PaymentResult) :=
  if noFault env (GetTransaction hash) && noFault env (GetTransactionReceipt hash) then
    match transactions env hash, receipts env hash with
    | Some transaction, Some receipt =>
        if statusIsOne receipt && sameAddress (tx_to transaction) recipientAddress
        then
          match Units.formatEther (tx_value transaction) with
          | Units.Text amountEth =>
              Some (tx_value transaction, 18,
                    mkPayment true amountEth (tx_from transaction) (detailsOf receipt))
          | Units.FormatFails _ => None
          end
        else None
    | _, _ => None
    end
  else None.

Definition chainAmount (token : PaymentToken) : Env -> string -> string ->
    option (Z * Z * PaymentResult) :=
  match token with
  | USDC => usdcAmount
  | ETH => ethAmount
  end.

Definition verifyWith (token : PaymentToken) : string -> string -> string ->
    M PaymentResult :=
  match token with
  | USDC => verifyUsdcPayment
  | ETH => verifyEthPayment
  end.

Definition insufficientPayment (expected got : string) : Error :=
  mkError ("Payment verification failed: " ++ insufficient expected got).

(** The order of two Numbers by the values they denote: a finite double
    is the rational it denotes, the infinities lie below and above all of
    them, and NaN is in no order with anything. *)
Definition numberBelow (a b : Float64.F64) : Prop :=
  match a, b with
  | Float64.FFin x, Float64.FFin y => (x < y)%Q
  | Float64.FFin _, Float64.FInf false => True
  | Float64.FInf true, Float64.FFin _ => True
  | Float64.FInf true, Float64.FInf false => True
  | _, _ => False
  end.

(** The rational is a double: rounding leaves it as it is. *)
Definition isDouble (d : Q) : Prop :=
  exists x, Float64.round64 d = Float64.FFin x /\ (x == d)%Q.

End Properties.

(* ================================================================== *)
(** ** A sample world                                                  *)
(* ================================================================== *)

Module Sample.

Import JsString Units Runtime GolemDBService BaseService Controllers.
Local Open Scope string_scope.
Local Open Scope Z_scope.

(** The address of the token contract the process is configured with
    (USDC_CONTRACT_ADDRESS), in its checksummed form. *)
Definition usdc : string := "0x036cBd53842C5426634e792954dA7dFd334ff160".
Definition store : string := "0xAAAAaaaaAAAAaaaaAAAAaaaaAAAAaaaaAAAAaaaa".
Definition payer : string := "0x1111111111111111111111111111111111111111".

(** A whitelisted user, as [createUser] stores it. *)
Definition alice : User string :=
  mkUser "u1" payer RoleUser Approved None
         (Some "2025-01-01T00:00:00.000Z") (Some "2025-01-01T00:00:00.000Z") None.

Definition userEntity (u : User string) : Entity :=
  mkEntity (PUser u) 1000000
           [("type", "user"); ("id", user_id u); ("walletAddress", walletAddress u)]
           [("createdAt", 1735689600000)].

Definition video1 : Video := mkVideo "v1" "Breathing" "5.00" false "https://cdn/v1" true.
Definition video2 : Video := mkVideo "v2" "Stretching" "5.00" false "https://cdn/v2" true.

Definition videoEntity (v : Video) : Entity :=
  mkEntity (PVideo v) 1000000
           [("type", "video"); ("id", video_id v); ("isActive", "true");
            ("title", title v); ("typeCategory", "exercise")]
           [("createdAt", 1735689600000); ("priceUsd", 500)].

Definition monthly : SubscriptionTier := mkTier "t1" "Monthly" "5.00" 30 true.

Definition tierEntity (t : SubscriptionTier) : Entity :=
  mkEntity (PTier t) 1000000
           [("type", "subscription_tier"); ("id", tier_id t); ("isActive", "true")]
           [("createdAt", 1735689600000); ("priceUsd", 500);
            ("durationDays", durationDays t)].

(** Log entries of the receipts: a transfer of 5 USDC to the store, an
    entry of the token contract that does not parse, and one of another
    contract. *)
Definition transferLog : Log :=
  mkLog "0x036cbd53842c5426634e792954da7dfd334ff160" ["0xddf252ad"; payer; store] "0x4c4b40".
Definition malformedLog : Log :=
  mkLog "0x036CBD53842C5426634E792954DA7DFD334FF160" ["0xddf252ad"] "0x".
Definition foreignLog : Log :=
  mkLog "0x2222222222222222222222222222222222222222" ["0xddf252ad"; payer; store] "0x4c4b40".

Definition parse (log : Log) : ParseResult :=
  match topics log with
  | [_; sender; recipient] => Parsed "Transfer" (mkArgs sender recipient 5000000)
  | _ => ParseThrows
  end.

Definition usdcReceipt : Receipt := mkReceipt (Some 1) [malformedLog; transferLog] 100 21000 (Some 7).
Definition ethReceipt : Receipt := mkReceipt (Some 1) [] 101 21000 (Some 7).
Definition paidReceipt : Receipt := mkReceipt (Some 1) [] 102 21000 (Some 7).
Definition shortReceipt : Receipt := mkReceipt (Some 1) [] 104 21000 (Some 7).

(** A receipt whose only transfer was emitted by another contract. *)
Definition foreignReceipt : Receipt := mkReceipt (Some 1) [foreignLog] 103 21000 (Some 7).

(** One wei short of 5 ETH, sent to the store. *)
Definition ethTransaction : Transaction :=
  mkTransaction (Some store) payer 4999999999999999999.

(** 5 ETH, sent to the store. *)
Definition paidTransaction : Transaction :=
  mkTransaction (Some store) payer 5000000000000000000.

(** 4.5 ETH, sent to the store. *)
Definition shortTransaction : Transaction :=
  mkTransaction (Some store) payer 4500000000000000000.

Definition env0 : Env :=
  mkEnv usdc (Some store) (fun _ _ => 0)
        (fun h => if String.eqb h "0xusdc" then Some usdcReceipt
                  else if String.eqb h "0xeth" then Some ethReceipt
                  else if String.eqb h "0xpaid" then Some paidReceipt
                  else if String.eqb h "0xforeign" then Some foreignReceipt
                  else if String.eqb h "0xshort" then Some shortReceipt
                  else None)
        (fun h => if String.eqb h "0xeth" then Some ethTransaction
                  else if String.eqb h "0xpaid" then Some paidTransaction
                  else if String.eqb h "0xshort" then Some shortTransaction
                  else None)
        6 parse (fun _ => None) (fun _ => false)
        (fun n => "id-" ++ decimalDigits (Z.of_nat n)).

(** The same world with the store unreachable. *)
Definition envDown : Env :=
  mkEnv usdc (Some store) (fun _ _ => 0) (receipts env0) (transactions env0) 6 parse
        (fun _ => None) (fun _ => true) (uuid env0).

(** 2025-11-03T08:45:00.123Z *)
Definition s0 : State :=
  mkState [userEntity alice; videoEntity video1; videoEntity video2; tierEntity monthly]
          [] 1762159500123 [] 0.

(** The principal the middleware rebuilds from the token. *)
Definition principal : User DateField :=
  mkUser "u1" payer RoleUser Approved None
         (Some (DateObj (Some 0))) (Some (DateObj (Some 0))) None.

Definition buyVideo (hash videoId token : string) : Request :=
  mkRequest (Some principal) (Some hash) (Some videoId) None (Some token) None.

Definition buySubscription (hash tier token : string) : Request :=
  mkRequest (Some principal) (Some hash) None (Some tier) (Some token) None.


Definition cancel : Request := mkRequest (Some principal) None None None None None.

(** The store after the first purchase of video [v1]. *)
Definition s1 : State := snd (verifyVideoPurchase (buyVideo "0xusdc" "v1" "USDC") env0 s0).

(** The user with an active subscription, in the store by other means. *)
Definition subscribed : User string :=
  Properties.withSubscription
    (Some (mkSubscription (Some "t1") (Some "2025-10-20T08:00:00.000Z")
                          (Some "2025-11-19T08:00:00.000Z") true))
    alice.

Definition sSubscribed : State :=
  mkState [userEntity subscribed; videoEntity video1] [] 1762159500123 [] 0.

(** The first store, with that subscription on the user. *)
Definition sSubscribed0 : State :=
  mkState [userEntity subscribed; videoEntity video1; videoEntity video2;
           tierEntity monthly] [] 1762159500123 [] 0.

End Sample.

(* ================================================================== *)
(** ** Vocabulary of the further properties                            *)
(* ================================================================== *)

Module Notions.

Import JsString JsDate Runtime GolemDBService BaseService Controllers.
Import AuthService AuthMiddleware App Helpers.
Local Open Scope string_scope.
Local Open Scope Z_scope.

(** The entity a purchase files: the access document with the date of
    the purchase as text, under the annotations of the user and the
    video. *)
Definition purchaseEntity (id userId videoId hash : string) (token : PaymentToken)
    (paid : string) (purchased stamp : Z) : Entity :=
  mkEntity
    (PAccess (mkAccess id userId videoId AccessPurchase (Some hash)
                       (Some (toISOString purchased)) (Some token) (Some paid) false))
    1000000
    [("type", "user_video_access"); ("id", id); ("userId", userId);
     ("videoId", videoId); ("accessType", "purchase")]
    [("createdAt", stamp)].

(** A response with status 200. *)
Definition answered200 (o : Outcome Response) : Prop :=
  exists resp, o = Returned resp /\ statusCode resp = 200.

(** The request for the content of the video a purchase request names,
    by the same principal. *)
Definition contentRequest (req : Request) : Request :=
  mkRequest (req_user req) None None None None (body_videoId req).

(** A stored user document whose subscription was written from [Date]s:
    its end date, if it has one, is the ISO text of a time value. *)
Definition isoDated (j : User string) : Prop :=
  forall sub d, subscription j = Some sub -> endDate sub = Some d ->
                exists t, d = toISOString t.

(** Every user document of the store is so dated. *)
Definition datesWritten (s : State) : Prop :=
  forall e j, In e (entities s) -> data e = PUser j -> isoDated j.

(** The value of a date field is not a [Date] object: it is absent, or
    text. *)
Definition isText (d : option DateField) : Prop :=
  forall t, d <> Some (DateObj t).

Definition textDated (u : User DateField) : Prop :=
  isText (createdAt u) /\ isText (updatedAt u) /\ isText (lastLogin u) /\
  forall sub, subscription u = Some sub ->
              isText (startDate sub) /\ isText (endDate sub).

(** No user is filed under the wallet address. *)
Definition unknownWallet (wallet : string) (s : State) : Prop :=
  filter (matchesQuery (walletQuery wallet)) (entities s) = [].

(** The store answers every query and accepts every entity. *)
Definition storeUp (env : Env) : Prop := forall call, storeFault env call = false.

(** The defaults of [createUser]. *)
Definition roleOr (r : option Role) : Role :=
  match r with Some r => r | None => RoleUser end.

Definition statusOr (w : option WhitelistStatus) : WhitelistStatus :=
  match w with Some w => w | None => Pending end.

(** The entity is filed as a user. *)
Definition filedAsUser (e : Entity) : bool :=
  existsb (annotationEqb ("type", "user")) (stringAnnotations e).

(** Users are filed in order: a user document is filed as a user under
    its own id, and nothing else is filed as a user. *)
Definition userFiled (e : Entity) : Prop :=
  match data e with
  | PUser j => matchesQuery [("type", "user"); ("id", user_id j)] e = true
  | _ => filedAsUser e = false
  end.

Definition usersFiled (s : State) : Prop := Forall userFiled (entities s).

(** The entity [createUser] files for a user. *)
Definition userEntityOf (u : User DateField) (createdAtMs : Z) : Entity :=
  mkEntity (PUser (encodeUser u)) 1000000 (userAnnotations u)
           [("createdAt", createdAtMs)].

(** A reply other than a success. *)
Definition refusedReply {B : Type} (o : Outcome (Reply B)) : Prop :=
  exists code msg, o = Returned (Refused code msg).

(** *** Verdicts of the middleware *)

Definition Middleware : Type := option string -> Request -> Next -> M Response.

(** The middleware answers by itself with status [code]: the handler is
    not run, whatever it is, and the store is left as it was. *)
Definition denies (mw : Middleware) (authHeader : option string) (req : Request)
    (env : Env) (s : State) (code : Z) : Prop :=
  exists msg s',
    entities s' = entities s /\
    forall next : Next,
      mw authHeader req next env s = (Returned (mkResponse code (ErrorBody msg)), s').

(** The middleware hands the request to the handler, whatever it is,
    with the user rebuilt from the claims [decoded] of the bearer token,
    which [jwt.verify] accepted. *)
Definition admits (jwt : Jwt) (mw : Middleware) (authHeader : option string)
    (req : Request) (env : Env) (s : State) (decoded : TokenPayload) : Prop :=
  exists token t s',
    bearerToken authHeader = Some token /\
    truthy (JWT_SECRET jwt) = true /\
    verify jwt token (orEmpty (JWT_SECRET jwt)) t = Some decoded /\
    entities s' = entities s /\
    forall next : Next,
      mw authHeader req next env s = next (setUser (userOf decoded) req) env s'.

(** *** Routing *)

(** The endpoint that answers a request, if a route matches. *)
Definition endpointOf (method : Method) (path : string) : option Endpoint :=
  option_map (fun found => route_endpoint (fst found)) (dispatch method path).

(** The path is under [/api/admin], whatever the case of its letters. *)
Definition underAdmin (path : string) : bool :=
  match segmentsOf path with
  | Some (first :: second :: _) =>
      String.eqb (toLowerCase first) "api" && String.eqb (toLowerCase second) "admin"
  | _ => false
  end.

(** *** Metadata *)

(** The value [metadataToObject] stores for an item. *)
Definition converted (parseDate : string -> option Z) (item : VideoMetadata)
    : MetaValue :=
  convertValueType parseDate (meta_value item) (meta_type item).

(** The last item of the array with the key. *)
Definition lastWithKey (key : string) (items : list VideoMetadata)
    : option VideoMetadata :=
  find (fun item => String.eqb (meta_key item) key) (rev items).

(** *** Sequences of requests *)

(** [appends P m]: whatever the world, [m] leaves the entities of the
    store in place and files, after them, entities that satisfy [P]. *)
Definition appends {A : Type} (P : Entity -> Prop) (m : M A) : Prop :=
  forall env s,
    exists added,
      entities (snd (m env s)) = (entities s ++ added)%list /\ Forall P added.

(** A request to one of the handlers. *)
Inductive Call : Type :=
| CallVideoPurchase (req : Request)
| CallSubscriptionPurchase (req : Request)
| CallCancelSubscription (req : Request)
| CallSubscriptionStatus (req : Request)
| CallSubscriptionTiers
| CallVideoContent (req : Request)
| CallAuthWallet (jwt : Jwt) (body_walletAddress : option string)
| CallAddToWhitelist (body_walletAddress : option string)
| CallRemoveFromWhitelist (body_walletAddress : option string).

(** The state a request leaves. *)
Definition after (call : Call) (env : Env) (s : State) : State :=
  match call with
  | CallVideoPurchase req => snd (verifyVideoPurchase req env s)
  | CallSubscriptionPurchase req => snd (verifySubscriptionPurchase req env s)
  | CallCancelSubscription req => snd (cancelSubscription req env s)
  | CallSubscriptionStatus req => snd (getSubscriptionStatus req env s)
  | CallSubscriptionTiers => snd (getSubscriptionTiers env s)
  | CallVideoContent req => snd (getVideoContent req env s)
  | CallAuthWallet jwt wallet => snd (authWallet jwt wallet env s)
  | CallAddToWhitelist wallet => snd (AdminController.addUserToWhitelist wallet env s)
  | CallRemoveFromWhitelist wallet =>
      snd (AdminController.removeUserFromWhitelist wallet env s)
  end.

(** The state after a sequence of requests, each in the world of its
    time. *)
Fixpoint afterAll (calls : list (Env * Call)) (s : State) : State :=
  match calls with
  | [] => s
  | (env, call) :: rest => afterAll rest (after call env s)
  end.

End Notions.

(* ================================================================== *)
(** ** Further sample worlds                                           *)
(* ================================================================== *)

Module Fixtures.

Import JsString Units JsDate Runtime GolemDBService BaseService Controllers.
Import AuthService AuthMiddleware App Helpers Sample.
Local Open Scope string_scope.
Local Open Scope Z_scope.

(** The sample world with the access queries rejected by the store. *)
Definition envAccessDown : Env :=
  mkEnv usdc (Some store) (fun _ _ => 0) (receipts env0) (transactions env0) 6 parse
        (fun _ => None)
        (fun call =>
           match call with
           | CallQuery ((_, tag) :: _) => String.eqb tag "user_video_access"
           | _ => false
           end)
        (uuid env0).

(** A decoder that rejects a transfer without a recipient. *)
Definition strictParse (log : Log) : ParseResult :=
  match topics log with
  | [_; sender; recipient] =>
      if String.eqb recipient "" then ParseThrows
      else Parsed "Transfer" (mkArgs sender recipient 5000000)
  | _ => ParseThrows
  end.

(** The sample world of a process started without STORE_WALLET_ADDRESS. *)
Definition envNoWallet : Env :=
  mkEnv usdc None (fun _ _ => 0) (receipts env0) (transactions env0) 6 strictParse
        (fun _ => None) (fun _ => false) (uuid env0).

(** A receipt with two transfers of 5 USDC to the store. *)
Definition twoTransfers : list Log := [transferLog; transferLog].

(** A token library that knows two tokens. *)
Definition adminClaims : TokenPayload := mkPayload "a1" "0xadmin" RoleAdmin Approved.
Definition userClaims : TokenPayload := mkPayload "u1" payer RoleUser Pending.

Definition jwt0 : Jwt :=
  mkJwt (Some "s3cret")
        (fun claims _ _ => "token-of-" ++ tok_id claims)
        (fun token _ _ =>
           if String.eqb token "token-of-a1" then Some adminClaims
           else if String.eqb token "token-of-u1" then Some userClaims
           else None).

(** A request as Express hands it to the middleware. *)
Definition bare : Request := mkRequest None None None None None None.

(** Two readings of one user, as the store holds them. *)
Definition reading1 : UserReading string :=
  mkReading "r1" "u1" "the-fool" (Some "2025-11-01T08:00:00.000Z").
Definition reading2 : UserReading string :=
  mkReading "r2" "u1" "the-sun" (Some "2025-11-02T08:00:00.000Z").

Definition twoReadings (userId : string) : M (list (UserReading string)) :=
  ret (if String.eqb userId "u1" then [reading1; reading2] else []).

(** [decodeURIComponent] on the paths of the samples, which carry no
    escape: a text without a percent sign is its own decoding. *)
Fixpoint hasPercent (s : string) : bool :=
  match s with
  | EmptyString => false
  | String c r => Ascii.eqb c "%" || hasPercent r
  end.

Definition decodePlain (raw : string) : option string :=
  if hasPercent raw then None else Some raw.

(** No handler is behind the routes. *)
Definition noHandlers (endpoint : Endpoint) (params : list (string * string)) : Next :=
  fun _ => respond 501 "Not implemented".

End Fixtures.

(* ================================================================== *)
(** * Properties                                                       *)
(* ================================================================== *)

(* ------------------------------------------------------------------ *)
(** ** Rounding to binary64 is monotone                                *)
(* ------------------------------------------------------------------ *)

Module RoundingFacts.

Import Float64.
Local Open Scope Q_scope.

Lemma pow2_pos k : 0 < pow2 k.
Proof. unfold pow2. apply Qpower_0_lt. reflexivity. Qed.

Lemma pow2_add a b : pow2 (a + b) == pow2 a * pow2 b.
Proof. unfold pow2. apply Qpower_plus. discriminate. Qed.

Lemma pow2_le a b : (a <= b)%Z -> pow2 a <= pow2 b.
Proof. intros H. unfold pow2. apply Qpower_le_compat_l; [exact H|]. discriminate. Qed.

Lemma pow2_Z k : (0 <= k)%Z -> pow2 k == inject_Z (2 ^ k).
Proof. intros H. unfold pow2. symmetry. apply (Zpower_Qpower 2 k H). Qed.

Lemma Q_as_div (x : Q) : x * inject_Z (Zpos (Qden x)) == inject_Z (Qnum x).
Proof. destruct x as [n d]. unfold Qeq, Qmult, inject_Z. simpl. lia. Qed.

Lemma Qpos_num (x : Q) : 0 < x -> (0 < Qnum x)%Z.
Proof. destruct x as [n d]. unfold Qlt. simpl. lia. Qed.

Lemma ilog2_upper x : 0 < x -> x < pow2 (ilog2 x + 1).
Proof.
  intros Hx. pose proof (Qpos_num Hx) as Hn.
  set (a := Z.log2 (Qnum x)). set (b := Z.log2 (Zpos (Qden x))).
  assert (Ha : (0 <= a)%Z) by apply Z.log2_nonneg.
  assert (Hb : (0 <= b)%Z) by apply Z.log2_nonneg.
  assert (Hup : x < pow2 (a - b + 1)).
  { apply (Qmult_lt_r _ _ (pow2 b)); [apply pow2_pos|].
    rewrite <- pow2_add. replace (a - b + 1 + b)%Z with (a + 1)%Z by lia.
    apply Qle_lt_trans with (x * inject_Z (Zpos (Qden x))).
    - apply Qmult_le_l; [exact Hx|]. rewrite pow2_Z by exact Hb.
      rewrite <- Zle_Qle. apply Z.log2_spec. reflexivity.
    - rewrite Q_as_div. rewrite pow2_Z by lia. rewrite <- Zlt_Qlt.
      replace (a + 1)%Z with (Z.succ a) by lia. apply Z.log2_spec. exact Hn. }
  unfold ilog2. fold a b. destruct (Qle_bool (pow2 (a - b)) x) eqn:E.
  - exact Hup.
  - replace (a - b - 1 + 1)%Z with (a - b)%Z by lia.
    apply Qnot_le_lt. intro H. apply Qle_bool_iff in H. congruence.
Qed.

Lemma ilog2_lower x : 0 < x -> pow2 (ilog2 x) <= x.
Proof.
  intros Hx. pose proof (Qpos_num Hx) as Hn.
  set (a := Z.log2 (Qnum x)). set (b := Z.log2 (Zpos (Qden x))).
  assert (Ha : (0 <= a)%Z) by apply Z.log2_nonneg.
  assert (Hb : (0 <= b)%Z) by apply Z.log2_nonneg.
  unfold ilog2. fold a b. destruct (Qle_bool (pow2 (a - b)) x) eqn:E.
  - apply Qle_bool_iff. exact E.
  - apply Qlt_le_weak.
    apply (Qmult_lt_r _ _ (pow2 (b + 1))); [apply pow2_pos|].
    rewrite <- pow2_add. replace (a - b - 1 + (b + 1))%Z with a by lia.
    apply Qle_lt_trans with (x * inject_Z (Zpos (Qden x))).
    + rewrite Q_as_div. rewrite pow2_Z by lia. rewrite <- Zle_Qle.
      apply Z.log2_spec. exact Hn.
    + apply Qmult_lt_l; [exact Hx|]. rewrite pow2_Z by lia. rewrite <- Zlt_Qlt.
      replace (b + 1)%Z with (Z.succ b) by lia. apply Z.log2_spec. reflexivity.
Qed.

Lemma ilog2_mono x y : 0 < x -> x <= y -> (ilog2 x <= ilog2 y)%Z.
Proof.
  intros Hx Hxy. assert (Hy : 0 < y) by (eapply Qlt_le_trans; eauto).
  destruct (Z_le_gt_dec (ilog2 x) (ilog2 y)) as [H|H]; [exact H|exfalso].
  pose proof (ilog2_lower Hx) as L. pose proof (ilog2_upper Hy) as U.
  assert (pow2 (ilog2 y + 1) <= pow2 (ilog2 x)) by (apply pow2_le; lia).
  apply (Qlt_irrefl y). eapply Qlt_le_trans; [exact U|].
  eapply Qle_trans; [eassumption|]. eapply Qle_trans; eauto.
Qed.

Lemma rne_floor z : (Qfloor z <= rne z <= Qfloor z + 1)%Z.
Proof.
  unfold rne. destruct (Qcompare_spec (z - inject_Z (Qfloor z)) (1#2));
    try destruct (Z.even (Qfloor z)); lia.
Qed.

Lemma rne_Z n : rne (inject_Z n) = n.
Proof.
  unfold rne. rewrite Qfloor_Z.
  destruct (Qcompare_spec (inject_Z n - inject_Z n) (1#2)) as [H|H|H].
  - exfalso. revert H. unfold Qeq, Qminus, Qplus, Qopp, inject_Z. simpl. lia.
  - reflexivity.
  - exfalso. revert H. unfold Qlt, Qminus, Qplus, Qopp, inject_Z. simpl. lia.
Qed.

Lemma rne_mono x y : x <= y -> (rne x <= rne y)%Z.
Proof.
  intros Hxy. pose proof (Qfloor_resp_le _ _ Hxy) as Hf.
  pose proof (rne_floor x) as Bx. pose proof (rne_floor y) as By.
  destruct (Z.eq_dec (Qfloor x) (Qfloor y)) as [E|NE]; [|lia].
  assert (Hr : x - inject_Z (Qfloor x) <= y - inject_Z (Qfloor y)).
  { rewrite E. apply Qplus_le_l. exact Hxy. }
  unfold rne in *. rewrite <- E in *.
  destruct (Qcompare_spec (x - inject_Z (Qfloor x)) (1#2)) as [H1|H1|H1];
  destruct (Qcompare_spec (y - inject_Z (Qfloor x)) (1#2)) as [H2|H2|H2];
  try destruct (Z.even (Qfloor x)); try lia; exfalso;
  revert Hr H1 H2; generalize (x - inject_Z (Qfloor x)) (y - inject_Z (Qfloor x));
  intros a b Hr H1 H2; lra.
Qed.

Lemma rne_ge (L : Z) z : inject_Z L <= z -> (L <= rne z)%Z.
Proof. intros H. rewrite <- (rne_Z L). apply rne_mono. exact H. Qed.

Lemma rne_le (U : Z) z : z <= inject_Z U -> (rne z <= U)%Z.
Proof. intros H. rewrite <- (rne_Z U). apply rne_mono. exact H. Qed.

Lemma ulpExp_mono x y : 0 < x -> x <= y -> (ulpExp x <= ulpExp y)%Z.
Proof. intros Hx Hxy. unfold ulpExp. pose proof (ilog2_mono Hx Hxy). lia. Qed.

Lemma roundVal_upper x : 0 < x -> roundVal x <= pow2 (ulpExp x + 53).
Proof.
  intros Hx. unfold roundVal. rewrite Z.add_comm, pow2_add.
  apply Qmult_le_compat_r; [|apply Qlt_le_weak, pow2_pos].
  rewrite (@pow2_Z 53) by lia. rewrite <- Zle_Qle. apply rne_le.
  rewrite <- (@pow2_Z 53) by lia.
  apply Qle_shift_div_r; [apply pow2_pos|]. rewrite <- pow2_add.
  apply Qlt_le_weak. eapply Qlt_le_trans; [apply ilog2_upper; exact Hx|].
  apply pow2_le. unfold ulpExp. lia.
Qed.

Lemma roundVal_lower x :
  0 < x -> (-1074 < ulpExp x)%Z -> pow2 (ulpExp x + 52) <= roundVal x.
Proof.
  intros Hx Hq. unfold roundVal. rewrite Z.add_comm, pow2_add.
  apply Qmult_le_compat_r; [|apply Qlt_le_weak, pow2_pos].
  rewrite (@pow2_Z 52) by lia. rewrite <- Zle_Qle. apply rne_ge.
  rewrite <- (@pow2_Z 52) by lia.
  apply Qle_shift_div_l; [apply pow2_pos|]. rewrite <- pow2_add.
  eapply Qle_trans; [|apply ilog2_lower; exact Hx].
  apply pow2_le. unfold ulpExp in *. lia.
Qed.

Lemma roundVal_mono x y : 0 < x -> x <= y -> roundVal x <= roundVal y.
Proof.
  intros Hx Hxy. assert (Hy : 0 < y) by (eapply Qlt_le_trans; eauto).
  pose proof (ulpExp_mono Hx Hxy) as Hq.
  destruct (Z.eq_dec (ulpExp x) (ulpExp y)) as [E|NE].
  - unfold roundVal. rewrite <- E.
    apply Qmult_le_compat_r; [|apply Qlt_le_weak, pow2_pos].
    rewrite <- Zle_Qle. apply rne_mono.
    apply Qmult_le_compat_r; [exact Hxy|].
    apply Qlt_le_weak, Qinv_lt_0_compat, pow2_pos.
  - eapply Qle_trans; [apply roundVal_upper; exact Hx|].
    eapply Qle_trans; [|apply roundVal_lower; [exact Hy|]].
    + apply pow2_le. lia.
    + unfold ulpExp in *. lia.
Qed.

Lemma roundPos_eq x :
  roundPos x = if Qle_bool (pow2 1024) (roundVal x) then FInf false else FFin (roundVal x).
Proof. reflexivity. Qed.

Lemma roundPos_mono x y : 0 < x -> x <= y -> flt (roundPos y) (roundPos x) = false.
Proof.
  intros Hx Hxy. pose proof (roundVal_mono Hx Hxy) as Hv.
  rewrite !roundPos_eq.
  destruct (Qle_bool (pow2 1024) (roundVal y)) eqn:Ey;
    destruct (Qle_bool (pow2 1024) (roundVal x)) eqn:Ex; try reflexivity.
  - exfalso. apply Qle_bool_iff in Ex.
    assert (Qle_bool (pow2 1024) (roundVal y) = true).
    { apply Qle_bool_iff. eapply Qle_trans; eauto. }
    congruence.
  - simpl. apply negb_false_iff. apply Qle_bool_iff. exact Hv.
Qed.

Lemma roundVal_nonneg x : 0 < x -> 0 <= roundVal x.
Proof.
  intros Hx. unfold roundVal. apply Qmult_le_0_compat; [|apply Qlt_le_weak, pow2_pos].
  change 0 with (inject_Z 0). rewrite <- Zle_Qle. apply rne_ge.
  apply Qle_shift_div_l; [apply pow2_pos|]. simpl. rewrite Qmult_0_l.
  apply Qlt_le_weak. exact Hx.
Qed.

Lemma Qnum_sign (x : Q) :
  match Qnum x with
  | Z0 => x == 0
  | Zpos _ => 0 < x
  | Zneg _ => 0 < - x
  end.
Proof. destruct x as [[|p|p] d]; unfold Qeq, Qlt; simpl; lia. Qed.

(** A rounded positive rational is not below zero. *)
Lemma roundPos_sign x : 0 < x ->
  roundPos x = FInf false \/ exists v, roundPos x = FFin v /\ 0 <= v.
Proof.
  intros Hx. rewrite roundPos_eq. destruct (Qle_bool _ _); [left; reflexivity|].
  right. eexists; split; [reflexivity|]. apply roundVal_nonneg. exact Hx.
Qed.

Lemma Qle_bool_false_lt a b : a <= b -> negb (Qle_bool a b) = false.
Proof. intros H. apply negb_false_iff, Qle_bool_iff, H. Qed.

(** Rounding never inverts an order: if [x <= y], the double of [y] is
    not below the double of [x]. *)
Theorem round64_mono x y : x <= y -> flt (round64 y) (round64 x) = false.
Proof.
  intros Hxy. unfold round64.
  pose proof (Qnum_sign x) as Sx. pose proof (Qnum_sign y) as Sy.
  destruct (Qnum x) eqn:Ex; destruct (Qnum y) eqn:Ey.
  - reflexivity.
  - destruct (roundPos_sign Sy) as [-> | (v & -> & Hv)]; [reflexivity|].
    simpl. apply Qle_bool_false_lt. exact Hv.
  - exfalso. lra.
  - exfalso. lra.
  - apply roundPos_mono; assumption.
  - exfalso. lra.
  - destruct (roundPos_sign Sx) as [-> | (v & -> & Hv)]; [reflexivity|].
    simpl. apply Qle_bool_false_lt. lra.
  - destruct (roundPos_sign Sx) as [-> | (v & -> & Hv)];
    destruct (roundPos_sign Sy) as [-> | (v' & -> & Hv')]; try reflexivity.
    simpl. apply Qle_bool_false_lt. lra.
  - assert (H : - y <= - x) by lra.
    pose proof (roundPos_mono Sy H) as M.
    destruct (roundPos (- x)) as [|[|]|u]; destruct (roundPos (- y)) as [|[|]|v];
      simpl in *; try reflexivity; try discriminate.
    apply negb_false_iff, Qle_bool_iff in M. apply Qle_bool_false_lt. lra.
Qed.

End RoundingFacts.

(* ------------------------------------------------------------------ *)
(** ** What [formatUnits] prints denotes the amount exactly            *)
(* ------------------------------------------------------------------ *)

Module UnitsFacts.

Import JsString Units.
Local Open Scope string_scope.
Local Open Scope Z_scope.

Lemma len_nonneg s : 0 <= len s.
Proof. unfold len. lia. Qed.

Lemma len_cons c s : len (String c s) = len s + 1.
Proof. unfold len. simpl String.length. lia. Qed.

Lemma len_app s r : len (s ++ r) = len s + len r.
Proof.
  unfold len. induction s as [|c s IH]; [reflexivity|].
  cbn [append String.length]. rewrite !Nat2Z.inj_succ. lia.
Qed.

Lemma takeDigits_all s : forall acc n r,
  allDigits s = true ->
  takeDigits acc n (s ++ r) = takeDigits (acc * 10 ^ len s + dval s) (n + len s) r.
Proof.
  induction s as [|c s IH]; intros acc n r H.
  - cbn [append dval]. change (len "") with 0. f_equal; [f_equal|]; simpl; lia.
  - cbn [allDigits] in H. apply andb_true_iff in H. destruct H as [Hc Hs].
    cbn [append takeDigits]. rewrite Hc. rewrite IH by exact Hs.
    cbn [dval]. rewrite len_cons.
    rewrite Z.pow_add_r by (pose proof (len_nonneg s); lia).
    change (10 ^ 1) with 10. f_equal; ring.
Qed.

Lemma digitChar_ok d : 0 <= d <= 9 ->
  isDigit (digitChar d) = true /\ codeOf (digitChar d) - 48 = d.
Proof.
  intros H.
  assert (C : d = 0 \/ d = 1 \/ d = 2 \/ d = 3 \/ d = 4 \/ d = 5 \/ d = 6 \/ d = 7
            \/ d = 8 \/ d = 9) by lia.
  repeat (destruct C as [-> | C]; [split; reflexivity|]). subst d. split; reflexivity.
Qed.

Lemma mod10_range n : 0 <= n mod 10 <= 9.
Proof. pose proof (Z.mod_pos_bound n 10). lia. Qed.

Lemma fixedDigits_spec k : forall n acc,
  allDigits acc = true ->
  allDigits (fixedDigits k n acc) = true /\
  len (fixedDigits k n acc) = Z.of_nat k + len acc /\
  dval (fixedDigits k n acc) = (n mod 10 ^ Z.of_nat k) * 10 ^ len acc + dval acc.
Proof.
  induction k as [|k IH]; intros n acc Hacc.
  - simpl. repeat split; auto. rewrite Z.mod_1_r. lia.
  - cbn [fixedDigits].
    destruct (digitChar_ok (mod10_range n)) as [Hd Hv].
    specialize (IH (n / 10) (String (digitChar (n mod 10)) acc)).
    destruct IH as (A & L & V); [simpl; rewrite Hd; exact Hacc|].
    repeat split; [exact A| |].
    + rewrite L, len_cons. lia.
    + rewrite V. cbn [dval]. rewrite Hv, len_cons.
      rewrite Z.pow_add_r by (pose proof (len_nonneg acc); lia).
      replace (Z.of_nat (S k)) with (1 + Z.of_nat k) by lia.
      rewrite Z.pow_add_r by lia. change (10 ^ 1) with 10.
      rewrite (Z.rem_mul_r n 10 (10 ^ Z.of_nat k)) by (try lia; apply Z.pow_pos_nonneg; lia).
      ring.
Qed.

Lemma digitsFuel_spec f : forall n acc,
  0 <= n < 10 ^ Z.of_nat f -> allDigits acc = true ->
  allDigits (digitsFuel f n acc) = true /\
  dval (digitsFuel f n acc) = n * 10 ^ len acc + dval acc /\
  (f <> O -> len acc < len (digitsFuel f n acc)) /\
  len acc <= len (digitsFuel f n acc).
Proof.
  induction f as [|f IH]; intros n acc Hn Hacc.
  - simpl in *. assert (n = 0) by lia. subst. repeat split; auto; try lia.
  - cbn [digitsFuel].
    destruct (digitChar_ok (mod10_range n)) as [Hd Hv].
    set (acc' := String (digitChar (n mod 10)) acc).
    assert (Hacc' : allDigits acc' = true) by (simpl; rewrite Hd; exact Hacc).
    assert (Hl : len acc' = len acc + 1) by apply len_cons.
    destruct (n <? 10) eqn:E.
    + apply Z.ltb_lt in E. repeat split; auto; try lia.
      unfold acc'. cbn [dval]. rewrite Hv. rewrite Z.mod_small by lia. ring.
    + apply Z.ltb_ge in E.
      assert (Hq : 0 <= n / 10 < 10 ^ Z.of_nat f).
      { split; [apply Z.div_pos; lia|].
        apply Z.div_lt_upper_bound; [lia|].
        replace (Z.of_nat (S f)) with (1 + Z.of_nat f) in Hn by lia.
        rewrite Z.pow_add_r in Hn by lia. lia. }
      destruct (IH (n / 10) acc' Hq Hacc') as (A & V & _ & L).
      repeat split; auto; try lia.
      rewrite V. unfold acc'. cbn [dval]. rewrite Hv. fold acc'. rewrite Hl.
      rewrite Z.pow_add_r by (pose proof (len_nonneg acc); lia).
      change (10 ^ 1) with 10.
      pose proof (Z.div_mod n 10 ltac:(lia)) as D.
      set (P := 10 ^ len acc) in *.
      assert (R : n * P = (10 * (n / 10) + n mod 10) * P) by (rewrite <- D; reflexivity).
      rewrite R. ring.
Qed.

Lemma fuel_enough n : 0 <= n -> n < 10 ^ Z.of_nat (S (Z.to_nat (Z.log2 n))).
Proof.
  intros H. pose proof (Z.log2_nonneg n) as L.
  replace (Z.of_nat (S (Z.to_nat (Z.log2 n)))) with (Z.succ (Z.log2 n)) by lia.
  destruct (Z.eq_dec n 0) as [->|N].
  - simpl. lia.
  - eapply Z.lt_le_trans; [apply Z.log2_spec; lia|].
    apply Z.pow_le_mono_l. lia.
Qed.

Lemma decimalDigits_spec n : 0 <= n ->
  allDigits (decimalDigits n) = true /\ dval (decimalDigits n) = n /\
  0 < len (decimalDigits n).
Proof.
  intros H. unfold decimalDigits.
  destruct (@digitsFuel_spec (S (Z.to_nat (Z.log2 n))) n ""
              (conj H (fuel_enough H)) eq_refl) as (A & V & L & _).
  split; [exact A|]. split; [rewrite V; simpl; lia|]. apply L. discriminate.
Qed.

Lemma trimTrailingZeros_spec s :
  allDigits s = true ->
  allDigits (trimTrailingZeros s) = true /\
  len (trimTrailingZeros s) <= len s /\
  dval (trimTrailingZeros s) * 10 ^ (len s - len (trimTrailingZeros s)) = dval s.
Proof.
  induction s as [|c s IH]; intros H.
  - simpl. repeat split; auto; try lia.
  - cbn [allDigits] in H. apply andb_true_iff in H. destruct H as [Hc Hs].
    destruct (IH Hs) as (A & L & V). cbn [trimTrailingZeros].
    pose proof (len_nonneg s) as Ls.
    destruct (trimTrailingZeros s) as [|c' r'] eqn:E.
    + change (len "") with 0 in *. cbn [dval] in V. rewrite Z.mul_0_l in V.
      destruct (Ascii.eqb c "0") eqn:Ec.
      * apply Ascii.eqb_eq in Ec. subst c. rewrite len_cons.
        change (len "") with 0.
        split; [reflexivity|]. split; [lia|].
        cbn [dval]. rewrite <- V. change (codeOf "0" - 48) with 0. ring.
      * rewrite !len_cons. change (len "") with 0.
        repeat split; [cbn [allDigits]; rewrite Hc; reflexivity|lia|].
        cbn [dval]. change (len "") with 0. rewrite <- V.
        replace (len s + 1 - (0 + 1)) with (len s) by lia. simpl (10 ^ 0). ring.
    + set (t := String c' r') in *. rewrite !len_cons.
      pose proof (len_nonneg t) as Lt.
      split; [cbn [allDigits]; rewrite Hc; exact A|]. split; [lia|].
      cbn [dval]. rewrite <- V.
      replace (len s + 1 - (len t + 1)) with (len s - len t) by lia.
      assert (R : 10 ^ len s = 10 ^ len t * 10 ^ (len s - len t)).
      { rewrite <- Z.pow_add_r by lia. f_equal. lia. }
      rewrite R. ring.
Qed.

Lemma digit_not_space c : isDigit c = true -> isWhiteSpace c = false.
Proof.
  unfold isDigit, isWhiteSpace. intros H. apply andb_true_iff in H.
  destruct H as [H1 H2]. apply Z.leb_le in H1.
  repeat (apply orb_false_iff; split); apply Z.eqb_neq; lia.
Qed.

Lemma digit_neq c (k : ascii) : isDigit c = true -> isDigit k = false -> Ascii.eqb c k = false.
Proof.
  intros H K. destruct (Ascii.eqb c k) eqn:E; [|reflexivity].
  apply Ascii.eqb_eq in E. subst. congruence.
Qed.

Lemma takeDigits_stop acc n s :
  match s with String c _ => isDigit c = false | EmptyString => True end ->
  takeDigits acc n s = (acc, n, s).
Proof. destruct s as [|c r]; [reflexivity|]. simpl. intros ->. reflexivity. Qed.

Lemma head_digit s : allDigits s = true -> 0 < len s ->
  exists c r, s = String c r /\ isDigit c = true.
Proof.
  destruct s as [|c r]; intros A L.
  - change (len "") with 0 in L. lia.
  - cbn [allDigits] in A. apply andb_true_iff in A. destruct A. eauto.
Qed.

Lemma prefix_Infinity_digit c r : isDigit c = true -> prefix "Infinity" (String c r) = false.
Proof.
  intros H. cbn [prefix]. destruct (ascii_dec "I" c) as [E|E]; [|reflexivity].
  subst c. discriminate H.
Qed.

(** Parsing the decimal text [w.f] of two digit strings. *)
Lemma strDecimalLiteral_point w f :
  allDigits w = true -> 0 < len w -> allDigits f = true ->
  strDecimalLiteral (w ++ "." ++ f) =
    Some (LitDecimal false (dval w * 10 ^ len f + dval f) (- len f), "").
Proof.
  intros Aw Lw Af. destruct (head_digit w Aw Lw) as (c & r & E & Hc).
  assert (app_nil : forall s, s ++ "" = s).
  { induction s as [|a s IH]; [reflexivity|]. cbn [append]. now rewrite IH. }
  assert (S1 : strDecimalLiteral (w ++ "." ++ f) = unsignedLiteral false (w ++ "." ++ f)).
  { rewrite E. cbn [append strDecimalLiteral].
    rewrite (digit_neq c "+" Hc eq_refl), (digit_neq c "-" Hc eq_refl). reflexivity. }
  assert (S2 : prefix "Infinity" (w ++ "." ++ f) = false).
  { rewrite E. cbn [append]. apply prefix_Infinity_digit. exact Hc. }
  rewrite S1. unfold unsignedLiteral. rewrite S2.
  rewrite takeDigits_all by exact Aw.
  rewrite takeDigits_stop by reflexivity.
  cbn [afterPoint append]. change (Ascii.eqb "." ".") with true. cbv iota.
  rewrite <- (app_nil f) at 1.
  rewrite takeDigits_all by exact Af. rewrite takeDigits_stop by exact I.
  replace (0 + len w =? 0) with false by (symmetry; apply Z.eqb_neq; lia).
  cbn [andb exponentPart]. do 3 f_equal; lia.
Qed.

Lemma strDecimalLiteral_digits w :
  allDigits w = true -> 0 < len w ->
  strDecimalLiteral w = Some (LitDecimal false (dval w) 0, "").
Proof.
  intros Aw Lw. destruct (head_digit w Aw Lw) as (c & r & E & Hc).
  assert (app_nil : forall s, s ++ "" = s).
  { induction s as [|a s IH]; [reflexivity|]. cbn [append]. now rewrite IH. }
  assert (S1 : strDecimalLiteral w = unsignedLiteral false w).
  { rewrite E. cbn [strDecimalLiteral].
    rewrite (digit_neq c "+" Hc eq_refl), (digit_neq c "-" Hc eq_refl). reflexivity. }
  assert (S2 : prefix "Infinity" w = false).
  { rewrite E. apply prefix_Infinity_digit. exact Hc. }
  rewrite S1. unfold unsignedLiteral. rewrite S2.
  rewrite <- (app_nil w) at 1.
  rewrite takeDigits_all by exact Aw. rewrite takeDigits_stop by exact I.
  cbn [afterPoint].
  replace (0 + len w =? 0) with false by (symmetry; apply Z.eqb_neq; lia).
  cbn [exponentPart]. do 3 f_equal; lia.
Qed.

Lemma skipWhiteSpace_digit w :
  allDigits w = true -> 0 < len w -> forall r, skipWhiteSpace (w ++ r) = w ++ r.
Proof.
  intros Aw Lw r. destruct (head_digit w Aw Lw) as (c & t & E & Hc).
  rewrite E. cbn [append skipWhiteSpace]. rewrite (digit_not_space c Hc). reflexivity.
Qed.

Lemma ratio_eq (a p v d : Z) : (0 < p)%Z -> (0 < d)%Z -> (a * d = v * p)%Z ->
  (inject_Z a * / inject_Z p == inject_Z v / inject_Z d)%Q.
Proof.
  intros Hp Hd H.
  assert (~ inject_Z p == 0)%Q by (unfold Qeq; simpl; lia).
  assert (~ inject_Z d == 0)%Q by (unfold Qeq; simpl; lia).
  field_simplify_eq; [|split; assumption].
  rewrite <- !inject_Z_mult. apply inject_Z_injective. lia.
Qed.

(** The text of a fixed-point number denotes exactly
    [value / 10^decimals]. *)
Theorem decimalValue_unsignedFixed v d : 0 <= v -> 0 <= d ->
  exists q, decimalValue (unsignedFixed v d) = Some q /\
            (q == inject_Z v / inject_Z (10 ^ d))%Q.
Proof.
  intros Hv Hd. unfold unsignedFixed, decimalValue.
  destruct (d <=? 0) eqn:E.
  - apply Z.leb_le in E. assert (d = 0) by lia. subst d.
    destruct (decimalDigits_spec Hv) as (A & V & L).
    assert (app_nil : forall s, s ++ "" = s).
    { induction s as [|a s IH]; [reflexivity|]. cbn [append]. now rewrite IH. }
    rewrite <- (app_nil (decimalDigits v)), (skipWhiteSpace_digit _ A L), app_nil.
    rewrite (strDecimalLiteral_digits _ A L). eexists; split; [reflexivity|].
    unfold decimalQ. rewrite V. simpl. field.
  - apply Z.leb_gt in E.
    assert (P : 0 < 10 ^ d) by (apply Z.pow_pos_nonneg; lia).
    pose proof (Z.div_pos v (10 ^ d) Hv P) as HW.
    destruct (decimalDigits_spec HW) as (A & V & L).
    destruct (@fixedDigits_spec (Z.to_nat d) (v mod 10 ^ d) "" eq_refl) as (FA & FL & FV).
    rewrite Z2Nat.id in FL, FV by lia. change (len "") with 0 in *. cbn [dval] in FV.
    rewrite Z.mod_mod in FV by lia. rewrite Z.mul_1_r, Z.add_0_r in FV. rewrite Z.add_0_r in FL.
    destruct (trimTrailingZeros_spec _ FA) as (TA & TL & TV).
    set (fx := fixedDigits (Z.to_nat d) (v mod 10 ^ d) "") in *.
    set (f := match trimTrailingZeros fx with EmptyString => "0" | _ => trimTrailingZeros fx end).
    assert (F : allDigits f = true /\ 1 <= len f <= d /\ dval f * 10 ^ (d - len f) = v mod 10 ^ d).
    { unfold f. destruct (trimTrailingZeros fx) as [|c t] eqn:Et.
      - change (len "") with 0 in *. cbn [dval] in TV. change (len "0") with 1.
        split; [reflexivity|]. split; [lia|]. rewrite <- FV, <- TV. simpl. reflexivity.
      - split; [exact TA|]. rewrite FL in *. rewrite <- FV. split; [|exact TV].
        rewrite len_cons in *. pose proof (len_nonneg t). lia. }
    destruct F as (Af & Lf & Vf).
    rewrite (skipWhiteSpace_digit _ A L).
    rewrite (strDecimalLiteral_point _ _ A L Af). eexists; split; [reflexivity|].
    unfold decimalQ. rewrite V.
    change (10 # 1)%Q with (inject_Z 10). rewrite Qpower_opp.
    rewrite <- Zpower_Qpower by lia.
    apply ratio_eq; [apply Z.pow_pos_nonneg; lia|exact P|].
    rewrite (Z.div_mod v (10 ^ d)) at 2 by lia. rewrite <- Vf.
    assert (R : 10 ^ d = 10 ^ (d - len f) * 10 ^ len f).
    { rewrite <- Z.pow_add_r by lia. f_equal. lia. }
    set (W := v / 10 ^ d) in *. set (X := 10 ^ (d - len f)) in *. set (Y := 10 ^ len f) in *.
    rewrite R. ring.
Qed.

(** When [formatUnits] answers with a text: the decimals are 80 at most,
    the value fits the format, and the text is the one of the value. *)
Lemma formatUnits_text v d t :
  formatUnits v d = Text t ->
  d <= 80 /\ - 2 ^ 511 <= v < 2 ^ 511 /\ t = fixedToString v d.
Proof.
  unfold formatUnits. destruct (80 <? d) eqn:D; [discriminate|].
  destruct (v <? - 2 ^ 511) eqn:L; [discriminate|].
  destruct (2 ^ 511 <=? v) eqn:U; [discriminate|].
  cbn [orb]. intros H. inversion H.
  apply Z.ltb_ge in D, L. apply Z.leb_gt in U. repeat split; assumption.
Qed.

(** It does so on the amounts of the chain: a [uint256] with 80 decimals
    at most. *)
Lemma formatUnits_uint256 v d :
  0 <= v < 2 ^ 256 -> d <= 80 -> formatUnits v d = Text (unsignedFixed v d).
Proof.
  intros [V0 V1] D. unfold formatUnits, fixedToString.
  assert (P : 2 ^ 256 < 2 ^ 511) by (apply Z.pow_lt_mono_r; lia).
  assert (N : 0 < 2 ^ 511) by (apply Z.pow_pos_nonneg; lia).
  replace (80 <? d) with false by (symmetry; apply Z.ltb_ge; lia).
  replace (v <? - 2 ^ 511) with false by (symmetry; apply Z.ltb_ge; lia).
  replace (2 ^ 511 <=? v) with false by (symmetry; apply Z.leb_gt; lia).
  replace (v <? 0) with false by (symmetry; apply Z.ltb_ge; lia).
  reflexivity.
Qed.

(** The text [formatUnits] prints denotes exactly [value / 10^decimals]. *)
Theorem decimalValue_formatUnits v d t : 0 <= v -> 0 <= d ->
  formatUnits v d = Text t ->
  exists q, decimalValue t = Some q /\
            (q == inject_Z v / inject_Z (10 ^ d))%Q.
Proof.
  intros Hv Hd H. apply formatUnits_text in H. destruct H as (_ & _ & ->).
  unfold fixedToString.
  replace (v <? 0) with false by (symmetry; apply Z.ltb_ge; lia).
  apply decimalValue_unsignedFixed; assumption.
Qed.

End UnitsFacts.

(* ------------------------------------------------------------------ *)
(** ** Calendar arithmetic of [setDate]                                *)
(* ------------------------------------------------------------------ *)

Module DateFacts.

Import JsDate.
Local Open Scope Z_scope.

Lemma MonthFromTime_range t : 0 <= MonthFromTime t <= 11.
Proof.
  unfold MonthFromTime.
  repeat match goal with |- context [if ?b then _ else _] => destruct b end; lia.
Qed.

Lemma MakeDay_of_fields t n :
  MakeDay (YearFromTime t) (MonthFromTime t) (DateFromTime t + n) = Day t + n.
Proof.
  pose proof (MonthFromTime_range t) as R.
  unfold MakeDay. rewrite Z.div_small, Z.mod_small by lia.
  rewrite Z.add_0_r. unfold DateFromTime, DayWithinYear, InLeapYear. lia.
Qed.

(** In a zone whose offset is constant, [d.setDate(d.getDate() + n)]
    moves a date by [n] days of 24 hours, whatever the lengths of the
    months in between. *)
Theorem setDate_adds_days z c t n :
  (forall u isUTC, z u isUTC = c) ->
  setDate z t (getDate z t + n) = TimeClip (t + n * msPerDay).
Proof.
  intros Hz. unfold setDate, getDate. rewrite MakeDay_of_fields.
  f_equal. unfold MakeDate, UTC, LocalTime, Day, TimeWithinDay.
  rewrite !Hz.
  pose proof (Z.div_mod (t + c) msPerDay ltac:(discriminate)). lia.
Qed.

(** [yearFromDay] is the year the day falls in. *)
Lemma yearFromDay_spec d :
  DayFromYear (yearFromDay d) <= d < DayFromYear (yearFromDay d + 1).
Proof.
  unfold yearFromDay, DayFromYear.
  repeat match goal with |- context [if ?b then _ else _] => destruct b eqn:? end;
  rewrite ?Z.leb_le, ?Z.leb_gt in *; Z.div_mod_to_equations; lia.
Qed.

End DateFacts.

(* ------------------------------------------------------------------ *)
(** ** Stepping through the services                                   *)
(* ------------------------------------------------------------------ *)

(** The proofs step through the monadic code by rewriting; the numeric
    and text functions are kept folded while they do. *)
Arguments BaseService.belowExpected : simpl never.
Arguments Units.formatUnits : simpl never.
Arguments Units.formatEther : simpl never.
Arguments Units.fixedToString : simpl never.
Arguments BaseService.transferEvents : simpl never.
Arguments BaseService.detailsOf : simpl never.
Arguments GolemDBService.laterThan : simpl never.
Arguments BaseService.insufficient : simpl never.
Arguments String.append : simpl never.
Arguments Runtime.matchesQuery : simpl never.

Module Steps.

Import Float64 JsString Units JsDate Runtime GolemDBService BaseService Controllers Properties Sample.
Local Open Scope string_scope.
Local Open Scope Z_scope.

(** Unfolding of the monad's combinators. *)
Ltac unfold_monad :=
  unfold bind, ret, throw, tryCatch, asks, respond, json in *.

Lemma bind_returned {A B} (m : M A) (f : A -> M B) env s a s' :
  m env s = (Returned a, s') -> bind m f env s = f a env s'.
Proof. intros H. unfold bind. rewrite H. reflexivity. Qed.

(** The finders never throw and leave the state as it is. *)
Lemma findUserByWallet_total w env s :
  exists o, findUserByWallet w env s = (Returned o, s).
Proof.
  unfold findUserByWallet, queryEntities, decodeUserData. unfold_monad.
  destruct (storeFault env _); [eauto|].
  destruct (filter _ _) as [|e l]; [eauto|].
  destruct (data e); eauto.
Qed.

Lemma getUserById_total id env s :
  exists o, getUserById id env s = (Returned o, s).
Proof.
  unfold getUserById, queryEntities, decodeUserData. unfold_monad.
  destruct (storeFault env _); [eauto|].
  destruct (filter _ _) as [|e l]; [eauto|].
  destruct (data e); eauto.
Qed.

Lemma getVideoById_total id env s :
  exists o, getVideoById id env s = (Returned o, s).
Proof.
  unfold getVideoById, queryEntities, decodeVideoData. unfold_monad.
  destruct (storeFault env _); [eauto|].
  destruct (filter _ _) as [|e l]; [eauto|].
  destruct (data e); eauto.
Qed.

Lemma getSubscriptionTierById_total id env s :
  exists o, getSubscriptionTierById id env s = (Returned o, s).
Proof.
  unfold getSubscriptionTierById, queryEntities, decodeTierData. unfold_monad.
  destruct (storeFault env _); [eauto|].
  destruct (filter _ _) as [|e l]; [eauto|].
  destruct (data e); eauto.
Qed.

(** A user document read back from the store has text for its dates. *)
Lemma getUserById_decoded id env s u :
  getUserById id env s = (Returned (Some u), s) -> exists j, u = decodeUser j.
Proof.
  unfold getUserById, queryEntities, decodeUserData. unfold_monad.
  destruct (storeFault env _); [discriminate|].
  destruct (filter _ _) as [|e l]; [discriminate|].
  destruct (data e); intros H; inversion H; eauto.
Qed.

(** [updateUser] never completes an update: it returns [null] when the
    user is not found, and otherwise raises on [createdAt.getTime()],
    before anything is written. *)
Lemma updateUser_never_writes id upd env s :
  updateUser id upd env s = (Returned None, s) \/
  exists e s', updateUser id upd env s = (Thrown e, s') /\ entities s' = entities s
               /\ rpcLog s' = rpcLog s.
Proof.
  unfold updateUser.
  destruct (getUserById_total id env s) as [[u|] H].
  - right. pose proof H as H'. apply getUserById_decoded in H'. destruct H' as [j ->].
    erewrite bind_returned by exact H.
    unfold newDate, getTime, mergeUser, decodeUser. unfold_monad. cbn.
    destruct (createdAt j); cbn; eauto.
  - left. erewrite bind_returned by exact H. reflexivity.
Qed.

Ltac frame_rpc :=
  unfold sameButRpc; cbn;
  repeat split; try reflexivity;
  first [ now (eexists [_]; split; [discriminate|reflexivity])
        | now (eexists [_; _]; split; [discriminate|reflexivity])
        | now (eexists [_; _; _]; split; [discriminate|reflexivity]) ].

Lemma usdcTry_frame h p r env s :
  sameButRpc s (snd (usdcTry h p r env s)) /\
  forall res, fst (usdcTry h p r env s) = Returned res -> success res = true.
Proof.
  unfold usdcTry, usdcFromReceipt, getTransactionReceipt, decimals, rpc.
  unfold_monad. cbn.
  destruct (rpcFault env (GetTransactionReceipt h)); [split; [frame_rpc|discriminate]|].
  destruct (receipts env h) as [rc|]; [|split; [frame_rpc|discriminate]].
  destruct (negb (statusIsOne rc)); [split; [frame_rpc|discriminate]|].
  destruct (transferEvents _ _ _) as [|ev evs]; [split; [frame_rpc|discriminate]|].
  destruct (find _ _) as [[[nm args]|]|]; try (split; [frame_rpc|discriminate]).
  cbn. destruct (rpcFault env CallDecimals); [split; [frame_rpc|discriminate]|].
  destruct (formatUnits _ _) as [amountUsd|msg]; [|split; [frame_rpc|discriminate]].
  destruct (belowExpected _ _); cbn; (split; [frame_rpc|]); [discriminate|].
  intros res H. inversion H. reflexivity.
Qed.

Lemma ethTry_frame h p r env s :
  sameButRpc s (snd (ethTry h p r env s)) /\
  forall res, fst (ethTry h p r env s) = Returned res -> success res = true.
Proof.
  unfold ethTry, getTransaction, getTransactionReceipt, rpc.
  unfold_monad. cbn.
  destruct (rpcFault env (GetTransaction h)); [split; [frame_rpc|discriminate]|].
  destruct (transactions env h) as [tx|]; [|split; [frame_rpc|discriminate]].
  cbn. destruct (rpcFault env (GetTransactionReceipt h)); [split; [frame_rpc|discriminate]|].
  destruct (receipts env h) as [rc|]; [|split; [frame_rpc|discriminate]].
  destruct (negb (statusIsOne rc)); [split; [frame_rpc|discriminate]|].
  destruct (negb (sameAddress _ _)); [split; [frame_rpc|discriminate]|].
  destruct (formatEther _) as [amountEth|msg]; [|split; [frame_rpc|discriminate]].
  destruct (belowExpected _ _); cbn; (split; [frame_rpc|]); [discriminate|].
  intros res H. inversion H. reflexivity.
Qed.

Lemma wrapFailure_run {A} (body : M A) env s :
  wrapFailure body env s =
    match body env s with
    | (Returned a, s') => (Returned a, s')
    | (Thrown e, s') =>
        (Thrown (mkError ("Payment verification failed: " ++ message e)), s')
    end.
Proof. unfold wrapFailure, tryCatch, throw. destruct (body env s) as [[a|e] s']; reflexivity. Qed.

Lemma verifyPayment_run token h p env s :
  verifyPayment token h p env s =
    match paymentTry token h p env s with
    | (Returned a, s') => (Returned a, s')
    | (Thrown e, s') =>
        (Thrown (mkError ("Payment verification failed: " ++ message e)), s')
    end.
Proof.
  unfold verifyPayment, paymentTry, verifyUsdcPayment, verifyEthPayment.
  unfold bind at 1, asks. destruct token; apply wrapFailure_run.
Qed.

Lemma paymentTry_frame token h p env s :
  sameButRpc s (snd (paymentTry token h p env s)) /\
  forall res, fst (paymentTry token h p env s) = Returned res -> success res = true.
Proof. destruct token; [apply usdcTry_frame|apply ethTry_frame]. Qed.

Lemma verifyPayment_frame token h p env s :
  sameButRpc s (snd (verifyPayment token h p env s)) /\
  forall res, fst (verifyPayment token h p env s) = Returned res -> success res = true.
Proof.
  rewrite verifyPayment_run. destruct (paymentTry_frame token h p env s) as [F R].
  destruct (paymentTry token h p env s) as [[a|e] s']; cbn in *; split; auto.
  discriminate.
Qed.

(** The access check: it always answers, and never touches the store or
    the chain. *)
Lemma subscriptionCurrent_total sub env s :
  exists b s', subscriptionCurrent sub env s = (Returned b, s') /\
               entities s' = entities s /\ rpcLog s' = rpcLog s.
Proof.
  unfold subscriptionCurrent, newDate. unfold_monad.
  destruct sub as [sb|]; [|eauto].
  destruct (isActive sb); [|eauto].
  destruct (endDate sb) as [d|]; [|eauto].
  destruct (dateTruthy d); eauto.
Qed.

Lemma checkUserVideoAccess_total u v env s :
  exists b s', checkUserVideoAccess u v env s = (Returned b, s') /\
               entities s' = entities s /\ rpcLog s' = rpcLog s.
Proof.
  unfold checkUserVideoAccess, queryEntities.
  unfold tryCatch, bind at 1. unfold ret at 4.
  destruct (storeFault env (CallQuery (accessQuery u v))); [cbn; eauto|].
  destruct (filter _ _) as [|e l]; [|cbn; eauto].
  destruct (findUserByWallet_total "" env s) as [o Ho].
  erewrite bind_returned by exact Ho.
  destruct (subscriptionCurrent_total (optBind o (@subscription DateField)) env s)
    as (b & s' & Hb & He & Hr).
  erewrite bind_returned by exact Hb. unfold ret. destruct b; eauto.
Qed.

Lemma filter_nonempty {A} (f : A -> bool) l :
  existsb f l = true -> exists x r, filter f l = x :: r.
Proof.
  induction l as [|a l IH]; cbn [existsb filter]; [discriminate|].
  destruct (f a); cbn [orb]; [eauto|exact IH].
Qed.

Lemma checkUserVideoAccess_record u v env s :
  storeFault env (CallQuery (accessQuery u v)) = false ->
  hasRecord u v s = true ->
  checkUserVideoAccess u v env s = (Returned true, s).
Proof.
  intros Hq Hr. unfold checkUserVideoAccess, queryEntities.
  unfold tryCatch, bind at 1. rewrite Hq.
  destruct (filter_nonempty _ _ Hr) as (x & r & ->). reflexivity.
Qed.

(** *** The video purchase, step by step *)

Lemma beforeVerification_inv req env s token video :
  beforeVerification req env s = Some (token, video) ->
  truthy (userIdOf req) = true /\ truthy (body_transactionHash req) = true /\
  truthy (body_videoId req) = true /\ truthy (body_paymentToken req) = true /\
  tokenOf (orEmpty (body_paymentToken req)) = Some token /\
  (exists user, findUserByWallet (walletOf req) env s = (Returned (Some user), s) /\
                isApproved (whitelistStatus user) = true) /\
  getVideoById (videoIdIn req) env s = (Returned (Some video), s) /\
  video_isActive video = true.
Proof.
  unfold beforeVerification. intros H.
  destruct (truthy (userIdOf req)); [|discriminate].
  destruct (truthy (body_transactionHash req)); [|discriminate].
  destruct (truthy (body_videoId req)); [|discriminate].
  destruct (truthy (body_paymentToken req)); [|discriminate].
  cbn [andb] in H.
  destruct (tokenOf _) as [tk|]; [|discriminate].
  destruct (findUserByWallet_total (walletOf req) env s) as [o Ho]. rewrite Ho in H.
  cbn [fst] in H. destruct o as [user|]; [|discriminate].
  destruct (isApproved (whitelistStatus user)) eqn:Ea; [|discriminate].
  destruct (getVideoById_total (videoIdIn req) env s) as [ov Hv]. rewrite Hv in H.
  cbn [fst] in H. destruct ov as [v|]; [|discriminate].
  destruct (video_isActive v) eqn:Ev; [|discriminate].
  inversion H; subst. repeat split; eauto.
Qed.

(** What [verifyVideoPurchase] does once the request is through to
    payment verification. *)
Lemma purchase_from_verification req env s token video :
  beforeVerification req env s = Some (token, video) ->
  verifyVideoPurchase req env s =
    match verifyPayment token (hashIn req) (singlePriceUsd video) env s with
    | (Thrown e, s1) => (Returned (purchaseFailed (message e)), s1)
    | (Returned paymentResult, s1) =>
        match checkUserVideoAccess (userIdIn req) (videoIdIn req) env s1 with
        | (Returned true, s2) => (Returned alreadyHasAccess, s2)
        | (Returned false, s2) =>
            tryCatch (grantPurchase (userIdIn req) (videoIdIn req) (hashIn req) token
                        (orEmpty (body_paymentToken req)) paymentResult)
                     (fun error => respond 500
                        ("Purchase verification failed: " ++ message error)) env s2
        | (Thrown e, s2) => (Returned (purchaseFailed (message e)), s2)
        end
    end.
Proof.
  intros H. apply beforeVerification_inv in H.
  destruct H as (H1 & H2 & H3 & H4 & H5 & (user & H6 & H7) & H8 & H9).
  unfold verifyVideoPurchase, tryCatch at 1.
  rewrite H1, H2, H3, H4, H5. cbn [negb orb].
  erewrite bind_returned by exact H6. cbv beta iota. rewrite H7. cbn [negb].
  fold (videoIdIn req). erewrite bind_returned by exact H8. cbv beta iota. rewrite H9. cbn [negb].
  fold (userIdIn req) (hashIn req).
  destruct (verifyPayment_frame token (hashIn req) (singlePriceUsd video) env s) as [_ Hs].
  unfold bind at 1.
  destruct (verifyPayment token (hashIn req) (singlePriceUsd video) env s) as [[p|e] s1];
    [|reflexivity].
  rewrite (Hs p eq_refl). cbn [negb].
  destruct (checkUserVideoAccess_total (userIdIn req) (videoIdIn req) env s1)
    as (b & s2 & Hc & _).
  unfold bind at 1. rewrite Hc. unfold tryCatch. destruct b; reflexivity.
Qed.

Ltac early :=
  eexists; split; [reflexivity|split; discriminate].

Lemma purchase_rejected_early req env s :
  beforeVerification req env s = None ->
  exists resp, verifyVideoPurchase req env s = (Returned resp, s) /\
               statusCode resp <> 200 /\ resp <> genericFailure.
Proof.
  unfold beforeVerification, verifyVideoPurchase, tryCatch at 1. intros H.
  destruct (truthy (userIdOf req)); cbn [negb andb orb] in *; [|early].
  destruct (truthy (body_transactionHash req)); cbn [negb andb orb] in *; [|early].
  destruct (truthy (body_videoId req)); cbn [negb andb orb] in *; [|early].
  destruct (truthy (body_paymentToken req)); cbn [negb andb orb] in *; [|early].
  destruct (tokenOf _) as [tk|]; [|early].
  destruct (findUserByWallet_total (walletOf req) env s) as [o Ho]. rewrite Ho in H.
  erewrite bind_returned by exact Ho. cbv beta iota. cbn [fst] in H.
  destruct o as [user|]; [|early].
  destruct (isApproved (whitelistStatus user)); cbn [negb]; [|early].
  fold (videoIdIn req).
  destruct (getVideoById_total (videoIdIn req) env s) as [ov Hv]. rewrite Hv in H.
  erewrite bind_returned by exact Hv. cbv beta iota. cbn [fst] in H.
  destruct ov as [v|]; [|early].
  destruct (video_isActive v); [discriminate|]. early.
Qed.

Lemma ends_bind {A B} (Q : Outcome B -> Prop) (m : M A) (f : A -> M B) :
  (forall a, ends Q (f a)) -> (forall e, Q (Thrown e)) -> ends Q (bind m f).
Proof.
  intros Hf He env s. unfold bind.
  destruct (m env s) as [[a|e] s1]; [apply Hf|apply He].
Qed.

(** Granting answers with a success, or throws. *)
Lemma grantPurchase_outcome userId videoId hash token tokenText p :
  ends succeedsOrThrows (grantPurchase userId videoId hash token tokenText p).
Proof.
  unfold grantPurchase.
  apply ends_bind; [intros purchased|intros e; exact I].
  apply ends_bind; [intros accessRecord|intros e; exact I].
  intros env s. reflexivity.
Qed.

Lemma app_neq_self {A} (l r : list A) : l <> [] -> (l ++ r)%list <> r.
Proof.
  intros Hl E. apply (f_equal (@List.length A)) in E. rewrite length_app in E.
  destruct l; [congruence|]. cbn in E. lia.
Qed.

(** With an access record in the store and the store answering, a
    purchase request through to verification ends in the verifier's
    failure or in "already has access"; either way after at least one RPC
    call, and with the store as it was. *)
Lemma purchase_when_recorded req env s token video :
  beforeVerification req env s = Some (token, video) ->
  hasRecord (userIdIn req) (videoIdIn req) s = true ->
  storeFault env (CallQuery (accessQuery (userIdIn req) (videoIdIn req))) = false ->
  sameButRpc s (snd (verifyVideoPurchase req env s)) /\
  match verifyPayment token (hashIn req) (singlePriceUsd video) env s with
  | (Returned _, s1) => verifyVideoPurchase req env s = (Returned alreadyHasAccess, s1)
  | (Thrown e, s1) =>
      verifyVideoPurchase req env s = (Returned (purchaseFailed (message e)), s1)
  end.
Proof.
  intros Hb Hr Hq. rewrite (purchase_from_verification _ _ _ Hb).
  destruct (verifyPayment_frame token (hashIn req) (singlePriceUsd video) env s) as [F _].
  destruct (verifyPayment token (hashIn req) (singlePriceUsd video) env s) as [[p|e] s1];
    cbn [snd] in F.
  - assert (Hr1 : hasRecord (userIdIn req) (videoIdIn req) s1 = true).
    { unfold hasRecord in *. destruct F as (-> & _). exact Hr. }
    rewrite (checkUserVideoAccess_record _ _ _ _ Hq Hr1). split; [exact F|reflexivity].
  - split; [exact F|reflexivity].
Qed.

Lemma append_inj_l p a b : p ++ a = p ++ b -> a = b.
Proof. induction p as [|c p IH]; cbn [append]; intros H; [exact H|]. inversion H. auto. Qed.

(** The generic answer of the branch [if (!paymentResult.success)] is
    never given: the verifiers return successes or throw. *)
Lemma generic_failure_unreachable req env s :
  fst (verifyVideoPurchase req env s) <> Returned genericFailure.
Proof.
  destruct (beforeVerification req env s) as [[token video]|] eqn:Hb.
  - rewrite (purchase_from_verification _ _ _ Hb).
    destruct (verifyPayment token (hashIn req) (singlePriceUsd video) env s)
      as [[p|e] s1]; [|discriminate].
    destruct (checkUserVideoAccess (userIdIn req) (videoIdIn req) env s1)
      as [[[|]|e] s2]; try discriminate.
    unfold tryCatch.
    pose proof (grantPurchase_outcome (userIdIn req) (videoIdIn req) (hashIn req) token
                  (orEmpty (body_paymentToken req)) p env s2) as G.
    unfold succeedsOrThrows in G.
    destruct (grantPurchase _ _ _ _ _ _ env s2) as [[resp|e] s3]; cbn [fst] in *.
    + intros E. inversion E; subst resp. discriminate G.
    + discriminate.
  - destruct (purchase_rejected_early _ _ _ Hb) as (resp & -> & _ & N).
    cbn [fst]. intros E. inversion E. contradiction.
Qed.

Lemma related_annotations userId e e' :
  related userId e e' -> stringAnnotations e' = stringAnnotations e.
Proof. intros [->|(u & sub & _ & _ & _ & ->)]; reflexivity. Qed.

Lemma related_matches userId q e e' :
  related userId e e' -> matchesQuery q e' = matchesQuery q e.
Proof. intros H. unfold matchesQuery. rewrite (related_annotations H). reflexivity. Qed.

(** A query answers with as many entities in both stores. *)
Lemma related_filter_length userId q l l' :
  Forall2 (related userId) l l' ->
  List.length (filter (matchesQuery q) l') = List.length (filter (matchesQuery q) l).
Proof.
  induction 1 as [|e e' l l' R _ IH]; [reflexivity|].
  cbn [filter]. rewrite (related_matches q R).
  destruct (matchesQuery q e); cbn [List.length]; congruence.
Qed.

(** The query by the empty wallet address answers the same in both. *)
Lemma related_filter_wallet userId l l' :
  Forall2 (related userId) l l' ->
  filter (matchesQuery (walletQuery "")) l' = filter (matchesQuery (walletQuery "")) l.
Proof.
  induction 1 as [|e e' l l' R _ IH]; [reflexivity|].
  cbn [filter]. rewrite (related_matches (walletQuery "") R).
  destruct R as [->|(u & sub & _ & _ & Hw & ->)].
  - rewrite IH. reflexivity.
  - rewrite Hw. exact IH.
Qed.

Lemma subscriptionCurrent_clock sub env s s' :
  now s' = now s ->
  fst (subscriptionCurrent sub env s') = fst (subscriptionCurrent sub env s).
Proof.
  intros H. unfold subscriptionCurrent, newDate, bind, ret.
  destruct sub as [sb|]; [|reflexivity].
  destruct (isActive sb); [|reflexivity].
  destruct (endDate sb) as [d|]; [|reflexivity].
  destruct (dateTruthy d); [|reflexivity].
  cbn [fst]. rewrite H. reflexivity.
Qed.

Lemma findUserByWallet_answer w env s :
  fst (findUserByWallet w env s) =
    if storeFault env (CallQuery (walletQuery w)) then Returned None
    else match filter (matchesQuery (walletQuery w)) (entities s) with
         | e :: _ => match data e with
                     | PUser u => Returned (Some (decodeUser u))
                     | _ => Returned None
                     end
         | [] => Returned None
         end.
Proof.
  unfold findUserByWallet, queryEntities, decodeUserData, tryCatch, bind, ret, throw.
  destruct (storeFault env _); [reflexivity|].
  destruct (filter _ _) as [|e l]; [reflexivity|].
  destruct (data e); reflexivity.
Qed.

Lemma checkUserVideoAccess_answer u v env s :
  fst (checkUserVideoAccess u v env s) =
    if storeFault env (CallQuery (accessQuery u v)) then Returned false
    else match filter (matchesQuery (accessQuery u v)) (entities s) with
         | _ :: _ => Returned true
         | [] =>
             match fst (findUserByWallet "" env s) with
             | Returned user =>
                 fst (subscriptionCurrent (optBind user (@subscription DateField)) env s)
             | Thrown _ => Returned false
             end
         end.
Proof.
  unfold checkUserVideoAccess, queryEntities, tryCatch, bind at 1.
  destruct (storeFault env _); [reflexivity|].
  destruct (filter _ _) as [|e l]; [|reflexivity].
  destruct (findUserByWallet_total "" env s) as [o Ho].
  erewrite bind_returned by exact Ho. rewrite Ho. cbn [fst].
  destruct (subscriptionCurrent_total (optBind o (@subscription DateField)) env s)
    as (b & s' & Hb & _).
  erewrite bind_returned by exact Hb. rewrite Hb. unfold ret. destruct b; reflexivity.
Qed.

Lemma updateUser_outcome id upd env s :
  entities (snd (updateUser id upd env s)) = entities s /\
  forall u, fst (updateUser id upd env s) <> Returned (Some u).
Proof.
  destruct (updateUser_never_writes id upd env s) as [H|(e & s' & H & He & _)];
    rewrite H; cbn [fst snd]; split; auto; discriminate.
Qed.

Lemma preserves_ret {A} (P : Outcome A -> Prop) a : P (Returned a) -> preserves P (ret a).
Proof. intros H env s. split; [exact H|reflexivity]. Qed.

Lemma preserves_throw {A} (P : Outcome A -> Prop) msg :
  P (Thrown (mkError msg)) -> preserves P (@throw A msg).
Proof. intros H env s. split; [exact H|reflexivity]. Qed.

Lemma preserves_bind {A B} (P : Outcome A -> Prop) (Q : Outcome B -> Prop) m (f : A -> M B) :
  preserves P m ->
  (forall a, P (Returned a) -> preserves Q (f a)) ->
  (forall e, P (Thrown e) -> Q (Thrown e)) ->
  preserves Q (bind m f).
Proof.
  intros Hm Hf He env s. unfold bind. destruct (Hm env s) as [Hp Hs].
  destruct (m env s) as [[a|e] s1]; cbn [fst snd] in *.
  - destruct (Hf a Hp env s1) as [Hq Hs']. split; [exact Hq|congruence].
  - split; [apply He; exact Hp|exact Hs].
Qed.

Lemma preserves_tryCatch {A} (P Q : Outcome A -> Prop) m h :
  preserves P m ->
  (forall a, P (Returned a) -> Q (Returned a)) ->
  (forall e, P (Thrown e) -> preserves Q (h e)) ->
  preserves Q (tryCatch m h).
Proof.
  intros Hm Hr Hh env s. unfold tryCatch. destruct (Hm env s) as [Hp Hs].
  destruct (m env s) as [[a|e] s1]; cbn [fst snd] in *.
  - split; [apply Hr; exact Hp|exact Hs].
  - destruct (Hh e Hp env s1) as [Hq Hs']. split; [exact Hq|congruence].
Qed.

Lemma preserves_newDate : preserves returns newDate.
Proof. intros env s. split; [eexists; reflexivity|reflexivity]. Qed.

Lemma preserves_asks {A} (f : Env -> A) : preserves returns (asks f).
Proof. intros env s. split; [eexists; reflexivity|reflexivity]. Qed.

Lemma preserves_findUserByWallet w : preserves returns (findUserByWallet w).
Proof.
  intros env s. destruct (findUserByWallet_total w env s) as [o ->].
  split; [eexists; reflexivity|reflexivity].
Qed.

Lemma preserves_getVideoById id : preserves returns (getVideoById id).
Proof.
  intros env s. destruct (getVideoById_total id env s) as [o ->].
  split; [eexists; reflexivity|reflexivity].
Qed.

Lemma preserves_getSubscriptionTierById id : preserves returns (getSubscriptionTierById id).
Proof.
  intros env s. destruct (getSubscriptionTierById_total id env s) as [o ->].
  split; [eexists; reflexivity|reflexivity].
Qed.

Lemma preserves_verifyPayment token h p : preserves successful (verifyPayment token h p).
Proof.
  intros env s. destruct (verifyPayment_frame token h p env s) as [F R].
  split; [exact R|apply F].
Qed.

Lemma preserves_updateUser id upd : preserves noUser (updateUser id upd).
Proof.
  intros env s.
  destruct (updateUser_never_writes id upd env s) as [H|(e & s' & H & He & _)];
    rewrite H; cbn [fst snd]; (split; [intros u; discriminate|auto]).
Qed.

Lemma preserves_respond code msg : code <> 200 -> preserves refusedOrThrown (respond code msg).
Proof. intros H. apply preserves_ret. exact H. Qed.

Ltac refuse := apply preserves_respond; discriminate.

(** Closing a handler: whatever the [try] block refused or threw, the
    caller gets a response that is not a success. *)
Lemma preserves_handler body (h : Error -> M Response) :
  preserves refusedOrThrown body ->
  (forall e, exists code msg, code <> 200 /\ h e = respond code msg) ->
  preserves refused (tryCatch body h).
Proof.
  intros Hb Hh. eapply preserves_tryCatch; [exact Hb| |].
  - intros a H. exists a. split; [reflexivity|exact H].
  - intros e _. destruct (Hh e) as (code & msg & Hc & ->).
    apply preserves_ret. eexists. split; [reflexivity|exact Hc].
Qed.

Lemma tryCatch_bind_returned {A B} (m : M A) (f : A -> M B) h env s a s' :
  m env s = (Returned a, s') ->
  tryCatch (bind m f) h env s = tryCatch (f a) h env s'.
Proof. intros H. unfold tryCatch, bind. rewrite H. reflexivity. Qed.

Lemma tryCatch_updateUser id upd (k : option (User DateField) -> M Response) h env s r :
  k None = ret r -> (forall e, h e = ret r) ->
  fst (tryCatch (bind (updateUser id upd) k) h env s) = Returned r.
Proof.
  intros Hk Hh. unfold tryCatch, bind.
  destruct (updateUser_never_writes id upd env s) as [H|(e & s' & H & _)]; rewrite H.
  - rewrite Hk. reflexivity.
  - rewrite Hh. reflexivity.
Qed.

End Steps.

(* ------------------------------------------------------------------ *)
(** ** The video purchase: claims C1, C2 and C3                        *)
(* ------------------------------------------------------------------ *)

Module PurchaseFacts.

Import Float64 JsString Units JsDate Runtime GolemDBService BaseService Controllers Properties Sample.
Import Steps.
Local Open Scope string_scope.
Local Open Scope Z_scope.

(** C1, as amended.  Entitlements are keyed by principal and video, not
    by transaction hash: once a [user_video_access] record for the
    principal and the video of a request is stored, and the store answers
    the access query, the video-purchase operation stores nothing more and
    never answers with a success; when the request gets as far as payment
    verification and the payment verifies, the answer is "User already
    has access to this video". *)
Theorem purchase_once_per_user_and_video req env s :
  hasRecord (userIdIn req) (videoIdIn req) s = true ->
  storeFault env (CallQuery (accessQuery (userIdIn req) (videoIdIn req))) = false ->
  entities (snd (verifyVideoPurchase req env s)) = entities s /\
  (exists resp, fst (verifyVideoPurchase req env s) = Returned resp /\
                statusCode resp <> 200) /\
  (forall token video paymentResult s1,
      beforeVerification req env s = Some (token, video) ->
      verifyPayment token (hashIn req) (singlePriceUsd video) env s
        = (Returned paymentResult, s1) ->
      verifyVideoPurchase req env s = (Returned alreadyHasAccess, s1)).
Proof.
  intros Hr Hq.
  destruct (beforeVerification req env s) as [[token video]|] eqn:Hb.
  - destruct (purchase_when_recorded _ _ _ Hb Hr Hq) as [F R].
    split; [apply F|]. split.
    + destruct (verifyPayment token (hashIn req) (singlePriceUsd video) env s)
        as [[p|e] s1]; rewrite R; eexists; (split; [reflexivity|discriminate]).
    + intros token' video' p s1 E Hp. inversion E; subst token' video'.
      rewrite Hp in R. exact R.
  - destruct (purchase_rejected_early _ _ _ Hb) as (resp & -> & Hs & _).
    split; [reflexivity|]. split; [exists resp; split; [reflexivity|exact Hs]|].
    intros token video p s2 E. discriminate E.
Qed.

(** Witness of C1 as amended: the purchase of video [v1] repeated on the
    store that already records it. *)
Lemma purchase_once_per_user_and_video_witness :
  let req := buyVideo "0xusdc" "v1" "USDC" in
  hasRecord (userIdIn req) (videoIdIn req) s1 = true /\
  storeFault env0 (CallQuery (accessQuery (userIdIn req) (videoIdIn req))) = false /\
  entities (snd (verifyVideoPurchase req env0 s1)) = entities s1.
Proof.
  intros req.
  assert (H1 : hasRecord (userIdIn req) (videoIdIn req) s1 = true)
    by (vm_compute; reflexivity).
  assert (H2 : storeFault env0 (CallQuery (accessQuery (userIdIn req) (videoIdIn req)))
               = false) by (vm_compute; reflexivity).
  destruct (@purchase_once_per_user_and_video req env0 s1 H1 H2) as [P _].
  split; [exact H1|]. split; [exact H2|exact P].
Defined.

(** C1 as stated does not hold.  A transfer of 5 ETH to the store, with
    hash [0xpaid], pays for video [v1]: the call answers 200 and the store
    holds one record with the hash.  A second call with the same hash for
    video [v2] answers 200 as well, not "already granted", and the store
    then holds two records that carry the hash. *)
Lemma one_hash_two_records :
  let first := buyVideo "0xpaid" "v1" "ETH" in
  let second := buyVideo "0xpaid" "v2" "ETH" in
  let granted := snd (verifyVideoPurchase first env0 s0) in
  hashIn first = hashIn second /\
  fst (verifyVideoPurchase first env0 s0) =
    Returned (mkResponse 200
                (PurchaseBody "id-0" "5.0" "ETH" (mkDetails 102 "21000" (Some "7")))) /\
  List.length (recordsWithHash "0xpaid" granted) = 1%nat /\
  fst (verifyVideoPurchase second env0 granted) =
    Returned (mkResponse 200
                (PurchaseBody "id-1" "5.0" "ETH" (mkDetails 102 "21000" (Some "7")))) /\
  List.length (recordsWithHash "0xpaid" (snd (verifyVideoPurchase second env0 granted)))
    = 2%nat.
Proof. vm_compute. repeat split. Qed.

(** Two calls interleaved at their await points: both pass the access
    check before either records, and the store ends with two records for
    the same principal, video and hash. *)
Lemma interleaved_calls_record_twice :
  let p := mkPayment true "5.0" payer (mkDetails 102 "21000" (Some "7")) in
  let grant := grantPurchase "u1" "v1" "0xpaid" ETH "ETH" p env0 in
  fst (verifyPayment ETH "0xpaid" "5.00" env0 s0) = Returned p /\
  checkUserVideoAccess "u1" "v1" env0 s0 = (Returned false, s0) /\
  List.length (filter (matchesQuery (accessQuery "u1" "v1"))
                      (entities (snd (grant (snd (grant s0)))))) = 2%nat /\
  List.length (recordsWithHash "0xpaid" (snd (grant (snd (grant s0))))) = 2%nat.
Proof. vm_compute. repeat split. Qed.

(** C2.  When the [try] block of the payment verifier fails with error
    [e], on a request that got as far as verification, the caller receives
    status 500 with the text of [e] behind the two fixed prefixes; the
    text of the verifier's failure can be read back from the response, so
    no two failures are merged into one; and the generic answer 400
    "Payment verification failed" is never given. *)
Theorem verifier_failure_reaches_caller req env s token video e s1 :
  beforeVerification req env s = Some (token, video) ->
  paymentTry token (hashIn req) (singlePriceUsd video) env s = (Thrown e, s1) ->
  verifyVideoPurchase req env s =
    (Returned (purchaseFailed ("Payment verification failed: " ++ message e)), s1) /\
  (forall m, purchaseFailed ("Payment verification failed: " ++ m) =
             purchaseFailed ("Payment verification failed: " ++ message e) ->
             m = message e) /\
  fst (verifyVideoPurchase req env s) <> Returned genericFailure.
Proof.
  intros Hb Ht. split; [|split].
  - rewrite (purchase_from_verification _ _ _ Hb), verifyPayment_run, Ht. reflexivity.
  - unfold purchaseFailed. intros m H. inversion H as [H']. exact H'.
  - apply generic_failure_unreachable.
Qed.

(** Witness of C2: a hash the chain does not know. *)
Lemma verifier_failure_reaches_caller_witness :
  let req := buyVideo "0xnope" "v1" "USDC" in
  beforeVerification req env0 s0 = Some (USDC, video1) /\
  paymentTry USDC (hashIn req) (singlePriceUsd video1) env0 s0 =
    (Thrown (mkError "Transaction not found"),
     mkState (entities s0) [GetTransactionReceipt "0xnope"] (now s0) (ticks s0) (nextId s0)) /\
  verifyVideoPurchase req env0 s0 =
    (Returned (purchaseFailed ("Payment verification failed: " ++
                               message (mkError "Transaction not found"))),
     mkState (entities s0) [GetTransactionReceipt "0xnope"] (now s0) (ticks s0) (nextId s0)).
Proof.
  intros req.
  assert (H1 : beforeVerification req env0 s0 = Some (USDC, video1))
    by (vm_compute; reflexivity).
  assert (H2 : paymentTry USDC (hashIn req) (singlePriceUsd video1) env0 s0 =
    (Thrown (mkError "Transaction not found"),
     mkState (entities s0) [GetTransactionReceipt "0xnope"] (now s0) (ticks s0) (nextId s0)))
    by (vm_compute; reflexivity).
  destruct (@verifier_failure_reaches_caller req env0 s0 USDC video1 _ _ H1 H2) as [P _].
  split; [exact H1|]. split; [exact H2|exact P].
Defined.

(** C3, as amended.  The access check follows payment verification: for
    a request that gets as far as verification, whose principal already
    has an access record (the store answering), at least one RPC call is
    issued first; the answer is "User already has access to this video"
    if the payment verifies and the verifier's failure otherwise. *)
Theorem access_check_follows_verification req env s token video :
  beforeVerification req env s = Some (token, video) ->
  hasRecord (userIdIn req) (videoIdIn req) s = true ->
  storeFault env (CallQuery (accessQuery (userIdIn req) (videoIdIn req))) = false ->
  rpcLog (snd (verifyVideoPurchase req env s)) <> rpcLog s /\
  match verifyPayment token (hashIn req) (singlePriceUsd video) env s with
  | (Returned _, s1) => verifyVideoPurchase req env s = (Returned alreadyHasAccess, s1)
  | (Thrown e, s1) =>
      verifyVideoPurchase req env s = (Returned (purchaseFailed (message e)), s1)
  end.
Proof.
  intros Hb Hr Hq. destruct (purchase_when_recorded _ _ _ Hb Hr Hq) as [F R].
  split; [|exact R].
  destruct F as (_ & _ & _ & _ & calls & Hc & ->). apply app_neq_self. exact Hc.
Qed.

(** Witness of C3 as amended. *)
Lemma access_check_follows_verification_witness :
  let req := buyVideo "0xusdc" "v1" "USDC" in
  beforeVerification req env0 s1 = Some (USDC, video1) /\
  hasRecord (userIdIn req) (videoIdIn req) s1 = true /\
  storeFault env0 (CallQuery (accessQuery (userIdIn req) (videoIdIn req))) = false /\
  rpcLog (snd (verifyVideoPurchase req env0 s1)) <> rpcLog s1.
Proof.
  intros req.
  assert (H1 : beforeVerification req env0 s1 = Some (USDC, video1))
    by (vm_compute; reflexivity).
  assert (H2 : hasRecord (userIdIn req) (videoIdIn req) s1 = true)
    by (vm_compute; reflexivity).
  assert (H3 : storeFault env0 (CallQuery (accessQuery (userIdIn req) (videoIdIn req)))
               = false) by (vm_compute; reflexivity).
  destruct (@access_check_follows_verification req env0 s1 USDC video1 H1 H2 H3) as [P _].
  split; [exact H1|]. split; [exact H2|]. split; [exact H3|exact P].
Defined.

(** C3 as stated does not hold: the principal already has access to
    video [v1], yet a request with a hash unknown to the chain is answered
    with the verifier's failure, after an RPC call for the receipt. *)
Lemma verification_precedes_access_check :
  let req := buyVideo "0xnope" "v1" "USDC" in
  checkUserVideoAccess "u1" "v1" env0 s1 = (Returned true, s1) /\
  fst (verifyVideoPurchase req env0 s1) =
    Returned (purchaseFailed "Payment verification failed: Transaction not found") /\
  rpcLog (snd (verifyVideoPurchase req env0 s1)) =
    GetTransactionReceipt "0xnope" :: rpcLog s1.
Proof. vm_compute. repeat split. Qed.

End PurchaseFacts.

(* ------------------------------------------------------------------ *)
(** ** The amount comparison: claim C4                                 *)
(* ------------------------------------------------------------------ *)

Module AmountFacts.

Import Float64 JsString Units JsDate Runtime GolemDBService BaseService Controllers Properties Sample.
Import RoundingFacts UnitsFacts Steps.
Local Open Scope string_scope.
Local Open Scope Z_scope.

(** [parseFloat] rounds the decimal the text denotes. *)
Lemma parseFloat_decimal s q : decimalValue s = Some q -> parseFloat s = round64 q.
Proof.
  unfold decimalValue, parseFloat.
  destruct (strDecimalLiteral (skipWhiteSpace s)) as [[[neg|neg m e] r]|];
    try discriminate.
  intros H. inversion H. reflexivity.
Qed.

(** The comparison of the two doubles never rejects an amount that is
    enough, and what it rejects is short. *)
Lemma belowExpected_exact amountText expected a e :
  decimalValue amountText = Some a -> decimalValue expected = Some e ->
  (belowExpected amountText expected = true -> (a < e)%Q) /\
  ((e <= a)%Q -> belowExpected amountText expected = false).
Proof.
  intros Ha He. unfold belowExpected.
  rewrite (parseFloat_decimal _ Ha), (parseFloat_decimal _ He).
  split.
  - intros H. apply Qnot_le_lt. intros L.
    rewrite (round64_mono L) in H. discriminate.
  - apply round64_mono.
Qed.

Lemma belowExpected_NaN amountText expected :
  isNaN (parseFloat expected) = true -> belowExpected amountText expected = false.
Proof.
  unfold belowExpected. destruct (parseFloat expected); try discriminate.
  intros _. destruct (parseFloat amountText) as [|[|]|]; reflexivity.
Qed.

Lemma noFault_true env call : noFault env call = true -> rpcFault env call = None.
Proof. unfold noFault. destruct (rpcFault env call); [discriminate|reflexivity]. Qed.

(** The relational operator agrees with the order of the values. *)
Lemma flt_numberBelow a b : flt a b = true <-> numberBelow a b.
Proof.
  destruct a as [|[|]|u], b as [|[|]|v]; cbn; try tauto; try (split; [discriminate|tauto]).
  rewrite negb_true_iff. split.
  - intros H. apply Qnot_le_lt. intros L. apply Qle_bool_iff in L. congruence.
  - intros H. destruct (Qle_bool v u) eqn:E; [|reflexivity].
    apply Qle_bool_iff in E. exfalso. exact (Qlt_not_le _ _ H E).
Qed.

Lemma round64_not_NaN q : round64 q <> FNaN.
Proof.
  unfold round64, roundPos.
  destruct (Qnum q); [discriminate| |];
    destruct (Qle_bool _ _); discriminate.
Qed.

(** Two doubles between the amounts keep their roundings apart. *)
Lemma doubles_between a e d1 d2 :
  isDouble d1 -> isDouble d2 -> (a <= d1)%Q -> (d1 < d2)%Q -> (d2 <= e)%Q ->
  numberBelow (round64 a) (round64 e).
Proof.
  intros (x1 & R1 & E1) (x2 & R2 & E2) L1 L L2.
  pose proof (round64_mono L1) as M1. pose proof (round64_mono L2) as M2.
  rewrite R1 in M1. rewrite R2 in M2.
  pose proof (round64_not_NaN a) as Na. pose proof (round64_not_NaN e) as Ne.
  destruct (round64 a) as [|[|]|x], (round64 e) as [|[|]|y]; cbn in *;
    try congruence; try exact I.
  apply negb_false_iff, Qle_bool_iff in M1, M2.
  rewrite E1 in M1. rewrite E2 in M2.
  eapply Qle_lt_trans; [exact M1|]. eapply Qlt_le_trans; [exact L|exact M2].
Qed.

(** Both verifiers, once the checks before the comparison have passed:
    the amount has been formatted, and the comparison decides. *)
Lemma verifyWith_amount token env s hash expected recipient value dec ok :
  chainAmount token env hash recipient = Some (value, dec, ok) ->
  formatUnits value dec = Text (amount ok) /\
  fst (verifyWith token hash expected recipient env s) =
    if belowExpected (amount ok) expected
    then Thrown (insufficientPayment expected (amount ok))
    else Returned ok.
Proof.
  destruct token; cbn [chainAmount verifyWith].
  - unfold usdcAmount. intros H.
    destruct (noFault env (GetTransactionReceipt hash)) eqn:F1; [|discriminate].
    destruct (noFault env CallDecimals) eqn:F2; [|discriminate].
    apply noFault_true in F1, F2. cbn [andb] in H.
    destruct (receipts env hash) as [rc|] eqn:R; [|discriminate].
    destruct (statusIsOne rc) eqn:St; [|discriminate].
    destruct (find _ _) as [[[nm args]|]|] eqn:Fd; try discriminate.
    destruct (formatUnits (arg_value args) (usdcDecimals env)) as [text|msg] eqn:Ft;
      [|discriminate].
    inversion H; subst value dec ok. clear H. cbn [amount].
    split; [exact Ft|].
    unfold verifyUsdcPayment. rewrite wrapFailure_run.
    unfold usdcTry, getTransactionReceipt, rpc, bind at 1. rewrite F1, R.
    unfold usdcFromReceipt. rewrite St. cbn [negb].
    unfold bind at 1, asks. unfold bind at 1.
    destruct (transferEvents _ _ _) as [|ev evs] eqn:Ev; [discriminate|].
    rewrite Fd. unfold decimals, rpc, bind. rewrite F2, Ft.
    unfold insufficientPayment.
    destruct (belowExpected _ _); reflexivity.
  - unfold ethAmount. intros H.
    destruct (noFault env (GetTransaction hash)) eqn:F1; [|discriminate].
    destruct (noFault env (GetTransactionReceipt hash)) eqn:F2; [|discriminate].
    apply noFault_true in F1, F2. cbn [andb] in H.
    destruct (transactions env hash) as [tx|] eqn:T; [|discriminate].
    destruct (receipts env hash) as [rc|] eqn:R; [|discriminate].
    destruct (statusIsOne rc) eqn:St; [|discriminate].
    destruct (sameAddress _ _) eqn:Sa; [|discriminate].
    cbn [andb] in H.
    destruct (formatEther (tx_value tx)) as [text|msg] eqn:Ft; [|discriminate].
    inversion H; subst value dec ok. clear H. cbn [amount].
    split; [exact Ft|].
    unfold verifyEthPayment. rewrite wrapFailure_run.
    unfold ethTry, getTransaction, getTransactionReceipt, rpc, bind. rewrite F1, T, F2, R.
    rewrite St, Sa. cbn [negb]. rewrite Ft. unfold insufficientPayment.
    destruct (belowExpected _ _); reflexivity.
Qed.

(** A token that reports more than 80 decimals: the formatting of the
    amount fails, and the verification with it, whatever the amount. *)
Lemma too_many_decimals_fail env s receipt expected recipient ev :
  statusIsOne receipt = true ->
  find (directedTo recipient)
       (transferEvents (usdcAddress env) (parseLog env) (logs receipt)) = Some (Some ev) ->
  rpcFault env CallDecimals = None ->
  80 < usdcDecimals env ->
  fst (usdcFromReceipt receipt expected recipient env s) =
    Thrown (mkError "invalid FixedNumber decimals (too large)").
Proof.
  intros St Fd F D. unfold usdcFromReceipt. rewrite St. cbn [negb].
  unfold bind at 1, asks. unfold bind at 1.
  destruct (transferEvents _ _ _) as [|e evs] eqn:Ev; [discriminate|].
  rewrite Fd. destruct ev as [nm args].
  unfold decimals, rpc, bind. rewrite F.
  unfold formatUnits. replace (80 <? usdcDecimals env) with true
    by (symmetry; apply Z.ltb_lt; exact D).
  reflexivity.
Qed.

(** C4, as amended.  On both paths the amounts are compared as doubles.
    Once the checks before the comparison have passed and the amount has
    been formatted, its text denotes the chain amount exactly, and the
    verification fails with "Insufficient payment" exactly when the double
    nearest to the chain amount is below the double nearest to the
    expected amount; it returns the payment otherwise.  In exact terms:
    what is rejected is strictly less than the expected amount; an amount
    equal to or above the expected amount is always accepted; and an
    amount is always rejected when two distinct doubles lie between it
    and the expected amount.  (An amount below the expected one whose
    double is not below the double of the expected one is accepted.) *)
Theorem amount_compared_as_doubles token env s hash expected recipient value dec ok e :
  chainAmount token env hash recipient = Some (value, dec, ok) ->
  0 <= value -> 0 <= dec ->
  decimalValue expected = Some e ->
  let result := fst (verifyWith token hash expected recipient env s) in
  let rejected := Thrown (insufficientPayment expected (amount ok)) in
  let paid := (inject_Z value / inject_Z (10 ^ dec))%Q in
  exists got,
    decimalValue (amount ok) = Some got /\ (got == paid)%Q /\
    (result = rejected \/ result = Returned ok) /\
    (result = rejected <-> numberBelow (round64 got) (round64 e)) /\
    (result = rejected -> (paid < e)%Q) /\
    ((e <= paid)%Q -> result = Returned ok) /\
    (forall d1 d2, isDouble d1 -> isDouble d2 ->
       (paid <= d1)%Q -> (d1 < d2)%Q -> (d2 <= e)%Q -> result = rejected).
Proof.
  intros Hc Hv Hd He result rejected paid.
  destruct (verifyWith_amount token env s hash expected recipient Hc) as [Ft R].
  fold result in R.
  destruct (decimalValue_formatUnits Hv Hd Ft) as (got & Hg & Eq).
  exists got. split; [exact Hg|]. split; [exact Eq|].
  assert (B : belowExpected (amount ok) expected = true <->
              numberBelow (round64 got) (round64 e)).
  { unfold belowExpected.
    rewrite (parseFloat_decimal _ Hg), (parseFloat_decimal _ He).
    apply flt_numberBelow. }
  destruct (belowExpected_exact _ _ Hg He) as [Below Enough].
  assert (Rej : result = rejected <-> belowExpected (amount ok) expected = true).
  { rewrite R. destruct (belowExpected (amount ok) expected).
    - split; reflexivity.
    - split; discriminate. }
  split; [|split; [|split; [|split]]].
  - rewrite R. destruct (belowExpected (amount ok) expected); [left|right]; reflexivity.
  - rewrite Rej. exact B.
  - intros H. apply Rej in H. unfold paid. rewrite <- Eq. apply Below. exact H.
  - unfold paid. intros L. rewrite <- Eq in L. rewrite R, (Enough L). reflexivity.
  - unfold paid. intros d1 d2 D1 D2 L1 L L2. apply Rej, B.
    apply (@doubles_between got e d1 d2 D1 D2); [rewrite Eq; exact L1|exact L|exact L2].
Qed.

(** Witness of C4 as amended: exactly 5 ETH against a price of "5.00". *)
Lemma amount_compared_as_doubles_witness :
  let ok := mkPayment true "5.0" payer (mkDetails 102 "21000" (Some "7")) in
  let e := decimalQ false 500 (-2) in
  chainAmount ETH env0 "0xpaid" store = Some (5000000000000000000, 18, ok) /\
  decimalValue "5.00" = Some e /\
  (e <= inject_Z 5000000000000000000 / inject_Z (10 ^ 18))%Q /\
  fst (verifyWith ETH "0xpaid" "5.00" store env0 s0) = Returned ok.
Proof.
  intros ok e.
  assert (H1 : chainAmount ETH env0 "0xpaid" store = Some (5000000000000000000, 18, ok))
    by (vm_compute; reflexivity).
  assert (H2 : decimalValue "5.00" = Some e) by (vm_compute; reflexivity).
  assert (H3 : (e <= inject_Z 5000000000000000000 / inject_Z (10 ^ 18))%Q)
    by (vm_compute; discriminate).
  destruct (@amount_compared_as_doubles ETH env0 s0 "0xpaid" "5.00" store
              5000000000000000000 18 ok e H1 ltac:(lia) ltac:(lia) H2)
    as (got & _ & _ & _ & _ & _ & P & _).
  split; [exact H1|]. split; [exact H2|]. split; [exact H3|exact (P H3)].
Defined.

(** C4 as stated does not hold: 4.999999999999999999 ETH is strictly
    less than the expected 5.00, and the native-coin path accepts it (both
    texts parse to the double 5). *)
Lemma one_wei_short_is_accepted :
  let ok := mkPayment true "4.999999999999999999" payer (mkDetails 101 "21000" (Some "7")) in
  chainAmount ETH env0 "0xeth" store = Some (4999999999999999999, 18, ok) /\
  decimalValue "5.00" = Some (decimalQ false 500 (-2)) /\
  (inject_Z 4999999999999999999 / inject_Z (10 ^ 18) < decimalQ false 500 (-2))%Q /\
  fst (verifyEthPayment "0xeth" "5.00" store env0 s0) = Returned ok.
Proof. vm_compute. repeat split. Qed.

(** A rejection: 4.5 and 5 are doubles, the payment of 4.5 ETH is not
    above the first and the price "5.00" not below the second; the
    verification fails with "Insufficient payment". *)
Lemma short_payment_is_rejected :
  isDouble (9 # 2) /\ isDouble (5 # 1) /\
  (inject_Z 4500000000000000000 / inject_Z (10 ^ 18) <= 9 # 2)%Q /\
  (5 # 1 <= decimalQ false 500 (-2))%Q /\
  fst (verifyEthPayment "0xshort" "5.00" store env0 s0) =
    Thrown (insufficientPayment "5.00" "4.5").
Proof.
  split; [|split; [|split; [|split]]].
  - eexists. split; [vm_compute; reflexivity|]. vm_compute. reflexivity.
  - eexists. split; [vm_compute; reflexivity|]. vm_compute. reflexivity.
  - vm_compute. discriminate.
  - vm_compute. discriminate.
  - vm_compute. reflexivity.
Qed.

End AmountFacts.

(* ------------------------------------------------------------------ *)
(** ** The access check: claims C5, C9 and C10                         *)
(* ------------------------------------------------------------------ *)

Module AccessFacts.

Import Float64 JsString Units JsDate Runtime GolemDBService BaseService Controllers Properties Sample.
Import Steps.
Local Open Scope string_scope.
Local Open Scope Z_scope.






(** C9.  The access check fails closed: if the store rejects the query
    for the access records, [checkUserVideoAccess] returns [false]; it
    neither throws nor grants. *)
Theorem access_check_fails_closed userId videoId env s :
  storeFault env (CallQuery (accessQuery userId videoId)) = true ->
  checkUserVideoAccess userId videoId env s = (Returned false, s).
Proof.
  intros H. unfold checkUserVideoAccess, queryEntities, tryCatch, bind.
  rewrite H. reflexivity.
Qed.

(** Witness of C9: the store down, a purchased video. *)
Lemma access_check_fails_closed_witness :
  storeFault envDown (CallQuery (accessQuery "u1" "v1")) = true /\
  checkUserVideoAccess "u1" "v1" envDown s1 = (Returned false, s1).
Proof.
  assert (H : storeFault envDown (CallQuery (accessQuery "u1" "v1")) = true)
    by reflexivity.
  split; [exact H|]. exact (@access_check_fails_closed "u1" "v1" envDown s1 H).
Defined.

(** The subscription fallback fails closed as well. *)
Lemma subscription_lookup_fails_closed userId videoId env s :
  storeFault env (CallQuery (accessQuery userId videoId)) = false ->
  hasRecord userId videoId s = false ->
  storeFault env (CallQuery (walletQuery "")) = true ->
  checkUserVideoAccess userId videoId env s = (Returned false, s).
Proof.
  intros Hq Hr Hw. unfold checkUserVideoAccess, queryEntities, tryCatch, bind at 1.
  rewrite Hq. unfold hasRecord in Hr.
  destruct (filter _ _) as [|x l] eqn:F.
  - unfold findUserByWallet, queryEntities, tryCatch, bind. rewrite Hw. reflexivity.
  - exfalso. assert (In x (filter (matchesQuery (accessQuery userId videoId)) (entities s)))
      by (rewrite F; left; reflexivity).
    apply filter_In in H. destruct H as [H1 H2].
    assert (existsb (matchesQuery (accessQuery userId videoId)) (entities s) = true)
      by (apply existsb_exists; eauto).
    congruence.
Qed.

(** C10.  The result of [checkUserVideoAccess] does not depend on the
    subscription state of the requesting user: two stores that differ only
    in the subscription of the user's documents (filed under the user's
    wallet address, which is not empty) give the same answer, whether or
    not an access record exists; the fallback reads the user filed under
    the empty wallet address. *)
Theorem access_independent_of_own_subscription userId videoId env s s' :
  differOnlyInSubscription userId s s' ->
  fst (checkUserVideoAccess userId videoId env s')
    = fst (checkUserVideoAccess userId videoId env s).
Proof.
  intros (R & _ & Hn & _).
  rewrite !checkUserVideoAccess_answer, !findUserByWallet_answer.
  rewrite (related_filter_wallet R).
  pose proof (related_filter_length (accessQuery userId videoId) R) as L.
  destruct (storeFault env (CallQuery (accessQuery userId videoId))); [reflexivity|].
  destruct (filter (matchesQuery (accessQuery userId videoId)) (entities s')) as [|x' l'];
    destruct (filter (matchesQuery (accessQuery userId videoId)) (entities s)) as [|x l];
    try discriminate L; [|reflexivity].
  destruct (storeFault env (CallQuery (walletQuery "")));
    [apply subscriptionCurrent_clock; exact Hn|].
  destruct (filter (matchesQuery (walletQuery "")) (entities s)) as [|e r];
    [apply subscriptionCurrent_clock; exact Hn|].
  destruct (data e); apply subscriptionCurrent_clock; exact Hn.
Qed.

(** Witness of C10: the same store with and without an active
    subscription on the user. *)
Lemma access_independent_of_own_subscription_witness :
  differOnlyInSubscription "u1" s0 sSubscribed0 /\
  fst (checkUserVideoAccess "u1" "v1" env0 sSubscribed0)
    = fst (checkUserVideoAccess "u1" "v1" env0 s0).
Proof.
  assert (H : differOnlyInSubscription "u1" s0 sSubscribed0).
  { unfold differOnlyInSubscription. split; [|repeat split].
    constructor.
    - right. exists alice, (subscription subscribed).
      split; [reflexivity|]. split; [reflexivity|]. split; reflexivity.
    - repeat (constructor; [left; reflexivity|]). constructor. }
  split; [exact H|].
  exact (@access_independent_of_own_subscription "u1" "v1" env0 s0 sSubscribed0 H).
Defined.

End AccessFacts.

(* ------------------------------------------------------------------ *)
(** ** Decoding the transfer logs: claim C8                            *)
(* ------------------------------------------------------------------ *)

Module LogFacts.

Import Float64 JsString Units JsDate Runtime GolemDBService BaseService Controllers Properties Sample.
Import Steps.
Local Open Scope string_scope.
Local Open Scope Z_scope.

Lemma transferEvents_app usdc parse l1 l2 :
  transferEvents usdc parse (l1 ++ l2)%list =
    (transferEvents usdc parse l1 ++ transferEvents usdc parse l2)%list.
Proof. unfold transferEvents. rewrite filter_app, map_app, filter_app. reflexivity. Qed.

(** The emitting address is compared in lower case. *)
Lemma fromToken_address usdc log :
  fromToken usdc log = true <-> toLowerCase (log_address log) = toLowerCase usdc.
Proof. unfold fromToken. apply String.eqb_eq. Qed.

Lemma transferEvents_dropped usdc parse bad :
  dropped usdc parse bad = true -> transferEvents usdc parse [bad] = [].
Proof.
  unfold dropped, transferEvents. cbn [filter map].
  destruct (fromToken usdc bad); cbn [negb orb filter map]; [|reflexivity].
  destruct (isTransfer (parseOrNull parse bad)); [discriminate|reflexivity].
Qed.

(** An entry of another address, or one that does not parse as a
    Transfer, is dropped. *)
Lemma dropped_cases usdc parse bad :
  toLowerCase (log_address bad) <> toLowerCase usdc \/
  parse bad = ParseThrows \/ parse bad = ParseNull \/
  (exists name args, parse bad = Parsed name args /\ name <> "Transfer") ->
  dropped usdc parse bad = true.
Proof.
  unfold dropped. intros [H|H].
  - destruct (fromToken usdc bad) eqn:F; [|reflexivity].
    apply fromToken_address in F. contradiction.
  - apply orb_true_iff. right. unfold parseOrNull.
    destruct H as [->|[->|(name & args & -> & N)]]; [reflexivity|reflexivity|].
    cbn [isTransfer]. apply negb_true_iff, String.eqb_neq. exact N.
Qed.

(** Every decoded event comes from a log entry of the token contract that
    parses as a Transfer. *)
Lemma transferEvents_origin usdc parse receiptLogs ev :
  In ev (transferEvents usdc parse receiptLogs) ->
  exists log args,
    In log receiptLogs /\ fromToken usdc log = true /\
    parse log = Parsed "Transfer" args /\ ev = Some ("Transfer", args).
Proof.
  unfold transferEvents. intros H. apply filter_In in H. destruct H as [H T].
  apply in_map_iff in H. destruct H as (log & E & H).
  apply filter_In in H. destruct H as [H F].
  subst ev. unfold parseOrNull in *.
  destruct (parse log) as [| |name args] eqn:P; try discriminate.
  cbn [isTransfer] in T. apply String.eqb_eq in T. subst name.
  exists log, args. auto.
Qed.

(** And every such entry gives an event. *)
Lemma transferEvents_complete usdc parse receiptLogs log args :
  In log receiptLogs -> fromToken usdc log = true ->
  parse log = Parsed "Transfer" args ->
  In (Some ("Transfer", args)) (transferEvents usdc parse receiptLogs).
Proof.
  intros H F P. unfold transferEvents. apply filter_In. split; [|reflexivity].
  apply in_map_iff. exists log. split.
  - unfold parseOrNull. rewrite P. reflexivity.
  - apply filter_In. split; assumption.
Qed.

(** C8.  The decoder considers the log entries whose emitting address is
    the address of the token contract, both in lower case, and no others:
    the decoded events are exactly the Transfer events of those entries.
    An entry of another address, or one on which [parseLog] raises,
    returns [null] or gives another event, leaves no trace: the decoded
    events are those of the receipt without it, and the verification of
    the receipt ends as it does without the entry. *)
Theorem unparsed_logs_dropped env s receipt before bad after expected recipient :
  logs receipt = (before ++ bad :: after)%list ->
  toLowerCase (log_address bad) <> toLowerCase (usdcAddress env) \/
  parseLog env bad = ParseThrows \/ parseLog env bad = ParseNull \/
  (exists name args, parseLog env bad = Parsed name args /\ name <> "Transfer") ->
  transferEvents (usdcAddress env) (parseLog env) (logs receipt) =
    transferEvents (usdcAddress env) (parseLog env) (before ++ after)%list /\
  (forall ev,
     In ev (transferEvents (usdcAddress env) (parseLog env) (logs receipt)) <->
     exists log args,
       In log (before ++ after)%list /\
       toLowerCase (log_address log) = toLowerCase (usdcAddress env) /\
       parseLog env log = Parsed "Transfer" args /\ ev = Some ("Transfer", args)) /\
  usdcFromReceipt receipt expected recipient env s =
    usdcFromReceipt (withLogs (before ++ after)%list receipt) expected recipient env s.
Proof.
  intros Hl Hb. pose proof (dropped_cases _ _ _ Hb) as Hd.
  assert (E : transferEvents (usdcAddress env) (parseLog env) (logs receipt) =
              transferEvents (usdcAddress env) (parseLog env) (before ++ after)%list).
  { rewrite Hl. change (bad :: after) with ([bad] ++ after)%list.
    rewrite !transferEvents_app, (transferEvents_dropped _ _ _ Hd). reflexivity. }
  split; [exact E|]. split.
  - intros ev. rewrite E. split.
    + intros H. apply transferEvents_origin in H.
      destruct H as (log & args & H1 & H2 & H3 & H4).
      exists log, args. apply fromToken_address in H2. auto.
    + intros (log & args & H1 & H2 & H3 & ->).
      apply transferEvents_complete with (log := log); [exact H1| |exact H3].
      apply fromToken_address. exact H2.
  - unfold usdcFromReceipt.
    change (statusIsOne (withLogs (before ++ after)%list receipt)) with (statusIsOne receipt).
    change (logs (withLogs (before ++ after)%list receipt)) with (before ++ after)%list.
    change (detailsOf (withLogs (before ++ after)%list receipt)) with (detailsOf receipt).
    destruct (negb (statusIsOne receipt)); [reflexivity|].
    unfold bind, asks. rewrite E. reflexivity.
Qed.

(** Witness of C8: a receipt with a transfer emitted by another contract
    before a malformed entry and the transfer of the token. *)
Lemma unparsed_logs_dropped_witness :
  let receipt := withLogs [foreignLog; malformedLog; transferLog] usdcReceipt in
  logs receipt = ([] ++ foreignLog :: [malformedLog; transferLog])%list /\
  toLowerCase (log_address foreignLog) <> toLowerCase (usdcAddress env0) /\
  parseLog env0 foreignLog = Parsed "Transfer" (mkArgs payer store 5000000) /\
  transferEvents (usdcAddress env0) (parseLog env0) (logs receipt) =
    transferEvents (usdcAddress env0) (parseLog env0)
                   ([] ++ [malformedLog; transferLog])%list.
Proof.
  intros receipt.
  assert (H1 : logs receipt = ([] ++ foreignLog :: [malformedLog; transferLog])%list)
    by reflexivity.
  assert (H2 : toLowerCase (log_address foreignLog) <> toLowerCase (usdcAddress env0))
    by (vm_compute; discriminate).
  destruct (@unparsed_logs_dropped env0 s0 receipt [] foreignLog
              [malformedLog; transferLog] "5.00" store H1 (or_introl H2)) as [P _].
  split; [exact H1|]. split; [exact H2|]. split; [reflexivity|exact P].
Defined.

(** A transfer to the store emitted by another contract is no payment:
    the receipt that holds nothing else is refused. *)
Lemma foreign_transfer_is_no_payment :
  logs foreignReceipt = [foreignLog] /\
  parseLog env0 foreignLog = Parsed "Transfer" (mkArgs payer store 5000000) /\
  fst (verifyUsdcPayment "0xforeign" "5.00" store env0 s0) =
    Thrown (mkError "Payment verification failed: No USDC transfer found in transaction").
Proof. vm_compute. repeat split. Qed.

End LogFacts.

(* ------------------------------------------------------------------ *)
(** ** Subscriptions: claims C6 and C7                                 *)
(* ------------------------------------------------------------------ *)

Module SubscriptionFacts.

Import Float64 JsString Units JsDate Runtime GolemDBService BaseService Controllers Properties Sample.
Import Steps.
Local Open Scope string_scope.
Local Open Scope Z_scope.

(** C6.  No subscription purchase succeeds: whatever the request and the
    world, [verifySubscriptionPurchase] answers with a status other than
    200 and leaves the store as it was.  After the payment has verified,
    the handler hands the subscription to [updateUser], which raises on
    [updatedUser.createdAt.getTime()], [createdAt] being text in a
    document read back from the store, or returns [null] when it finds
    no user. *)
Theorem subscription_purchase_never_stored req env s :
  entities (snd (verifySubscriptionPurchase req env s)) = entities s /\
  exists resp, fst (verifySubscriptionPurchase req env s) = Returned resp /\
               statusCode resp <> 200.
Proof.
  enough (H : preserves refused (verifySubscriptionPurchase req))
    by (destruct (H env s) as [R E]; split; assumption).
  unfold verifySubscriptionPurchase. apply preserves_handler;
    [|intros e; do 2 eexists; split; [|reflexivity]; discriminate].
  destruct (negb (truthy (userIdOf req))); [refuse|].
  destruct (_ || _); [refuse|].
  destruct (tokenOf _) as [token|]; [|refuse].
  eapply preserves_bind; [apply preserves_findUserByWallet| |intros e [a H]; discriminate].
  intros [user|] _; [|refuse].
  destruct (negb (isApproved (whitelistStatus user))); [refuse|].
  eapply preserves_bind;
    [apply preserves_getSubscriptionTierById| |intros e [a H]; discriminate].
  intros [tier|] _; [|refuse].
  destruct (negb (tier_isActive tier)); [refuse|].
  eapply preserves_bind; [apply preserves_verifyPayment| |intros e _; exact I].
  intros p _. destruct (negb (success p)); [refuse|].
  eapply preserves_bind; [apply preserves_newDate| |intros e [a H]; discriminate].
  intros startDate _.
  eapply preserves_bind; [apply preserves_newDate| |intros e [a H]; discriminate].
  intros endDate0 _.
  eapply preserves_bind; [apply preserves_asks| |intros e [a H]; discriminate].
  intros zone _.
  eapply preserves_bind; [apply preserves_newDate| |intros e [a H]; discriminate].
  intros stamp _.
  eapply preserves_bind; [apply preserves_updateUser| |intros e _; exact I].
  intros [u|] H; [exfalso; apply (H u); reflexivity|refuse].
Qed.

(** C6 at a request that should succeed: a whitelisted user, an active
    tier, a transfer of 5 ETH to the store that verifies. *)
Lemma subscription_purchase_fails_on_valid_payment :
  let req := buySubscription "0xpaid" "t1" "ETH" in
  fst (verifyPayment ETH "0xpaid" (priceUsd monthly) env0 s0)
    = Returned (mkPayment true "5.0" payer (mkDetails 102 "21000" (Some "7"))) /\
  fst (verifySubscriptionPurchase req env0 s0)
    = Returned (mkResponse 500
        (ErrorBody "Subscription purchase failed: updatedUser.createdAt.getTime is not a function")) /\
  entities (snd (verifySubscriptionPurchase req env0 s0)) = entities s0.
Proof. vm_compute. repeat split. Qed.

(** C7.  No cancellation is stored: whatever the request and the world,
    [cancelSubscription] answers with a status other than 200 and leaves
    the store as it was (the same defect of [updateUser]). *)
Theorem cancellation_never_stored req env s :
  entities (snd (cancelSubscription req env s)) = entities s /\
  exists resp, fst (cancelSubscription req env s) = Returned resp /\
               statusCode resp <> 200.
Proof.
  enough (H : preserves refused (cancelSubscription req))
    by (destruct (H env s) as [R E]; split; assumption).
  unfold cancelSubscription. apply preserves_handler;
    [|intros e; do 2 eexists; split; [|reflexivity]; discriminate].
  destruct (negb (truthy (userIdOf req))); [refuse|].
  eapply preserves_bind; [apply preserves_findUserByWallet| |intros e [a H]; discriminate].
  intros [user|] _; [|refuse].
  destruct (subscription user) as [sub|]; [|refuse].
  destruct (negb (isActive sub)); [refuse|].
  eapply preserves_bind; [apply preserves_newDate| |intros e [a H]; discriminate].
  intros stamp _.
  eapply preserves_bind; [apply preserves_updateUser| |intros e _; exact I].
  intros [u|] H; [exfalso; apply (H u); reflexivity|refuse].
Qed.

(** C7 at a principal whose stored subscription is active. *)
Lemma cancellation_fails_for_active_subscription :
  fst (findUserByWallet payer env0 sSubscribed) = Returned (Some (decodeUser subscribed)) /\
  fst (cancelSubscription cancel env0 sSubscribed)
    = Returned (mkResponse 500 (ErrorBody "Failed to cancel subscription")) /\
  entities (snd (cancelSubscription cancel env0 sSubscribed)) = entities sSubscribed.
Proof. vm_compute. repeat split. Qed.

(** The answers of [cancelSubscription] for a principal that is found:
    "No active subscription found" exactly when there is no subscription
    or it is inactive, and the failure of the update otherwise. *)
Lemma cancel_answers req env s user :
  truthy (userIdOf req) = true ->
  findUserByWallet (walletOf req) env s = (Returned (Some user), s) ->
  fst (cancelSubscription req env s) =
    match subscription user with
    | Some sub =>
        if isActive sub
        then Returned (mkResponse 500 (ErrorBody "Failed to cancel subscription"))
        else Returned (mkResponse 400 (ErrorBody "No active subscription found"))
    | None => Returned (mkResponse 400 (ErrorBody "No active subscription found"))
    end.
Proof.
  intros Hu Hf. unfold cancelSubscription. rewrite Hu. cbn [negb].
  erewrite tryCatch_bind_returned by exact Hf. cbv beta iota.
  destruct (subscription user) as [sub|]; [|reflexivity].
  destruct (isActive sub); cbn [negb]; [|reflexivity].
  erewrite tryCatch_bind_returned by reflexivity. cbv beta.
  apply tryCatch_updateUser; reflexivity.
Qed.

(** What [updateUser] would write: the subscription handed to it replaces
    the one of the stored user. *)
Lemma mergeUser_replaces_subscription existingUser w sub u l t :
  subscription (mergeUser existingUser (mkUpdates w (Some sub) u l) t) = Some sub.
Proof. reflexivity. Qed.

End SubscriptionFacts.

(* ------------------------------------------------------------------ *)
(** ** The video purchase, from request to playback                    *)
(* ------------------------------------------------------------------ *)

Module PurchaseFlowFacts.

Import Float64 JsString Units JsDate Runtime GolemDBService BaseService Controllers Properties Sample.
Import Notions Fixtures Steps.
Local Open Scope string_scope.
Local Open Scope Z_scope.

(** The access check reads the entities and the clock, nothing else. *)
Lemma checkUserVideoAccess_reads u v env s s' :
  entities s' = entities s -> now s' = now s ->
  fst (checkUserVideoAccess u v env s') = fst (checkUserVideoAccess u v env s).
Proof.
  intros He Hn. rewrite !checkUserVideoAccess_answer, !findUserByWallet_answer, He.
  destruct (storeFault env (CallQuery (accessQuery u v))); [reflexivity|].
  destruct (filter (matchesQuery (accessQuery u v)) (entities s)); [|reflexivity].
  destruct (storeFault env (CallQuery (walletQuery ""))).
  - apply subscriptionCurrent_clock. exact Hn.
  - destruct (filter _ _) as [|e l]; [apply subscriptionCurrent_clock; exact Hn|].
    destruct (data e); apply subscriptionCurrent_clock; exact Hn.
Qed.

(** Granting: one entity is filed, unless the store rejects it. *)
Lemma grantPurchase_run userId videoId hash token tokenText p env s :
  if storeFault env CallCreate then
    exists e s', grantPurchase userId videoId hash token tokenText p env s = (Thrown e, s')
                 /\ entities s' = entities s
  else
    exists id purchased stamp s',
      grantPurchase userId videoId hash token tokenText p env s =
        (Returned (mkResponse 200 (PurchaseBody id (amount p) tokenText
                                                (transactionDetails p))), s')
      /\ entities s' =
           (entities s ++ [purchaseEntity id userId videoId hash token (amount p)
                                          purchased stamp])%list.
Proof.
  unfold grantPurchase, recordUserVideoAccess, createEntities, generateId, newDate,
    getTime, orNow, json, purchaseEntity.
  unfold_monad. cbn.
  destruct (now s =? 0); cbn; destruct (storeFault env CallCreate); cbn.
  all: try (do 2 eexists; split; reflexivity).
  all: try (do 4 eexists; split; reflexivity).
Qed.

Lemma verifyVideoPurchase_cases req env s :
  match beforeVerification req env s with
  | None =>
      exists resp, verifyVideoPurchase req env s = (Returned resp, s) /\
                   statusCode resp <> 200
  | Some (token, video) =>
      match fst (verifyPayment token (hashIn req) (singlePriceUsd video) env s) with
      | Thrown e =>
          exists s', verifyVideoPurchase req env s =
                       (Returned (purchaseFailed (message e)), s') /\
                     entities s' = entities s
      | Returned p =>
          match fst (checkUserVideoAccess (userIdIn req) (videoIdIn req) env s) with
          | Returned true =>
              exists s', verifyVideoPurchase req env s = (Returned alreadyHasAccess, s') /\
                         entities s' = entities s
          | Returned false =>
              if storeFault env CallCreate then
                exists e s', verifyVideoPurchase req env s =
                               (Returned (purchaseFailed (message e)), s') /\
                             entities s' = entities s
              else
                exists id purchased stamp s',
                  verifyVideoPurchase req env s =
                    (Returned (mkResponse 200
                       (PurchaseBody id (amount p) (orEmpty (body_paymentToken req))
                                     (transactionDetails p))), s') /\
                  entities s' =
                    (entities s ++
                     [purchaseEntity id (userIdIn req) (videoIdIn req) (hashIn req) token
                                     (amount p) purchased stamp])%list
          | Thrown _ => False
          end
      end
  end.
Proof.
  destruct (beforeVerification req env s) as [[token video]|] eqn:Hb.
  - rewrite (purchase_from_verification _ _ _ Hb).
    destruct (verifyPayment_frame token (hashIn req) (singlePriceUsd video) env s) as [F _].
    destruct (verifyPayment token (hashIn req) (singlePriceUsd video) env s) as [[p|e] s1];
      cbn [fst snd] in *.
    + destruct F as (He & Hn & _).
      rewrite <- (checkUserVideoAccess_reads (userIdIn req) (videoIdIn req) env s s1 He Hn).
      destruct (checkUserVideoAccess_total (userIdIn req) (videoIdIn req) env s1)
        as (b & s2 & Hc & He2 & _).
      rewrite Hc. cbn [fst]. destruct b.
      * exists s2. split; [reflexivity|congruence].
      * pose proof (grantPurchase_run (userIdIn req) (videoIdIn req) (hashIn req) token
                      (orEmpty (body_paymentToken req)) p env s2) as G.
        unfold tryCatch. destruct (storeFault env CallCreate).
        -- destruct G as (e & s' & -> & He3). exists e, s'.
           split; [reflexivity|congruence].
        -- destruct G as (id & purchased & stamp & s' & -> & He3).
           exists id, purchased, stamp, s'. split; [reflexivity|].
           rewrite He3, He2, He. reflexivity.
    + exists s1. split; [reflexivity|apply F].
  - destruct (purchase_rejected_early _ _ _ Hb) as (resp & H & Hc & _).
    exists resp. split; assumption.
Qed.

(** X1.  [verifyVideoPurchase] answers 200 exactly when the request
    passes the checks before verification, the payment verifies, the
    access check answers [false] and the store accepts the new entity. *)
Theorem video_purchase_succeeds_iff req env s :
  answered200 (fst (verifyVideoPurchase req env s)) <->
  exists token video,
    beforeVerification req env s = Some (token, video) /\
    returns (fst (verifyPayment token (hashIn req) (singlePriceUsd video) env s)) /\
    fst (checkUserVideoAccess (userIdIn req) (videoIdIn req) env s) = Returned false /\
    storeFault env CallCreate = false.
Proof.
  pose proof (verifyVideoPurchase_cases req env s) as C. unfold answered200, returns.
  destruct (beforeVerification req env s) as [[token video]|].
  - destruct (fst (verifyPayment token (hashIn req) (singlePriceUsd video) env s))
      as [p|e] eqn:Ep.
    + destruct (fst (checkUserVideoAccess (userIdIn req) (videoIdIn req) env s))
        as [[|]|e] eqn:Ea; [| |contradiction].
      * destruct C as (s' & -> & _). split.
        -- intros (resp & E & H). inversion E; subst resp. discriminate H.
        -- intros (tk & v & _ & _ & E & _). discriminate E.
      * destruct (storeFault env CallCreate) eqn:Ec.
        -- destruct C as (e & s' & -> & _). split.
           ++ intros (resp & E & H). inversion E; subst resp. discriminate H.
           ++ intros (tk & v & _ & _ & _ & E). discriminate E.
        -- destruct C as (id & purchased & stamp & s' & -> & _). split.
           ++ intros _. exists token, video.
              split; [reflexivity|]. split; [rewrite Ep; eexists; reflexivity|].
              split; reflexivity.
           ++ intros _. eexists. split; reflexivity.
    + destruct C as (s' & -> & _). split.
      * intros (resp & E & H). inversion E; subst resp. discriminate H.
      * intros (tk & v & E & (p & Hp) & _). inversion E; subst.
        rewrite Ep in Hp. discriminate Hp.
  - destruct C as (resp & -> & Hc). split.
    + intros (r & E & H). inversion E; subst. contradiction.
    + intros (tk & v & E & _). discriminate E.
Qed.

(** X2.  A video purchase that answers 200 files exactly one entity
    after those already stored: the access record of the principal and the
    video, with the hash of the request, the token the request names and
    the amount the verifier returned for that token, hash and the price of
    the video; its id and that amount are in the answer.  Any other
    answer leaves the entities as they were. *)
Theorem video_purchase_files_one_record req env s :
  (answered200 (fst (verifyVideoPurchase req env s)) ->
   exists token video p id purchased stamp,
     tokenOf (orEmpty (body_paymentToken req)) = Some token /\
     fst (getVideoById (videoIdIn req) env s) = Returned (Some video) /\
     fst (verifyPayment token (hashIn req) (singlePriceUsd video) env s) = Returned p /\
     fst (verifyVideoPurchase req env s) =
       Returned (mkResponse 200
                   (PurchaseBody id (amount p) (orEmpty (body_paymentToken req))
                                 (transactionDetails p))) /\
     entities (snd (verifyVideoPurchase req env s)) =
       (entities s ++
        [purchaseEntity id (userIdIn req) (videoIdIn req) (hashIn req) token (amount p)
                        purchased stamp])%list) /\
  (~ answered200 (fst (verifyVideoPurchase req env s)) ->
   entities (snd (verifyVideoPurchase req env s)) = entities s).
Proof.
  pose proof (verifyVideoPurchase_cases req env s) as C. unfold answered200.
  destruct (beforeVerification req env s) as [[token video]|] eqn:Hb.
  - destruct (beforeVerification_inv _ _ _ Hb) as (_ & _ & _ & _ & Ht & _ & Hv & _).
    destruct (fst (verifyPayment token (hashIn req) (singlePriceUsd video) env s))
      as [p|e] eqn:Hp.
    + destruct (fst (checkUserVideoAccess (userIdIn req) (videoIdIn req) env s))
        as [[|]|e]; [| |contradiction].
      * destruct C as (s' & -> & He). split; [|intros _; exact He].
        intros (resp & E & H). inversion E; subst resp. discriminate H.
      * destruct (storeFault env CallCreate).
        -- destruct C as (e & s' & -> & He). split; [|intros _; exact He].
           intros (resp & E & H). inversion E; subst resp. discriminate H.
        -- destruct C as (id & purchased & stamp & s' & -> & He). split.
           ++ intros _. exists token, video, p, id, purchased, stamp.
              rewrite Hv. split; [exact Ht|]. split; [reflexivity|].
              split; [exact Hp|]. split; [reflexivity|exact He].
           ++ intros N. exfalso. apply N. eexists. split; reflexivity.
    + destruct C as (s' & -> & He). split; [|intros _; exact He].
      intros (resp & E & H). inversion E; subst resp. discriminate H.
  - destruct C as (resp & -> & Hc). split; [|reflexivity].
    intros (r & E & H). inversion E; subst. contradiction.
Qed.


Lemma getVideoById_answer id env s :
  getVideoById id env s =
    (if storeFault env (CallQuery [("type", "video"); ("id", id)]) then Returned None
     else match filter (matchesQuery [("type", "video"); ("id", id)]) (entities s) with
          | e :: _ => match data e with
                      | PVideo v => Returned (Some v)
                      | _ => Returned None
                      end
          | [] => Returned None
          end, s).
Proof.
  unfold getVideoById, queryEntities, decodeVideoData, tryCatch, bind, ret, throw.
  destruct (storeFault env _); [reflexivity|].
  destruct (filter _ _) as [|e l]; [reflexivity|].
  destruct (data e); reflexivity.
Qed.

(** A video that is found stays found when the store grows. *)
Lemma getVideoById_grows id env s s' more v :
  entities s' = (entities s ++ more)%list ->
  getVideoById id env s = (Returned (Some v), s) ->
  getVideoById id env s' = (Returned (Some v), s').
Proof.
  intros He. rewrite !getVideoById_answer, He, filter_app.
  destruct (storeFault env _); [discriminate|].
  destruct (filter _ (entities s)) as [|e l]; [discriminate|].
  cbn [app]. intros H. inversion H as [E]. rewrite E. reflexivity.
Qed.

Lemma purchaseEntity_matches id userId videoId hash token paid purchased stamp :
  matchesQuery (accessQuery userId videoId)
    (purchaseEntity id userId videoId hash token paid purchased stamp) = true.
Proof.
  unfold matchesQuery, accessQuery, purchaseEntity, annotationEqb.
  cbn [forallb existsb stringAnnotations fst snd].
  rewrite !String.eqb_refl. cbn. rewrite ?orb_true_r. reflexivity.
Qed.

Lemma success_grows req env s :
  answered200 (fst (verifyVideoPurchase req env s)) ->
  exists id token paid purchased stamp,
    entities (snd (verifyVideoPurchase req env s)) =
      (entities s ++
       [purchaseEntity id (userIdIn req) (videoIdIn req) (hashIn req) token paid
                       purchased stamp])%list.
Proof.
  pose proof (verifyVideoPurchase_cases req env s) as C. unfold answered200.
  intros (resp & E & H).
  destruct (beforeVerification req env s) as [[token video]|].
  - destruct (fst (verifyPayment token (hashIn req) (singlePriceUsd video) env s))
      as [p|e].
    + destruct (fst (checkUserVideoAccess (userIdIn req) (videoIdIn req) env s))
        as [[|]|e]; [| |contradiction].
      * destruct C as (s' & C & _). rewrite C in E. inversion E; subst resp.
        discriminate H.
      * destruct (storeFault env CallCreate).
        -- destruct C as (e & s' & C & _). rewrite C in E. inversion E; subst resp.
           discriminate H.
        -- destruct C as (id & purchased & stamp & s' & -> & He).
           exists id, token, (amount p), purchased, stamp. exact He.
    + destruct C as (s' & C & _). rewrite C in E. inversion E; subst resp.
      discriminate H.
  - destruct C as (r & C & Hc). rewrite C in E. inversion E; subst. contradiction.
Qed.

(** X3.  Purchase, then playback: after a video purchase answered 200,
    the content request of the same principal for the same video answers
    200 with the URL of the video, provided the store answers the access
    query. *)
Theorem purchased_video_is_served req env s token video :
  beforeVerification req env s = Some (token, video) ->
  video_id video = videoIdIn req ->
  storeFault env (CallQuery (accessQuery (userIdIn req) (videoIdIn req))) = false ->
  answered200 (fst (verifyVideoPurchase req env s)) ->
  exists expires,
    fst (getVideoContent (contentRequest req) env (snd (verifyVideoPurchase req env s))) =
      Returned (mkResponse 200 (ContentBody (videoUrl video) expires)).
Proof.
  intros Hb Hid Hq H200.
  destruct (@success_grows req env s H200) as (id & tk & paid & purchased & stamp & He).
  set (s' := snd (verifyVideoPurchase req env s)) in *.
  destruct (beforeVerification_inv _ _ _ Hb) as (H1 & _ & H3 & _ & _ & _ & H8 & H9).
  unfold getVideoContent, contentRequest, tryCatch. cbn [params_id req_user].
  rewrite H3. cbn [negb].
  unfold userIdIn in *. unfold userIdOf in *.
  destruct (req_user req) as [user|]; [|discriminate H1].
  cbn [option_map orEmpty] in *.
  fold (videoIdIn req).
  erewrite bind_returned by (eapply getVideoById_grows; [exact He|exact H8]).
  cbv beta iota. rewrite H9. cbn [negb]. rewrite Hid.
  assert (Hr : hasRecord (user_id user) (videoIdIn req) s' = true).
  { unfold hasRecord. rewrite He, existsb_app. apply orb_true_iff. right.
    cbn [existsb]. rewrite purchaseEntity_matches. reflexivity. }
  erewrite bind_returned by (apply checkUserVideoAccess_record; [exact Hq|exact Hr]).
  cbn [negb]. unfold newDate, bind, json, ret. cbn [fst]. eexists. reflexivity.
Qed.

(** Witness of X3: the sample purchase of video v1 in USDC, then its content. *)
Lemma purchased_video_is_served_witness :
  beforeVerification (buyVideo "0xusdc" "v1" "USDC") env0 s0 = Some (USDC, video1) /\
  answered200 (fst (verifyVideoPurchase (buyVideo "0xusdc" "v1" "USDC") env0 s0)) /\
  exists expires,
    fst (getVideoContent (contentRequest (buyVideo "0xusdc" "v1" "USDC")) env0
           (snd (verifyVideoPurchase (buyVideo "0xusdc" "v1" "USDC") env0 s0))) =
      Returned (mkResponse 200 (ContentBody (videoUrl video1) expires)).
Proof.
  assert (H1 : beforeVerification (buyVideo "0xusdc" "v1" "USDC") env0 s0
               = Some (USDC, video1)) by (vm_compute; reflexivity).
  assert (H2 : video_id video1 = videoIdIn (buyVideo "0xusdc" "v1" "USDC"))
    by reflexivity.
  assert (H3 : storeFault env0
                 (CallQuery (accessQuery (userIdIn (buyVideo "0xusdc" "v1" "USDC"))
                                         (videoIdIn (buyVideo "0xusdc" "v1" "USDC"))))
               = false) by reflexivity.
  assert (H4 : answered200
                 (fst (verifyVideoPurchase (buyVideo "0xusdc" "v1" "USDC") env0 s0))).
  { exists (mkResponse 200 (PurchaseBody "id-0" "5.0" "USDC"
                              (mkDetails 100 "21000" (Some "7")))).
    split; vm_compute; reflexivity. }
  pose proof (@purchased_video_is_served (buyVideo "0xusdc" "v1" "USDC") env0 s0 USDC
                video1 H1 H2 H3 H4) as P.
  split; [exact H1|]. split; [exact H4|exact P].
Defined.

(** X4.  When the store rejects the access query, the access check of
    the purchase answers [false]: a verified payment is then recorded and
    answered with 200, whether or not the principal already holds a record
    for the video. *)
Theorem failed_access_query_grants_again req env s token video :
  beforeVerification req env s = Some (token, video) ->
  returns (fst (verifyPayment token (hashIn req) (singlePriceUsd video) env s)) ->
  storeFault env (CallQuery (accessQuery (userIdIn req) (videoIdIn req))) = true ->
  storeFault env CallCreate = false ->
  answered200 (fst (verifyVideoPurchase req env s)) /\
  exists id paid purchased stamp,
    entities (snd (verifyVideoPurchase req env s)) =
      (entities s ++
       [purchaseEntity id (userIdIn req) (videoIdIn req) (hashIn req) token paid
                       purchased stamp])%list.
Proof.
  intros Hb [p Hp] Hq Hc.
  pose proof (verifyVideoPurchase_cases req env s) as C.
  rewrite Hb, Hp, checkUserVideoAccess_answer, Hq, Hc in C.
  destruct C as (id & purchased & stamp & s' & -> & He). split.
  - eexists. split; reflexivity.
  - exists id, (amount p), purchased, stamp. exact He.
Qed.

(** Witness of X4: the access queries rejected, a record already held. *)
Lemma failed_access_query_grants_again_witness :
  hasRecord "u1" "v1" s1 = true /\
  storeFault envAccessDown (CallQuery (accessQuery "u1" "v1")) = true /\
  answered200 (fst (verifyVideoPurchase (buyVideo "0xusdc" "v1" "USDC") envAccessDown s1)).
Proof.
  assert (H0 : hasRecord "u1" "v1" s1 = true) by (vm_compute; reflexivity).
  assert (H1 : beforeVerification (buyVideo "0xusdc" "v1" "USDC") envAccessDown s1
               = Some (USDC, video1)) by (vm_compute; reflexivity).
  assert (H2 : returns (fst (verifyPayment USDC (hashIn (buyVideo "0xusdc" "v1" "USDC"))
                                           (singlePriceUsd video1) envAccessDown s1))).
  { exists (mkPayment true "5.0" payer (mkDetails 100 "21000" (Some "7"))).
    vm_compute. reflexivity. }
  assert (H3 : storeFault envAccessDown
                 (CallQuery (accessQuery (userIdIn (buyVideo "0xusdc" "v1" "USDC"))
                                         (videoIdIn (buyVideo "0xusdc" "v1" "USDC"))))
               = true) by reflexivity.
  assert (H4 : storeFault envAccessDown CallCreate = false) by reflexivity.
  destruct (@failed_access_query_grants_again (buyVideo "0xusdc" "v1" "USDC")
              envAccessDown s1 USDC video1 H1 H2 H3 H4) as [P _].
  split; [exact H0|]. split; [exact H3|exact P].
Defined.

End PurchaseFlowFacts.

(* ------------------------------------------------------------------ *)
(** ** Payment verification at its edges                               *)
(* ------------------------------------------------------------------ *)

Module VerificationFacts.

Import Float64 JsString Units JsDate Runtime GolemDBService BaseService Controllers Properties Sample.
Import Notions Fixtures Steps.
Local Open Scope string_scope.
Local Open Scope Z_scope.

Lemma find_app_some {A} (f : A -> bool) l1 l2 x :
  find f l1 = Some x -> find f (l1 ++ l2) = Some x.
Proof.
  induction l1 as [|a l1 IH]; cbn [find app]; [discriminate|].
  destruct (f a); [auto|exact IH].
Qed.

(** X5.  [verifyUsdcPayment] looks at the first Transfer event to the
    store wallet only: once the logs of a receipt hold such an event, the
    logs that follow it change nothing, so two transfers to the store are
    not added up. *)
Theorem first_transfer_to_store_decides env s receipt logs1 logs2 expected recipient ev :
  find (directedTo recipient)
       (transferEvents (usdcAddress env) (parseLog env) logs1) = Some ev ->
  usdcFromReceipt (withLogs (logs1 ++ logs2) receipt) expected recipient env s =
    usdcFromReceipt (withLogs logs1 receipt) expected recipient env s.
Proof.
  intros H. unfold usdcFromReceipt.
  change (statusIsOne (withLogs (logs1 ++ logs2) receipt)) with (statusIsOne receipt).
  change (statusIsOne (withLogs logs1 receipt)) with (statusIsOne receipt).
  change (logs (withLogs (logs1 ++ logs2) receipt)) with (logs1 ++ logs2)%list.
  change (logs (withLogs logs1 receipt)) with logs1.
  change (detailsOf (withLogs (logs1 ++ logs2) receipt)) with (detailsOf receipt).
  change (detailsOf (withLogs logs1 receipt)) with (detailsOf receipt).
  destruct (negb (statusIsOne receipt)); [reflexivity|].
  unfold bind, asks.
  rewrite LogFacts.transferEvents_app.
  rewrite (find_app_some _ _ _ H), H.
  destruct (transferEvents (usdcAddress env) (parseLog env) logs1) as [|e1 l1];
    [discriminate H|].
  reflexivity.
Qed.

(** Witness of X5: two transfers of 5 USDC against a price of 10. *)
Lemma first_transfer_to_store_decides_witness :
  find (directedTo store)
       (transferEvents (usdcAddress env0) (parseLog env0) [transferLog])
    = Some (Some ("Transfer", mkArgs payer store 5000000)) /\
  usdcFromReceipt (withLogs ([transferLog] ++ [transferLog]) usdcReceipt) "10.00" store
                  env0 s0 =
    usdcFromReceipt (withLogs [transferLog] usdcReceipt) "10.00" store env0 s0 /\
  fst (usdcFromReceipt (withLogs twoTransfers usdcReceipt) "10.00" store env0 s0) =
    Thrown (mkError (insufficient "10.00" "5.0")).
Proof.
  assert (H1 : find (directedTo store)
                    (transferEvents (usdcAddress env0) (parseLog env0) [transferLog])
               = Some (Some ("Transfer", mkArgs payer store 5000000)))
    by (vm_compute; reflexivity).
  pose proof (@first_transfer_to_store_decides env0 s0 usdcReceipt [transferLog]
                [transferLog] "10.00" store _ H1) as P.
  split; [exact H1|]. split; [exact P|]. vm_compute. reflexivity.
Defined.

Lemma toLowerCase_empty a : toLowerCase a = "" -> a = "".
Proof. destruct a; [reflexivity|discriminate]. Qed.

Lemma find_none {A} (f : A -> bool) l :
  (forall x, In x l -> f x = false) -> find f l = None.
Proof.
  induction l as [|a l IH]; intros H; [reflexivity|].
  cbn [find]. rewrite (H a (or_introl eq_refl)). apply IH.
  intros x Hx. apply H. right. exact Hx.
Qed.

(** X6.  With STORE_WALLET_ADDRESS unset the recipient is the empty
    text, and no payment verifies, in either token, as long as no transfer
    and no transaction of the chain names the empty text as its
    recipient. *)
Theorem no_store_wallet_no_payment env s token hash price :
  orEmpty (STORE_WALLET_ADDRESS env) = "" ->
  (forall log name args, parseLog env log = Parsed name args -> arg_to args <> "") ->
  (forall h tx, transactions env h = Some tx -> tx_to tx <> Some "") ->
  exists e, fst (verifyPayment token hash price env s) = Thrown e.
Proof.
  intros Hw Hlogs Htx. rewrite verifyPayment_run.
  enough (exists e, fst (paymentTry token hash price env s) = Thrown e) as [e He].
  { destruct (paymentTry token hash price env s) as [[p|e'] s']; cbn [fst] in *;
      [discriminate|eauto]. }
  unfold paymentTry. rewrite Hw. destruct token.
  - unfold usdcTry, getTransactionReceipt, rpc, bind at 1.
    destruct (rpcFault env (GetTransactionReceipt hash)); [cbn; eauto|].
    destruct (receipts env hash) as [rc|]; [|cbn; eauto].
    unfold usdcFromReceipt.
    destruct (negb (statusIsOne rc)); [cbn; eauto|].
    unfold bind at 1, asks. unfold bind at 1.
    rewrite find_none.
    + destruct (transferEvents _ _ _); cbn; eauto.
    + intros ev Hin. apply LogFacts.transferEvents_origin in Hin.
      destruct Hin as (log & args & _ & _ & Hp & ->).
      cbn [directedTo]. apply String.eqb_neq. intros E.
      apply toLowerCase_empty in E. exact (Hlogs _ _ _ Hp E).
  - unfold ethTry, getTransaction, getTransactionReceipt, rpc, bind.
    destruct (rpcFault env (GetTransaction hash)); [cbn; eauto|].
    destruct (transactions env hash) as [tx|] eqn:T; [|cbn; eauto].
    destruct (rpcFault env (GetTransactionReceipt hash)); [cbn; eauto|].
    destruct (receipts env hash) as [rc|]; [|cbn; eauto].
    destruct (negb (statusIsOne rc)); [cbn; eauto|].
    assert (Sa : sameAddress (tx_to tx) "" = false).
    { unfold sameAddress. destruct (tx_to tx) as [a|] eqn:Ta; [|reflexivity].
      apply String.eqb_neq. intros E. apply toLowerCase_empty in E. subst a.
      exact (Htx _ _ T Ta). }
    rewrite Sa. cbn. eauto.
Qed.

(** Witness of X6: the sample world without the store wallet. *)
Lemma no_store_wallet_no_payment_witness :
  orEmpty (STORE_WALLET_ADDRESS envNoWallet) = "" /\
  (forall log name args,
     parseLog envNoWallet log = Parsed name args -> arg_to args <> "") /\
  (forall h tx, transactions envNoWallet h = Some tx -> tx_to tx <> Some "") /\
  exists e, fst (verifyPayment USDC "0xusdc" "5.00" envNoWallet s0) = Thrown e.
Proof.
  assert (H1 : orEmpty (STORE_WALLET_ADDRESS envNoWallet) = "") by reflexivity.
  assert (H2 : forall log name args,
             parseLog envNoWallet log = Parsed name args -> arg_to args <> "").
  { intros log name args. cbn [parseLog envNoWallet]. unfold strictParse.
    destruct (topics log) as [|t1 [|t2 [|t3 [|t4 ts]]]]; try discriminate.
    destruct (String.eqb t3 "") eqn:E; [discriminate|].
    intros H. inversion H. cbn [arg_to]. apply String.eqb_neq. exact E. }
  assert (H3 : forall h tx, transactions envNoWallet h = Some tx -> tx_to tx <> Some "").
  { intros h tx. cbn [transactions envNoWallet env0].
    repeat match goal with
           | |- context [if String.eqb h ?k then _ else _] =>
               destruct (String.eqb h k); [intros H; inversion H; discriminate|]
           end.
    discriminate. }
  pose proof (@no_store_wallet_no_payment envNoWallet s0 USDC "0xusdc" "5.00" H1 H2 H3)
    as P.
  split; [exact H1|]. split; [exact H2|]. split; [exact H3|exact P].
Defined.

(** X7.  A price text that [parseFloat] reads as NaN makes the
    comparison of the amounts false: once the checks before the comparison
    have passed and the amount has been formatted, the verification
    succeeds whatever amount the transaction carries. *)
Theorem unparsable_price_accepts_any_amount token env s hash expected recipient
    value dec ok :
  chainAmount token env hash recipient = Some (value, dec, ok) ->
  isNaN (parseFloat expected) = true ->
  fst (verifyWith token hash expected recipient env s) = Returned ok.
Proof.
  intros Hc Hn.
  destruct (AmountFacts.verifyWith_amount token env s hash expected recipient Hc) as [_ R].
  rewrite R, (AmountFacts.belowExpected_NaN _ _ Hn). reflexivity.
Qed.

(** Witness of X7: the price text '$5.00' and a payment one wei short of 5 ETH. *)
Lemma unparsable_price_accepts_any_amount_witness :
  chainAmount ETH env0 "0xeth" store =
    Some (4999999999999999999, 18,
          mkPayment true "4.999999999999999999" payer
                    (mkDetails 101 "21000" (Some "7"))) /\
  isNaN (parseFloat "$5.00") = true /\
  fst (verifyWith ETH "0xeth" "$5.00" store env0 s0) =
    Returned (mkPayment true "4.999999999999999999" payer
                        (mkDetails 101 "21000" (Some "7"))).
Proof.
  assert (H1 : chainAmount ETH env0 "0xeth" store =
               Some (4999999999999999999, 18,
                     mkPayment true "4.999999999999999999" payer
                               (mkDetails 101 "21000" (Some "7"))))
    by (vm_compute; reflexivity).
  assert (H2 : isNaN (parseFloat "$5.00") = true) by (vm_compute; reflexivity).
  pose proof (@unparsable_price_accepts_any_amount ETH env0 s0 "0xeth" "$5.00" store
                _ _ _ H1 H2) as P.
  split; [exact H1|]. split; [exact H2|exact P].
Defined.

End VerificationFacts.

(* ------------------------------------------------------------------ *)
(** ** Dates read back from the store                                  *)
(* ------------------------------------------------------------------ *)

Module StoredDateFacts.

Import Float64 JsString Units JsDate Runtime GolemDBService BaseService Controllers Properties Sample.
Import Notions Fixtures UnitsFacts Steps.
Local Open Scope string_scope.
Local Open Scope Z_scope.

Lemma append_cons c a b : String c a ++ b = String c (a ++ b).
Proof. reflexivity. Qed.

Lemma append_nil_l b : "" ++ b = b.
Proof. reflexivity. Qed.

Lemma pad_digits k n : allDigits (pad k n) = true /\ len (pad k n) = Z.of_nat k.
Proof.
  unfold pad. destruct (@fixedDigits_spec k n "" eq_refl) as (A & L & _).
  split; [exact A|]. rewrite L. change (len "") with 0. lia.
Qed.

(** A run of digits followed by a hyphen is read as the digits; the
    hyphen and what follows are left over. *)
Lemma unsignedLiteral_then_hyphen neg w r :
  allDigits w = true -> 0 < len w ->
  unsignedLiteral neg (w ++ String "-" r) =
    Some (LitDecimal neg (dval w) 0, String "-" r).
Proof.
  intros Aw Lw. destruct (head_digit w Aw Lw) as (c & t & E & Hc).
  assert (S2 : prefix "Infinity" (w ++ String "-" r) = false).
  { rewrite E, append_cons. apply prefix_Infinity_digit. exact Hc. }
  unfold unsignedLiteral. rewrite S2.
  rewrite takeDigits_all by exact Aw. rewrite takeDigits_stop by reflexivity.
  cbn [afterPoint]. change (Ascii.eqb "-" ".") with false. cbv iota.
  replace (0 + len w =? 0) with false by (symmetry; apply Z.eqb_neq; lia).
  cbn [exponentPart]. change (codeOf "-" =? 101) with false.
  change (codeOf "-" =? 69) with false. cbn [orb]. reflexivity.
Qed.

Lemma nonDecimalLiteral_other c r : c <> "0"%char -> nonDecimalLiteral (String c r) = None.
Proof.
  intros N. destruct c as [[] [] [] [] [] [] [] []]; try reflexivity.
  exfalso. apply N. reflexivity.
Qed.

(** The second character of such a text is a digit or the hyphen:
    neither starts the prefix of another radix. *)
Lemma nonDecimalLiteral_digits w r :
  allDigits w = true -> 0 < len w -> nonDecimalLiteral (w ++ String "-" r) = None.
Proof.
  intros Aw Lw. destruct (head_digit w Aw Lw) as (c & t & E & Hc). subst w.
  rewrite append_cons.
  destruct (ascii_dec c "0") as [->|N]; [|apply nonDecimalLiteral_other; exact N].
  cbn [allDigits] in Aw. apply andb_true_iff in Aw. destruct Aw as [_ At].
  destruct t as [|c2 t2].
  - reflexivity.
  - cbn [allDigits] in At. apply andb_true_iff in At. destruct At as [H2 _].
    rewrite append_cons. unfold nonDecimalLiteral.
    unfold isDigit in H2. apply andb_true_iff in H2. destruct H2 as [L U].
    apply Z.leb_le in L, U.
    replace (codeOf c2 =? 120) with false by (symmetry; apply Z.eqb_neq; lia).
    replace (codeOf c2 =? 88) with false by (symmetry; apply Z.eqb_neq; lia).
    replace (codeOf c2 =? 111) with false by (symmetry; apply Z.eqb_neq; lia).
    replace (codeOf c2 =? 79) with false by (symmetry; apply Z.eqb_neq; lia).
    replace (codeOf c2 =? 98) with false by (symmetry; apply Z.eqb_neq; lia).
    replace (codeOf c2 =? 66) with false by (symmetry; apply Z.eqb_neq; lia).
    reflexivity.
Qed.

Lemma digits_hyphen_not_a_number w r :
  allDigits w = true -> 0 < len w -> stringToNumber (w ++ String "-" r) = FNaN.
Proof.
  intros Aw Lw. unfold stringToNumber.
  rewrite (skipWhiteSpace_digit _ Aw Lw).
  rewrite (nonDecimalLiteral_digits _ r Aw Lw).
  destruct (head_digit w Aw Lw) as (c & t & E & Hc).
  assert (S1 : strDecimalLiteral (w ++ String "-" r) =
               unsignedLiteral false (w ++ String "-" r)).
  { rewrite E, append_cons. cbn [strDecimalLiteral].
    rewrite (digit_neq c "+" Hc eq_refl), (digit_neq c "-" Hc eq_refl). reflexivity. }
  rewrite S1, (unsignedLiteral_then_hyphen false w r Aw Lw).
  rewrite E at 1. rewrite append_cons. reflexivity.
Qed.

Lemma signed_digits_hyphen_not_a_number (sign : ascii) w r :
  sign = "+"%char \/ sign = "-"%char ->
  allDigits w = true -> 0 < len w ->
  stringToNumber (String sign (w ++ String "-" r)) = FNaN.
Proof.
  intros Hs Aw Lw. unfold stringToNumber.
  assert (W : skipWhiteSpace (String sign (w ++ String "-" r)) =
              String sign (w ++ String "-" r))
    by (destruct Hs as [->| ->]; reflexivity).
  rewrite W.
  rewrite nonDecimalLiteral_other by (destruct Hs as [->| ->]; discriminate).
  assert (S1 : exists neg, strDecimalLiteral (String sign (w ++ String "-" r)) =
                           unsignedLiteral neg (w ++ String "-" r))
    by (destruct Hs as [->| ->]; eexists; reflexivity).
  destruct S1 as [neg ->]. rewrite (unsignedLiteral_then_hyphen neg w r Aw Lw).
  reflexivity.
Qed.

(** The ISO text of a date is not a numeric literal. *)
Lemma iso_text_not_a_number t : stringToNumber (toISOString t) = FNaN.
Proof.
  unfold toISOString.
  set (rest := pad 2 (MonthFromTime t + 1) ++ _).
  change ("-" ++ rest) with (String "-" rest).
  destruct ((0 <=? YearFromTime t) && (YearFromTime t <=? 9999)).
  - destruct (pad_digits 4 (YearFromTime t)) as [A L].
    apply digits_hyphen_not_a_number; [exact A|lia].
  - destruct (YearFromTime t <? 0).
    + destruct (pad_digits 6 (- YearFromTime t)) as [A L].
      change ("-" ++ pad 6 (- YearFromTime t)) with (String "-" (pad 6 (- YearFromTime t))).
      rewrite append_cons.
      apply signed_digits_hyphen_not_a_number; [auto|exact A|lia].
    + destruct (pad_digits 6 (YearFromTime t)) as [A L].
      change ("+" ++ pad 6 (YearFromTime t)) with (String "+" (pad 6 (YearFromTime t))).
      rewrite append_cons.
      apply signed_digits_hyphen_not_a_number; [auto|exact A|lia].
Qed.

(** A subscription read back from the store is never current, whatever
    its flag and its end date. *)
Lemma stored_subscription_not_current j env s :
  isoDated j ->
  fst (subscriptionCurrent (subscription (decodeUser j)) env s) = Returned false.
Proof.
  intros H. unfold subscriptionCurrent, decodeUser. cbn [subscription].
  destruct (subscription j) as [sub|] eqn:Es; [|reflexivity].
  cbn [option_map]. unfold decodeSubscription at 1 2. cbn [isActive endDate].
  destruct (isActive sub); [|reflexivity].
  destruct (endDate sub) as [d|] eqn:Ed; [|reflexivity].
  cbn [option_map dateTruthy].
  destruct (negb (String.eqb d "")); [|reflexivity].
  destruct (H sub d Es Ed) as [t0 ->].
  unfold bind, newDate, ret. cbn [fst]. unfold laterThan.
  rewrite iso_text_not_a_number. reflexivity.
Qed.

Lemma filter_In_head {A} (f : A -> bool) l x r : filter f l = x :: r -> In x l.
Proof.
  intros H. assert (I : In x (filter f l)) by (rewrite H; left; reflexivity).
  apply filter_In in I. apply I.
Qed.

Lemma existsb_filter {A} (f : A -> bool) l :
  existsb f l = match filter f l with [] => false | _ :: _ => true end.
Proof.
  induction l as [|a l IH]; [reflexivity|]. cbn [existsb filter].
  destruct (f a); [reflexivity|exact IH].
Qed.

(** X8.  In a store whose user documents carry their subscription
    dates as the ISO text [JSON.stringify] writes, [checkUserVideoAccess]
    answers [true] exactly when the store answers the access query and
    holds an access record: the subscription branch never grants, since
    the text compared with [new Date()] is not a number. *)
Theorem access_is_the_access_record userId videoId env s :
  datesWritten s ->
  fst (checkUserVideoAccess userId videoId env s) =
    Returned (negb (storeFault env (CallQuery (accessQuery userId videoId)))
              && hasRecord userId videoId s).
Proof.
  intros H. rewrite checkUserVideoAccess_answer. unfold hasRecord.
  rewrite existsb_filter.
  destruct (storeFault env (CallQuery (accessQuery userId videoId))); [reflexivity|].
  cbn [negb andb].
  destruct (filter (matchesQuery (accessQuery userId videoId)) (entities s));
    [|reflexivity].
  rewrite findUserByWallet_answer.
  destruct (storeFault env (CallQuery (walletQuery ""))); [reflexivity|].
  destruct (filter (matchesQuery (walletQuery "")) (entities s)) as [|e l] eqn:Ef;
    [reflexivity|].
  destruct (data e) as [j| | |] eqn:Ed; try reflexivity.
  cbn [optBind]. apply stored_subscription_not_current.
  exact (H e j (filter_In_head _ _ Ef) Ed).
Qed.

Lemma sample_dates_written :
  datesWritten sSubscribed /\ datesWritten sSubscribed0.
Proof.
  assert (I : isoDated subscribed).
  { intros sub d Hs He. inversion Hs; subst sub. inversion He; subst d.
    exists 1763539200000. vm_compute. reflexivity. }
  split; intros e j Hin Hd; cbn [entities sSubscribed sSubscribed0 In] in Hin;
    repeat (destruct Hin as [<-|Hin]; [try discriminate Hd|]); try contradiction;
    inversion Hd; subst j; exact I.
Qed.

(** Witness of X8: a user with a current subscription and no record. *)
Lemma access_is_the_access_record_witness :
  datesWritten sSubscribed0 /\
  fst (checkUserVideoAccess "u1" "v1" env0 sSubscribed0) = Returned false.
Proof.
  destruct sample_dates_written as [_ H].
  pose proof (@access_is_the_access_record "u1" "v1" env0 sSubscribed0 H) as P.
  split; [exact H|exact P].
Defined.

(** X9.  In such a store [getSubscriptionStatus] never reports an
    active subscription: [isActive] is [false] for every user that has a
    subscription, and absent otherwise. *)
Theorem subscription_status_never_active req env s body :
  datesWritten s ->
  fst (getSubscriptionStatus req env s) = Returned (Accepted body) ->
  status_isActive body = (if hasSubscription body then Some false else None).
Proof.
  intros H. unfold getSubscriptionStatus, tryCatch.
  destruct (negb (truthy (userIdOf req))); [discriminate|].
  pose proof (findUserByWallet_answer (walletOf req) env s) as A.
  destruct (findUserByWallet_total (walletOf req) env s) as [o Ho].
  rewrite Ho in A. cbn [fst] in A.
  erewrite bind_returned by exact Ho. cbv beta iota.
  destruct o as [user|]; [|discriminate].
  assert (D : exists j, user = decodeUser j /\ isoDated j).
  { destruct (storeFault env _); [discriminate|].
    destruct (filter _ _) as [|e l] eqn:Ef; [discriminate|].
    destruct (data e) as [j| | |] eqn:Ed; try discriminate.
    inversion A. exists j. split; [reflexivity|].
    exact (H e j (filter_In_head _ _ Ef) Ed). }
  destruct D as (j & -> & Hj).
  pose proof (stored_subscription_not_current env s Hj) as C.
  destruct (subscription (decodeUser j)) as [sub|].
  - destruct (subscriptionCurrent_total (Some sub) env s) as (b & s' & Hb & _).
    rewrite Hb in C. cbn [fst] in C. inversion C; subst b.
    erewrite bind_returned by exact Hb. unfold accept, ret. cbn [fst].
    intros E. inversion E. reflexivity.
  - unfold accept, ret. cbn [fst]. intros E. inversion E. reflexivity.
Qed.

(** Witness of X9: a subscription that ends after the time of the request. *)
Lemma subscription_status_never_active_witness :
  datesWritten sSubscribed /\
  now sSubscribed < 1763539200000 /\
  fst (getSubscriptionStatus cancel env0 sSubscribed) =
    Returned (Accepted (mkStatusBody true (Some false)
                (Some (mkSubscription (Some "t1")
                         (Some (DateStr "2025-10-20T08:00:00.000Z"))
                         (Some (DateStr (toISOString 1763539200000))) true)))) /\
  status_isActive
    (mkStatusBody true (Some false)
       (Some (mkSubscription (Some "t1")
                (Some (DateStr "2025-10-20T08:00:00.000Z"))
                (Some (DateStr (toISOString 1763539200000))) true))) =
    (if hasSubscription
          (mkStatusBody true (Some false)
             (Some (mkSubscription (Some "t1")
                      (Some (DateStr "2025-10-20T08:00:00.000Z"))
                      (Some (DateStr (toISOString 1763539200000))) true)))
     then Some false else None).
Proof.
  destruct sample_dates_written as [H _].
  assert (E : fst (getSubscriptionStatus cancel env0 sSubscribed) =
              Returned (Accepted (mkStatusBody true (Some false)
                (Some (mkSubscription (Some "t1")
                         (Some (DateStr "2025-10-20T08:00:00.000Z"))
                         (Some (DateStr (toISOString 1763539200000))) true)))))
    by (vm_compute; reflexivity).
  pose proof (@subscription_status_never_active cancel env0 sSubscribed _ H E) as P.
  split; [exact H|]. split; [reflexivity|]. split; [exact E|exact P].
Defined.

End StoredDateFacts.

(* ------------------------------------------------------------------ *)
(** ** Documents through the store                                     *)
(* ------------------------------------------------------------------ *)

Module StoreFacts.

Import Float64 JsString Units JsDate Runtime GolemDBService BaseService Controllers Properties Sample.
Import Notions Fixtures Steps.
Local Open Scope string_scope.
Local Open Scope Z_scope.

Lemma decoded_date_roundtrip (d : option string) :
  optBind (option_map DateStr d) dateToJSON = d.
Proof. destruct d; reflexivity. Qed.

Lemma encode_decode_subscription sub :
  encodeSubscription (decodeSubscription sub) = sub.
Proof.
  destruct sub as [t a b c]. unfold encodeSubscription, decodeSubscription.
  cbn [tierId startDate endDate isActive]. rewrite !decoded_date_roundtrip. reflexivity.
Qed.

Lemma decoded_isText (d : option string) : isText (option_map DateStr d).
Proof. intros t. destruct d; discriminate. Qed.

Lemma decodeUser_textDated j : textDated (decodeUser j).
Proof.
  unfold textDated, decodeUser. cbn [createdAt updatedAt lastLogin subscription].
  repeat split; try apply decoded_isText.
  - destruct (subscription j) as [sb|]; [|discriminate].
    cbn [option_map] in H. inversion H. apply decoded_isText.
  - destruct (subscription j) as [sb|]; [|discriminate].
    cbn [option_map] in H. inversion H. apply decoded_isText.
Qed.

(** X10.  [encodeData] after [decodeData] gives the stored document
    back, but every date field of a decoded user is text, never a [Date];
    so [decodeData] after [encodeData] gives a user back only if it held
    no [Date]. *)
Theorem json_round_trip_keeps_text_not_dates :
  (forall j, encodeUser (decodeUser j) = j) /\
  (forall j, textDated (decodeUser j)) /\
  (forall u, decodeUser (encodeUser u) = u -> textDated u).
Proof.
  split; [|split].
  - intros [i w r st sub c u l]. unfold encodeUser, decodeUser.
    cbn [user_id walletAddress role whitelistStatus subscription createdAt updatedAt
         lastLogin].
    rewrite !decoded_date_roundtrip. f_equal.
    destruct sub as [sb|]; [|reflexivity]. cbn [option_map].
    rewrite encode_decode_subscription. reflexivity.
  - exact decodeUser_textDated.
  - intros u E. rewrite <- E. apply decodeUser_textDated.
Qed.

(** *** [createUser] *)

Lemma createUser_run userData env s :
  let id := uuid env (nextId s) in
  let created := now s in
  let updated := now s + hd 0 (ticks s) in
  let newUser :=
    mkUser id (data_walletAddress userData) (roleOr (data_role userData))
           (statusOr (data_whitelistStatus userData)) None
           (Some (DateObj (Some created))) (Some (DateObj (Some updated))) None in
  if storeFault env CallCreate then
    exists e s', createUser userData env s = (Thrown e, s') /\ entities s' = entities s
  else
    exists s',
      createUser userData env s = (Returned newUser, s') /\
      entities s' =
        (entities s ++
         [mkEntity (PUser (encodeUser newUser)) 1000000 (userAnnotations newUser)
                   [("createdAt", created)]])%list.
Proof.
  unfold createUser, createEntities, generateId, newDate, getTime, roleOr, statusOr.
  unfold_monad. cbn.
  destruct (storeFault env CallCreate); cbn.
  - do 2 eexists. split; reflexivity.
  - eexists. split; reflexivity.
Qed.

Lemma userAnnotations_match u :
  matchesQuery (walletQuery (walletAddress u))
    (mkEntity (PUser (encodeUser u)) 1000000 (userAnnotations u) []) = true.
Proof.
  unfold matchesQuery, walletQuery, userAnnotations, annotationEqb.
  cbn [forallb existsb stringAnnotations fst snd].
  rewrite !String.eqb_refl. cbn. rewrite ?orb_true_r. reflexivity.
Qed.

(** X11.  [createUser], then [findUserByWallet]: with the store up
    and the wallet address not yet filed, the user created has the wallet
    address, role and whitelist status asked for (defaults [user] and
    [pending]), and is found under the wallet address afterwards, as the
    decoded document, which differs from the user [createUser]
    returned. *)
Theorem created_user_is_found_with_text_dates userData env s :
  storeUp env ->
  unknownWallet (data_walletAddress userData) s ->
  exists newUser s',
    createUser userData env s = (Returned newUser, s') /\
    walletAddress newUser = data_walletAddress userData /\
    role newUser = roleOr (data_role userData) /\
    whitelistStatus newUser = statusOr (data_whitelistStatus userData) /\
    fst (findUserByWallet (data_walletAddress userData) env s') =
      Returned (Some (decodeUser (encodeUser newUser))) /\
    decodeUser (encodeUser newUser) <> newUser.
Proof.
  intros Up Hw. pose proof (createUser_run userData env s) as R. cbv zeta in R.
  rewrite (Up CallCreate) in R. destruct R as (s' & R & He).
  eexists. exists s'. split; [exact R|].
  cbn [walletAddress role whitelistStatus].
  repeat split.
  - rewrite findUserByWallet_answer, (Up _), He, filter_app.
    unfold unknownWallet in Hw. rewrite Hw. cbn [app filter].
    unfold matchesQuery, walletQuery, userAnnotations, annotationEqb.
    cbn [forallb existsb stringAnnotations fst snd walletAddress user_id].
    rewrite !String.eqb_refl. cbn. rewrite ?orb_true_r. cbn. reflexivity.
  - intros E. apply (f_equal (@createdAt DateField)) in E. discriminate E.
Qed.

(** Witness of X11: a wallet address of the sample store not yet filed. *)
Lemma created_user_is_found_with_text_dates_witness :
  storeUp env0 /\
  unknownWallet "0xb0b" s0 /\
  exists newUser s',
    createUser (mkUserData "0xb0b" None None) env0 s0 = (Returned newUser, s') /\
    walletAddress newUser = "0xb0b" /\
    role newUser = RoleUser /\
    whitelistStatus newUser = Pending /\
    fst (findUserByWallet "0xb0b" env0 s') =
      Returned (Some (decodeUser (encodeUser newUser))) /\
    decodeUser (encodeUser newUser) <> newUser.
Proof.
  assert (H1 : storeUp env0) by (intros call; reflexivity).
  assert (H2 : unknownWallet "0xb0b" s0) by (vm_compute; reflexivity).
  pose proof (@created_user_is_found_with_text_dates (mkUserData "0xb0b" None None)
                env0 s0 H1 H2) as P.
  split; [exact H1|]. split; [exact H2|exact P].
Defined.

(** *** [getUserReadings] *)

(** The comparator fails on a reading read back from the store: its
    [drawnAt] is text, or absent. *)
Lemma byDrawnAt_decoded a r env s :
  exists e, byDrawnAt a (decodeReading r) env s = (Thrown e, s).
Proof.
  unfold byDrawnAt, decodeReading, getTime, bind, throw. cbn [drawnAt].
  destruct (drawnAt r); cbn [option_map]; eauto.
Qed.

Lemma sort_decoded found env s :
  match found with
  | [] => sort byDrawnAt (map decodeReading found) env s = (Returned [], s)
  | [r] => sort byDrawnAt (map decodeReading found) env s = (Returned [decodeReading r], s)
  | _ :: _ :: _ => exists e, sort byDrawnAt (map decodeReading found) env s = (Thrown e, s)
  end.
Proof.
  induction found as [|a rest IH]; [reflexivity|].
  assert (C : sort byDrawnAt (map decodeReading (a :: rest)) env s =
              bind (sort byDrawnAt (map decodeReading rest))
                   (insertSorted byDrawnAt (decodeReading a)) env s) by reflexivity.
  destruct rest as [|b [|c rest']].
  - reflexivity.
  - rewrite C. unfold bind at 1. rewrite IH. cbn [insertSorted]. unfold bind at 1.
    destruct (byDrawnAt_decoded (decodeReading a) b env s) as [e ->]. eauto.
  - rewrite C. unfold bind at 1. destruct IH as [e ->]. eauto.
Qed.

Lemma slice_nil {A} start finish : @slice A start finish [] = [].
Proof. unfold slice. cbn [List.length skipn]. rewrite skipn_nil. apply firstn_nil. Qed.

(** X12.  [getUserReadings] returns the readings of a user only when
    there is at most one: with two or more, the comparator of the sort
    calls [getTime] on the text of [drawnAt], the error is caught, and the
    result is the empty list. *)
Theorem reading_history_lost_to_sort queryReadings userId limit env s found s1 :
  queryReadings userId env s = (Returned found, s1) ->
  getUserReadings queryReadings userId limit env s =
    (Returned match found with
              | [] => []
              | [r] => slice 0 limit [decodeReading r]
              | _ :: _ :: _ => []
              end, s1).
Proof.
  intros H. unfold getUserReadings, tryCatch. unfold bind at 1. rewrite H.
  pose proof (sort_decoded found env s1) as S. unfold bind at 1.
  destruct found as [|a [|b rest]].
  - rewrite S. unfold ret. rewrite slice_nil. reflexivity.
  - rewrite S. reflexivity.
  - destruct S as [e ->]. reflexivity.
Qed.

(** Witness of X12: two readings of one user. *)
Lemma reading_history_lost_to_sort_witness :
  twoReadings "u1" env0 s0 = (Returned [reading1; reading2], s0) /\
  getUserReadings twoReadings "u1" 10 env0 s0 = (Returned [], s0).
Proof.
  assert (H1 : twoReadings "u1" env0 s0 = (Returned [reading1; reading2], s0))
    by reflexivity.
  pose proof (@reading_history_lost_to_sort twoReadings "u1" 10 env0 s0
                [reading1; reading2] s0 H1) as P.
  split; [exact H1|exact P].
Defined.

(** *** The listings *)

Lemma mapM_total {A B} (f : A -> M B) l env s :
  (forall a env s, exists o, f a env s = (o, s)) ->
  exists o, mapM f l env s = (o, s).
Proof.
  intros Hf. induction l as [|a l IH]; cbn [mapM]; [eexists; reflexivity|].
  unfold bind. destruct (Hf a env s) as [[b|e] ->]; [|eexists; reflexivity].
  destruct IH as [[bs|e] ->]; eexists; reflexivity.
Qed.

Lemma decodeTierData_pure e env s : exists o, decodeTierData e env s = (o, s).
Proof. unfold decodeTierData. destruct (data e); eexists; reflexivity. Qed.

Lemma getActiveSubscriptionTiers_total env s :
  exists found, getActiveSubscriptionTiers env s = (Returned found, s) /\
                (storeFault env (CallQuery [("type", "subscription_tier");
                                            ("isActive", "true")]) = true ->
                 found = []).
Proof.
  unfold getActiveSubscriptionTiers, queryEntities, tryCatch, bind at 1.
  destruct (storeFault env _).
  - exists []. split; reflexivity.
  - destruct (mapM_total decodeTierData
                (filter (matchesQuery [("type", "subscription_tier"); ("isActive", "true")])
                        (entities s)) env s decodeTierData_pure) as [[l|e] ->].
    + exists l. split; [reflexivity|discriminate].
    + exists []. split; [reflexivity|discriminate].
Qed.

(** Decoding the documents found: all of them, in order, or a failure at
    one that is not a tier. *)
Lemma mapM_decodeTierData l env s :
  (exists found,
     mapM decodeTierData l env s = (Returned found, s) /\
     Forall2 (fun e t => data e = PTier t) l found) \/
  (exists err e,
     mapM decodeTierData l env s = (Thrown err, s) /\
     In e l /\ forall t, data e <> PTier t).
Proof.
  induction l as [|a l IH]; cbn [mapM].
  - left. exists []. split; [reflexivity|constructor].
  - assert (Ha : decodeTierData a env s =
                 match data a with
                 | PTier t => (Returned t, s)
                 | _ => (Thrown (mkError "Unexpected token in JSON"), s)
                 end)
      by (unfold decodeTierData; destruct (data a); reflexivity).
    unfold bind. rewrite Ha. destruct (data a) as [u|v|t|x] eqn:Ea.
    3: { destruct IH as [(found & H & F)|(err & e & H & I & N)]; rewrite H.
         - left. exists (t :: found). split; [reflexivity|]. constructor; assumption.
         - right. exists err, e. split; [reflexivity|]. split; [right; exact I|exact N]. }
    all: right; eexists; exists a; split; [reflexivity|];
      split; [left; reflexivity|]; intros t; rewrite Ea; discriminate.
Qed.

(** X13.  [getSubscriptionTiers] always answers 200 with the tiers that
    [getActiveSubscriptionTiers] returns and their count, and leaves the
    state as it was.  When the store answers the query these are the
    documents it holds as active tiers, in the order of the store, if all
    of them decode as tiers, and none if one does not; when the store
    rejects the query the list is empty. *)
Theorem tier_listing_always_answers env s :
  let query := [("type", "subscription_tier"); ("isActive", "true")] in
  exists found,
    getActiveSubscriptionTiers env s = (Returned found, s) /\
    getSubscriptionTiers env s =
      (Returned (Accepted (mkTiersBody (Z.of_nat (List.length found)) found)), s) /\
    (storeFault env (CallQuery query) = true -> found = []) /\
    (storeFault env (CallQuery query) = false ->
     Forall2 (fun e t => data e = PTier t)
             (filter (matchesQuery query) (entities s)) found \/
     (found = [] /\
      exists e, In e (filter (matchesQuery query) (entities s)) /\
                forall t, data e <> PTier t)).
Proof.
  intros query.
  assert (G : exists found,
             getActiveSubscriptionTiers env s = (Returned found, s) /\
             (storeFault env (CallQuery query) = true -> found = []) /\
             (storeFault env (CallQuery query) = false ->
              Forall2 (fun e t => data e = PTier t)
                      (filter (matchesQuery query) (entities s)) found \/
              (found = [] /\
               exists e, In e (filter (matchesQuery query) (entities s)) /\
                         forall t, data e <> PTier t))).
  { unfold getActiveSubscriptionTiers, queryEntities, tryCatch, bind at 1.
    fold query. destruct (storeFault env (CallQuery query)).
    - exists []. split; [reflexivity|]. split; [reflexivity|discriminate].
    - destruct (mapM_decodeTierData (filter (matchesQuery query) (entities s)) env s)
        as [(found & -> & F)|(err & e & -> & I & N)].
      + exists found. split; [reflexivity|]. split; [discriminate|]. intros _. left. exact F.
      + exists []. split; [reflexivity|]. split; [discriminate|]. intros _. right.
        split; [reflexivity|]. exists e. split; assumption. }
  destruct G as (found & H & F1 & F2).
  exists found. split; [exact H|]. split; [|split; assumption].
  unfold getSubscriptionTiers, tryCatch, bind. rewrite H. reflexivity.
Qed.

End StoreFacts.

(* ------------------------------------------------------------------ *)
(** ** The wallet login                                                *)
(* ------------------------------------------------------------------ *)

Module LoginFacts.

Import Float64 JsString Units JsDate Runtime GolemDBService BaseService Controllers.
Import AuthService AuthMiddleware App Properties Sample.
Import Notions Fixtures Steps.
Local Open Scope string_scope.
Local Open Scope Z_scope.

Lemma getUserById_answer id env s :
  getUserById id env s =
    (if storeFault env (CallQuery [("type", "user"); ("id", id)]) then Returned None
     else match filter (matchesQuery [("type", "user"); ("id", id)]) (entities s) with
          | e :: _ => match data e with
                      | PUser u => Returned (Some (decodeUser u))
                      | _ => Returned None
                      end
          | [] => Returned None
          end, s).
Proof.
  unfold getUserById, queryEntities, decodeUserData, tryCatch, bind, ret, throw.
  destruct (storeFault env _); [reflexivity|].
  destruct (filter _ _) as [|e l]; [reflexivity|].
  destruct (data e); reflexivity.
Qed.

Lemma matches_filedAsUser id e :
  matchesQuery [("type", "user"); ("id", id)] e = true -> filedAsUser e = true.
Proof.
  unfold matchesQuery, filedAsUser. cbn [forallb]. intros H.
  apply andb_true_iff in H. apply H.
Qed.

(** In a store where users are filed in order and that answers, a user
    document filed under an id is found by that id. *)
Lemma getUserById_finds env s e j :
  storeUp env -> usersFiled s -> In e (entities s) -> data e = PUser j ->
  exists u, getUserById (user_id j) env s = (Returned (Some u), s).
Proof.
  intros Up F Hin Hd. rewrite getUserById_answer, (Up _).
  assert (Hm : matchesQuery [("type", "user"); ("id", user_id j)] e = true).
  { unfold usersFiled in F. rewrite Forall_forall in F. specialize (F e Hin).
    unfold userFiled in F. rewrite Hd in F. exact F. }
  assert (Hf : In e (filter (matchesQuery [("type", "user"); ("id", user_id j)])
                            (entities s))) by (apply filter_In; auto).
  destruct (filter _ _) as [|e' l] eqn:Ef; [contradiction|].
  assert (Hin' : In e' (entities s) /\
                 matchesQuery [("type", "user"); ("id", user_id j)] e' = true).
  { apply filter_In. rewrite Ef. left. reflexivity. }
  destruct Hin' as [Hin' Hm'].
  unfold usersFiled in F. rewrite Forall_forall in F. specialize (F e' Hin').
  unfold userFiled in F. apply matches_filedAsUser in Hm'.
  destruct (data e') as [j'| | |]; try congruence. eauto.
Qed.

(** Once the user is found, [updateUser] throws, and writes nothing. *)
Lemma updateUser_throws id upd env s u :
  getUserById id env s = (Returned (Some u), s) ->
  exists e s', updateUser id upd env s = (Thrown e, s') /\ entities s' = entities s.
Proof.
  intros H. destruct (updateUser_never_writes id upd env s) as [N|(e & s' & T & He & _)].
  - exfalso. unfold updateUser in N. erewrite bind_returned in N by exact H.
    pose proof H as H'. apply getUserById_decoded in H'. destruct H' as [j ->].
    unfold newDate, getTime, mergeUser, decodeUser, bind, ret, throw in N. cbn in N.
    destruct (createdAt j); discriminate N.
  - eauto.
Qed.

Lemma generateToken_run jwt user env s :
  exists o s', generateToken jwt user env s = (o, s') /\ entities s' = entities s.
Proof.
  unfold generateToken, newDate, bind, ret, throw.
  destruct (negb (truthy (JWT_SECRET jwt))); do 2 eexists; split; reflexivity.
Qed.

Lemma usersFiled_entities s s' : entities s' = entities s -> usersFiled s -> usersFiled s'.
Proof. unfold usersFiled. intros ->. auto. Qed.

Lemma userEntityOf_filed u t : userFiled (userEntityOf u t).
Proof.
  unfold userFiled, userEntityOf, matchesQuery, userAnnotations, annotationEqb.
  cbn [data encodeUser user_id forallb existsb stringAnnotations fst snd].
  rewrite !String.eqb_refl. cbn. rewrite ?orb_true_r. reflexivity.
Qed.

(** What [authenticateUser] does in a store that answers and where users
    are filed in order. *)
Lemma authenticateUser_fails jwt wallet env s :
  storeUp env -> usersFiled s ->
  exists s',
    authenticateUser jwt wallet env s = (Returned None, s') /\
    (unknownWallet wallet s ->
     exists newUser t,
       walletAddress newUser = wallet /\ role newUser = RoleUser /\
       whitelistStatus newUser = Pending /\
       entities s' = (entities s ++ [userEntityOf newUser t])%list) /\
    (~ unknownWallet wallet s -> entities s' = entities s).
Proof.
  intros Up F. unfold authenticateUser, tryCatch.
  pose proof (findUserByWallet_answer wallet env s) as A.
  destruct (findUserByWallet_total wallet env s) as [o Ho]. rewrite Ho in A.
  cbn [fst] in A. rewrite (Up _) in A.
  erewrite bind_returned by exact Ho. cbv beta iota.
  destruct o as [user|].
  - (* the user exists *)
    destruct (filter (matchesQuery (walletQuery wallet)) (entities s)) as [|e l] eqn:Ef;
      [discriminate|].
    destruct (data e) as [j| | |] eqn:Ed; try discriminate.
    inversion A; subst user. clear A.
    assert (Hin : In e (entities s)).
    { assert (I : In e (filter (matchesQuery (walletQuery wallet)) (entities s)))
        by (rewrite Ef; left; reflexivity).
      apply filter_In in I. apply I. }
    unfold bind at 1. unfold ret at 1.
    unfold bind at 1.
    assert (Known : forall P : Prop, unknownWallet wallet s -> P).
    { intros P Hw. unfold unknownWallet in Hw. rewrite Ef in Hw. discriminate Hw. }
    destruct (generateToken_run jwt (decodeUser j) env s) as (o & s1 & -> & He1).
    destruct o as [token|err];
      [|eexists; split; [reflexivity|split; [apply Known|intros _; exact He1]]].
    unfold bind at 1. unfold newDate at 1. cbn [fst snd].
    set (s2 := mkState _ _ _ _ _).
    assert (He2 : entities s2 = entities s) by exact He1.
    assert (F2 : usersFiled s2) by (eapply usersFiled_entities; eauto).
    assert (Hin2 : In e (entities s2)) by (rewrite He2; exact Hin).
    destruct (@getUserById_finds env s2 e j Up F2 Hin2 Ed) as [u Hu].
    destruct (@updateUser_throws (user_id j) (mkUpdates None None None
                (Some (DateObj (Some (now s1))))) env s2 u Hu) as (err & s3 & T & He3).
    change (user_id (decodeUser j)) with (user_id j).
    unfold bind at 1. rewrite T.
    eexists. split; [reflexivity|split; [apply Known|intros _; congruence]].
  - (* the user is created *)
    assert (Hw : unknownWallet wallet s).
    { unfold unknownWallet.
      destruct (filter (matchesQuery (walletQuery wallet)) (entities s)) as [|e l] eqn:Ef;
        [reflexivity|].
      exfalso.
      assert (I : In e (filter (matchesQuery (walletQuery wallet)) (entities s)))
        by (rewrite Ef; left; reflexivity).
      apply filter_In in I. destruct I as [Hin Hm].
      unfold usersFiled in F. rewrite Forall_forall in F. specialize (F e Hin).
      unfold userFiled in F.
      assert (Hu : filedAsUser e = true).
      { unfold matchesQuery, walletQuery in Hm. cbn [forallb] in Hm.
        apply andb_true_iff in Hm. apply Hm. }
      destruct (data e); try discriminate; congruence. }
    pose proof (StoreFacts.createUser_run (mkUserData wallet (Some RoleUser) (Some Pending))
                  env s) as R.
    cbv zeta in R. rewrite (Up CallCreate) in R. destruct R as (s1 & R & He1).
    cbn [data_walletAddress data_role data_whitelistStatus roleOr statusOr] in R, He1.
    set (newUser := mkUser _ _ _ _ _ _ _ _) in *.
    unfold bind at 1. rewrite R. unfold bind at 1.
    destruct (generateToken_run jwt newUser env s1) as (o & s2 & -> & He2).
    assert (Grown : entities s2 = (entities s ++ [userEntityOf newUser (now s)])%list).
    { rewrite He2, He1. reflexivity. }
    destruct o as [token|err].
    2:{ eexists. split; [reflexivity|]. split; [|intros N; contradiction].
        intros _. exists newUser, (now s). repeat split. exact Grown. }
    unfold bind at 1. unfold newDate at 1. cbn [fst snd].
    set (s3 := mkState _ _ _ _ _).
    assert (He3 : entities s3 = (entities s ++ [userEntityOf newUser (now s)])%list)
      by exact Grown.
    assert (F3 : usersFiled s3).
    { unfold usersFiled. rewrite He3. apply Forall_app. split; [exact F|].
      constructor; [apply userEntityOf_filed|constructor]. }
    assert (Hin3 : In (userEntityOf newUser (now s)) (entities s3)).
    { rewrite He3. apply in_or_app. right. left. reflexivity. }
    destruct (@getUserById_finds env s3 (userEntityOf newUser (now s)) (encodeUser newUser) Up F3 Hin3 eq_refl) as [u Hu].
    change (user_id (encodeUser newUser)) with (user_id newUser) in Hu.
    destruct (@updateUser_throws (user_id newUser) (mkUpdates None None None
                (Some (DateObj (Some (now s2))))) env s3 u Hu) as (err & s4 & T & He4).
    unfold bind at 1. rewrite T.
    eexists. split; [reflexivity|]. split; [|intros N; contradiction].
    intros _. exists newUser, (now s). repeat split. congruence.
Qed.

Lemma sample_store_in_order : storeUp env0 /\ usersFiled s0.
Proof.
  split; [intros call; reflexivity|].
  unfold usersFiled. cbn [entities s0]. repeat constructor.
Qed.

(** X14.  [authenticateUser] never returns a user and a token when
    the store is up and in order: the update of [lastLogin] fails on the
    stored text of [createdAt], and the result is [null].  A wallet
    address under which no user is filed is filed nevertheless, as a new
    pending user with the role [user]; for a wallet address that is filed
    the entities stay as they were. *)
Theorem wallet_login_always_fails jwt wallet env s :
  storeUp env -> usersFiled s ->
  fst (authenticateUser jwt wallet env s) = Returned None /\
  (unknownWallet wallet s ->
   exists newUser t,
     walletAddress newUser = wallet /\ role newUser = RoleUser /\
     whitelistStatus newUser = Pending /\
     entities (snd (authenticateUser jwt wallet env s)) =
       (entities s ++ [userEntityOf newUser t])%list) /\
  (~ unknownWallet wallet s ->
   entities (snd (authenticateUser jwt wallet env s)) = entities s).
Proof.
  intros Up F. destruct (@authenticateUser_fails jwt wallet env s Up F) as (s' & -> & H).
  split; [reflexivity|exact H].
Qed.

(** Witness of X14: a known and an unknown wallet address in the sample store. *)
Lemma wallet_login_always_fails_witness :
  storeUp env0 /\ usersFiled s0 /\
  fst (authenticateUser jwt0 payer env0 s0) = Returned None /\
  entities (snd (authenticateUser jwt0 payer env0 s0)) = entities s0 /\
  unknownWallet "0xb0b" s0 /\
  fst (authenticateUser jwt0 "0xb0b" env0 s0) = Returned None /\
  List.length (entities (snd (authenticateUser jwt0 "0xb0b" env0 s0))) =
    S (List.length (entities s0)).
Proof.
  destruct sample_store_in_order as [H1 H2].
  destruct (@wallet_login_always_fails jwt0 payer env0 s0 H1 H2) as [P _].
  destruct (@wallet_login_always_fails jwt0 "0xb0b" env0 s0 H1 H2) as [Q _].
  split; [exact H1|]. split; [exact H2|]. split; [exact P|].
  split; [vm_compute; reflexivity|]. split; [reflexivity|]. split; [exact Q|].
  vm_compute. reflexivity.
Defined.

(** X15.  [POST /api/auth/wallet] never issues a token when the store
    is up and in order: it answers 401 'Authentication failed' for every
    wallet address given, and 400 when none is given. *)
Theorem login_route_never_answers_200 jwt body_walletAddress env s :
  storeUp env -> usersFiled s ->
  fst (authWallet jwt body_walletAddress env s) =
    Returned (if truthy body_walletAddress
              then Refused 401 "Authentication failed"
              else Refused 400 "walletAddress is required").
Proof.
  intros Up F. unfold authWallet, tryCatch.
  destruct (truthy body_walletAddress); [|reflexivity].
  cbn [negb].
  destruct (@authenticateUser_fails jwt (orEmpty body_walletAddress) env s Up F) as (s' & H & _).
  unfold bind. rewrite H. reflexivity.
Qed.

(** Witness of X15: the wallet address of the sample user. *)
Lemma login_route_never_answers_200_witness :
  storeUp env0 /\ usersFiled s0 /\
  fst (authWallet jwt0 (Some payer) env0 s0) =
    Returned (Refused 401 "Authentication failed").
Proof.
  destruct sample_store_in_order as [H1 H2].
  pose proof (@login_route_never_answers_200 jwt0 (Some payer) env0 s0 H1 H2) as P.
  split; [exact H1|]. split; [exact H2|exact P].
Defined.

End LoginFacts.

(* ------------------------------------------------------------------ *)
(** ** The whitelist                                                   *)
(* ------------------------------------------------------------------ *)

Module WhitelistFacts.

Import Float64 JsString Units JsDate Runtime GolemDBService BaseService Controllers.
Import AdminController Properties Sample.
Import Notions Steps.
Local Open Scope string_scope.
Local Open Scope Z_scope.

Lemma addUserToWhitelist_cases body_walletAddress env s :
  let wallet := orEmpty body_walletAddress in
  if negb (truthy body_walletAddress) then
    addUserToWhitelist body_walletAddress env s =
      (Returned (Refused 400 "walletAddress is required"), s)
  else if negb (addressFormat wallet) then
    addUserToWhitelist body_walletAddress env s =
      (Returned (Refused 400 "Invalid wallet address format"), s)
  else
    match fst (findUserByWallet wallet env s) with
    | Returned (Some _) =>
        exists s', addUserToWhitelist body_walletAddress env s =
                     (Returned (Refused 500 "Failed to whitelist user"), s') /\
                   entities s' = entities s
    | Returned None =>
        if storeFault env CallCreate then
          exists s', addUserToWhitelist body_walletAddress env s =
                       (Returned (Refused 500 "Failed to whitelist user"), s') /\
                     entities s' = entities s
        else
          exists newUser t s',
            addUserToWhitelist body_walletAddress env s =
              (Returned (Accepted (whitelistBody "User added to whitelist successfully"
                                                 newUser)), s') /\
            walletAddress newUser = wallet /\ role newUser = RoleUser /\
            whitelistStatus newUser = Approved /\
            entities s' = (entities s ++ [userEntityOf newUser t])%list
    | Thrown _ => False
    end.
Proof.
  cbv zeta. unfold addUserToWhitelist.
  destruct (truthy body_walletAddress); cbn [negb]; [|reflexivity].
  destruct (addressFormat (orEmpty body_walletAddress)); cbn [negb]; [|reflexivity].
  destruct (findUserByWallet_total (orEmpty body_walletAddress) env s) as [o Ho].
  rewrite Ho. cbn [fst].
  erewrite tryCatch_bind_returned by exact Ho.
  destruct o as [existing|].
  - (* an existing user: the update *)
    cbv beta iota. unfold tryCatch, bind, newDate. cbn [fst snd].
    match goal with
    | |- context [updateUser ?id ?upd env ?s1] =>
        destruct (updateUser_never_writes id upd env s1) as [H|(e & s' & H & He & _)];
        rewrite H
    end.
    + eexists. split; reflexivity.
    + exists s'. split; [reflexivity|exact He].
  - pose proof (StoreFacts.createUser_run
                  (mkUserData (orEmpty body_walletAddress) (Some RoleUser) (Some Approved))
                  env s) as R.
    cbv zeta in R. cbv beta iota. unfold tryCatch, bind.
    destruct (storeFault env CallCreate).
    + destruct R as (e & s' & -> & He). exists s'. split; [reflexivity|exact He].
    + destruct R as (s' & -> & He).
      cbn [data_walletAddress data_role data_whitelistStatus roleOr statusOr] in *.
      eexists. exists (now s), s'. split; [reflexivity|].
      repeat split. exact He.
Qed.

(** In a store in order that answers the query, [findUserByWallet] finds
    no user only when none is filed under the wallet address. *)
Lemma not_found_unknown wallet env s :
  storeFault env (CallQuery (walletQuery wallet)) = false -> usersFiled s ->
  fst (findUserByWallet wallet env s) = Returned None ->
  unknownWallet wallet s.
Proof.
  intros Hq F. rewrite findUserByWallet_answer, Hq. unfold unknownWallet.
  destruct (filter (matchesQuery (walletQuery wallet)) (entities s)) as [|e l] eqn:Ef;
    [reflexivity|].
  assert (I : In e (filter (matchesQuery (walletQuery wallet)) (entities s)))
    by (rewrite Ef; left; reflexivity).
  apply filter_In in I. destruct I as [Hin Hm].
  unfold usersFiled in F. rewrite Forall_forall in F. specialize (F e Hin).
  unfold userFiled in F.
  assert (Hu : filedAsUser e = true).
  { unfold matchesQuery, walletQuery in Hm. cbn [forallb] in Hm.
    apply andb_true_iff in Hm. apply Hm. }
  destruct (data e); try discriminate; congruence.
Qed.

(** X16.  [addUserToWhitelist] succeeds only when [findUserByWallet]
    finds no user for the wallet address, by creating an approved user:
    in a store in order that answers the query, that is a wallet address
    under which no user is filed; but a query the store rejects counts as
    no user, and a well-formed address is then whitelisted through a new
    user whether or not one is filed.  For a user that is found the
    answer is 500 'Failed to whitelist user'; and every refusal leaves the
    entities as they were. *)
Theorem only_unknown_wallets_are_whitelisted body_walletAddress env s :
  let wallet := orEmpty body_walletAddress in
  (forall existing,
     truthy body_walletAddress = true ->
     addressFormat wallet = true ->
     fst (findUserByWallet wallet env s) = Returned (Some existing) ->
     fst (addUserToWhitelist body_walletAddress env s) =
       Returned (Refused 500 "Failed to whitelist user")) /\
  (forall body,
     fst (addUserToWhitelist body_walletAddress env s) = Returned (Accepted body) ->
     fst (findUserByWallet wallet env s) = Returned None /\
     (storeFault env (CallQuery (walletQuery wallet)) = false -> usersFiled s ->
      unknownWallet wallet s) /\
     exists newUser t,
       body = whitelistBody "User added to whitelist successfully" newUser /\
       walletAddress newUser = wallet /\
       whitelistStatus newUser = Approved /\
       entities (snd (addUserToWhitelist body_walletAddress env s)) =
         (entities s ++ [userEntityOf newUser t])%list) /\
  (truthy body_walletAddress = true -> addressFormat wallet = true ->
   storeFault env (CallQuery (walletQuery wallet)) = true ->
   storeFault env CallCreate = false ->
   exists body,
     fst (addUserToWhitelist body_walletAddress env s) = Returned (Accepted body)) /\
  (refusedReply (fst (addUserToWhitelist body_walletAddress env s)) ->
   entities (snd (addUserToWhitelist body_walletAddress env s)) = entities s).
Proof.
  intros wallet.
  pose proof (addUserToWhitelist_cases body_walletAddress env s) as C. cbv zeta in C.
  fold wallet in C. unfold refusedReply.
  destruct (negb (truthy body_walletAddress)) eqn:Et.
  { rewrite C. cbn [fst snd]. repeat split; try discriminate.
    - intros ex T. rewrite T in Et. discriminate Et.
    - intros T. rewrite T in Et. discriminate Et. }
  destruct (negb (addressFormat wallet)) eqn:Ef.
  { rewrite C. cbn [fst snd]. repeat split; try discriminate.
    - intros ex _ T. rewrite T in Ef. discriminate Ef.
    - intros _ T. rewrite T in Ef. discriminate Ef. }
  pose proof (findUserByWallet_answer wallet env s) as A.
  destruct (fst (findUserByWallet wallet env s)) as [[u|]|e] eqn:Hf;
    [| |contradiction].
  - destruct C as (s' & -> & He). cbn [fst snd]. repeat split; try discriminate.
    + intros _ _ Hq. rewrite Hq in A. discriminate A.
    + intros _. exact He.
  - destruct (storeFault env CallCreate).
    + destruct C as (s' & -> & He). cbn [fst snd]. repeat split; try discriminate.
      intros _. exact He.
    + destruct C as (newUser & t & s' & -> & Hw & _ & Hs & He). cbn [fst snd].
      split; [intros ex _ _ E; discriminate E|]. split; [|split].
      * intros body E. inversion E. split; [reflexivity|]. split.
        -- intros Hq F. apply (@not_found_unknown wallet env s Hq F). exact Hf.
        -- exists newUser, t. auto.
      * intros _ _ _ _. eexists. reflexivity.
      * intros (code & msg & E). discriminate E.
Qed.

Lemma removeUserFromWhitelist_refuses body_walletAddress env s :
  exists code msg s',
    removeUserFromWhitelist body_walletAddress env s = (Returned (Refused code msg), s') /\
    entities s' = entities s.
Proof.
  unfold removeUserFromWhitelist.
  destruct (truthy body_walletAddress); cbn [negb];
    [|do 3 eexists; split; reflexivity].
  destruct (findUserByWallet_total (orEmpty body_walletAddress) env s) as [o Ho].
  erewrite tryCatch_bind_returned by exact Ho. cbv beta iota.
  destruct o as [user|]; [|do 3 eexists; split; reflexivity].
  unfold tryCatch, bind, newDate. cbn [fst snd].
  match goal with
  | |- context [updateUser ?id ?upd env ?s1] =>
      destruct (updateUser_never_writes id upd env s1) as [H|(e & s' & H & He & _)];
      rewrite H
  end.
  - do 3 eexists. split; reflexivity.
  - do 2 eexists. exists s'. split; [reflexivity|exact He].
Qed.

(** X17.  [whitelistUser] never returns a user, and
    [removeUserFromWhitelist] never answers with a success, whatever the
    state and the world. *)
Theorem whitelist_status_is_never_updated :
  (forall userId, preserves noUser (whitelistUser userId)) /\
  (forall body_walletAddress,
     preserves refusedReply (removeUserFromWhitelist body_walletAddress)).
Proof.
  split.
  - intros userId env s. unfold whitelistUser, bind, newDate. cbn [fst snd].
    match goal with
    | |- context [updateUser ?id ?upd env ?s1] =>
        destruct (updateUser_never_writes id upd env s1) as [H|(e & s' & H & He & _)];
        rewrite H
    end; cbn [fst snd]; (split; [intros u; discriminate|auto]).
  - intros w env s.
    destruct (removeUserFromWhitelist_refuses w env s) as (code & msg & s' & -> & He).
    split; [exists code, msg; reflexivity|exact He].
Qed.

End WhitelistFacts.

(* ------------------------------------------------------------------ *)
(** ** The authentication middleware                                   *)
(* ------------------------------------------------------------------ *)

Module MiddlewareFacts.

Import Float64 JsString Units JsDate Runtime GolemDBService BaseService Controllers.
Import AuthService AuthMiddleware App Properties Sample.
Import Notions Steps.
Local Open Scope string_scope.
Local Open Scope Z_scope.

(** The [try] block of [requireAuth]: a 401, or the user of a token that
    verifies. *)
Lemma authenticate_run jwt authHeader env s :
  exists verdict s',
    authenticate jwt authHeader env s = (Returned verdict, s') /\
    entities s' = entities s /\
    match verdict with
    | inl refusal => exists msg, refusal = mkResponse 401 (ErrorBody msg)
    | inr user =>
        exists token t decoded,
          bearerToken authHeader = Some token /\
          truthy (JWT_SECRET jwt) = true /\
          verify jwt token (orEmpty (JWT_SECRET jwt)) t = Some decoded /\
          user = userOf decoded
    end.
Proof.
  unfold authenticate, tryCatch.
  destruct (bearerToken authHeader) as [token|].
  - unfold bind, verifyToken.
    destruct (truthy (JWT_SECRET jwt)) eqn:Es; cbn [negb].
    + unfold tryCatch, bind, newDate, ret, throw. cbn [fst snd].
      destruct (verify jwt token (orEmpty (JWT_SECRET jwt)) (now s)) as [decoded|] eqn:Ev.
      * do 2 eexists. split; [reflexivity|]. split; [reflexivity|].
        exists token, (now s), decoded. auto.
      * do 2 eexists. split; [reflexivity|]. split; [reflexivity|]. eexists. reflexivity.
    + unfold throw, ret. do 2 eexists. split; [reflexivity|].
      split; [reflexivity|]. eexists. reflexivity.
  - unfold ret. do 2 eexists. split; [reflexivity|]. split; [reflexivity|].
    eexists. reflexivity.
Qed.

(** X18.  [requireAuth] either answers 401 by itself, without running
    the handler, or runs the handler with the user rebuilt from the claims
    of a bearer token that [jwt.verify] accepted; without JWT_SECRET it
    always answers 401. *)
Theorem requireAuth_runs_handler_only_on_verified_token jwt authHeader req env s :
  (denies (requireAuth jwt) authHeader req env s 401 \/
   exists decoded, admits jwt (requireAuth jwt) authHeader req env s decoded) /\
  (truthy (JWT_SECRET jwt) = false -> denies (requireAuth jwt) authHeader req env s 401).
Proof.
  destruct (authenticate_run jwt authHeader env s) as (verdict & s' & H & He & V).
  assert (D : match verdict with
              | inl _ => denies (requireAuth jwt) authHeader req env s 401
              | inr _ => exists decoded,
                           admits jwt (requireAuth jwt) authHeader req env s decoded
              end).
  { destruct verdict as [refusal|user].
    - destruct V as [msg ->]. exists msg, s'. split; [exact He|].
      intros next. unfold requireAuth, bind. rewrite H. reflexivity.
    - destruct V as (token & t & decoded & Hb & Hs & Hv & ->).
      exists decoded, token, t, s'. repeat split; auto.
      intros next. unfold requireAuth, bind. rewrite H. reflexivity. }
  split.
  - destruct verdict; auto.
  - intros Hs. destruct verdict as [refusal|user]; [exact D|].
    destruct V as (token & t & decoded & _ & Hs' & _). congruence.
Qed.

Lemma requireAuth_run jwt authHeader req env s :
  exists verdict s',
    entities s' = entities s /\
    (forall k : Next,
       requireAuth jwt authHeader req k env s =
         match verdict with
         | inl refusal => (Returned refusal, s')
         | inr user => k (setUser user req) env s'
         end) /\
    match verdict with
    | inl refusal => exists msg, refusal = mkResponse 401 (ErrorBody msg)
    | inr user =>
        exists token t decoded,
          bearerToken authHeader = Some token /\
          truthy (JWT_SECRET jwt) = true /\
          verify jwt token (orEmpty (JWT_SECRET jwt)) t = Some decoded /\
          user = userOf decoded
    end.
Proof.
  destruct (authenticate_run jwt authHeader env s) as (verdict & s' & H & He & V).
  exists verdict, s'. split; [exact He|]. split; [|exact V].
  intros k. unfold requireAuth, bind. rewrite H. destruct verdict; reflexivity.
Qed.

Lemma requireAdmin_verdict jwt authHeader req env s :
  denies (requireAdmin jwt) authHeader req env s 401 \/
  denies (requireAdmin jwt) authHeader req env s 403 \/
  exists decoded,
    admits jwt (requireAdmin jwt) authHeader req env s decoded /\
    tok_role decoded = RoleAdmin.
Proof.
  destruct (requireAuth_run jwt authHeader req env s) as (verdict & s' & He & R & V).
  destruct verdict as [refusal|user].
  - destruct V as [msg ->].
    left. exists msg, s'. split; [exact He|]. intros next. unfold requireAdmin. apply R.
  - destruct V as (token & t & decoded & Hb & Hs & Hv & ->).
    destruct (tok_role decoded) eqn:Er.
    + right. left. eexists. exists s'. split; [exact He|].
      intros next. unfold requireAdmin. rewrite R.
      cbn [setUser req_user userOf role]. rewrite Er. reflexivity.
    + right. right. exists decoded. split; [|exact Er].
      exists token, t, s'. repeat split; auto.
      intros next. unfold requireAdmin. rewrite R.
      cbn [setUser req_user userOf role]. rewrite Er. reflexivity.
Qed.

Lemma requireWhitelist_verdict jwt authHeader req env s :
  denies (requireWhitelist jwt) authHeader req env s 401 \/
  denies (requireWhitelist jwt) authHeader req env s 403 \/
  exists decoded,
    admits jwt (requireWhitelist jwt) authHeader req env s decoded /\
    tok_whitelistStatus decoded = Approved.
Proof.
  destruct (requireAuth_run jwt authHeader req env s) as (verdict & s' & He & R & V).
  destruct verdict as [refusal|user].
  - destruct V as [msg ->].
    left. exists msg, s'. split; [exact He|]. intros next. unfold requireWhitelist. apply R.
  - destruct V as (token & t & decoded & Hb & Hs & Hv & ->).
    destruct (isApproved (tok_whitelistStatus decoded)) eqn:Ea.
    + right. right. exists decoded. split.
      * exists token, t, s'. repeat split; auto.
        intros next. unfold requireWhitelist. rewrite R.
        cbn [setUser req_user userOf whitelistStatus]. rewrite Ea. reflexivity.
      * destruct (tok_whitelistStatus decoded); try discriminate. reflexivity.
    + right. left. eexists. exists s'. split; [exact He|].
      intros next. unfold requireWhitelist. rewrite R.
      cbn [setUser req_user userOf whitelistStatus]. rewrite Ea. reflexivity.
Qed.

(** X19.  [requireAdmin] runs the handler only for a verified token with
    the role [admin], [requireWhitelist] only for one with the whitelist
    status [approved]; otherwise they answer 401 or 403 by themselves. *)
Theorem role_and_whitelist_guards jwt authHeader req env s :
  (denies (requireAdmin jwt) authHeader req env s 401 \/
   denies (requireAdmin jwt) authHeader req env s 403 \/
   exists decoded,
     admits jwt (requireAdmin jwt) authHeader req env s decoded /\
     tok_role decoded = RoleAdmin) /\
  (denies (requireWhitelist jwt) authHeader req env s 401 \/
   denies (requireWhitelist jwt) authHeader req env s 403 \/
   exists decoded,
     admits jwt (requireWhitelist jwt) authHeader req env s decoded /\
     tok_whitelistStatus decoded = Approved).
Proof.
  split; [apply requireAdmin_verdict|apply requireWhitelist_verdict].
Qed.

(** X20.  [requireContentAccess] runs the handler only for a verified
    token with the whitelist status [approved]: the user rebuilt from a
    token has no subscription, so the subscription branch never
    admits. *)
Theorem content_access_is_whitelist_only jwt authHeader req env s :
  denies (requireContentAccess jwt) authHeader req env s 401 \/
  denies (requireContentAccess jwt) authHeader req env s 403 \/
  exists decoded,
    admits jwt (requireContentAccess jwt) authHeader req env s decoded /\
    tok_whitelistStatus decoded = Approved.
Proof.
  destruct (requireAuth_run jwt authHeader req env s) as (verdict & s' & He & R & V).
  destruct verdict as [refusal|user].
  - destruct V as [msg ->].
    left. exists msg, s'. split; [exact He|]. intros next.
    unfold requireContentAccess. apply R.
  - destruct V as (token & t & decoded & Hb & Hs & Hv & ->).
    destruct (isApproved (tok_whitelistStatus decoded)) eqn:Ea.
    + right. right. exists decoded. split.
      * exists token, t, s'. repeat split; auto.
        intros next. unfold requireContentAccess. rewrite R.
        cbn [setUser req_user userOf whitelistStatus]. rewrite Ea. reflexivity.
      * destruct (tok_whitelistStatus decoded); try discriminate. reflexivity.
    + right. left. eexists. exists s'. split; [exact He|].
      intros next. unfold requireContentAccess. rewrite R.
      cbn [setUser req_user userOf whitelistStatus]. rewrite Ea. reflexivity.
Qed.

(** X21.  [optionalAuth] always runs the handler and leaves the
    entities as they were; the request is the one received, or carries the
    user of a bearer token that [jwt.verify] accepted. *)
Theorem optionalAuth_never_refuses jwt authHeader req env s :
  exists req' s',
    entities s' = entities s /\
    (forall next : Next, optionalAuth jwt authHeader req next env s = next req' env s') /\
    (req' = req \/
     exists token t decoded,
       bearerToken authHeader = Some token /\
       verify jwt token (orEmpty (JWT_SECRET jwt)) t = Some decoded /\
       req' = setUser (userOf decoded) req).
Proof.
  unfold optionalAuth, optionalUser, tryCatch.
  destruct (bearerToken authHeader) as [token|].
  - unfold bind at 2. unfold verifyToken.
    destruct (truthy (JWT_SECRET jwt)); cbn [negb].
    + unfold tryCatch, bind, newDate, ret, throw. cbn [fst snd].
      destruct (verify jwt token (orEmpty (JWT_SECRET jwt)) (now s)) as [decoded|] eqn:Ev.
      * do 2 eexists. split; [|split; [intros next; reflexivity|]]; [reflexivity|].
        right. exists token, (now s), decoded. auto.
      * do 2 eexists. split; [|split; [intros next; reflexivity|]]; [reflexivity|].
        left. reflexivity.
    + unfold bind, throw, ret.
      do 2 eexists. split; [|split; [intros next; reflexivity|]]; [reflexivity|].
      left. reflexivity.
  - unfold bind, ret.
    do 2 eexists. split; [|split; [intros next; reflexivity|]]; [reflexivity|].
    left. reflexivity.
Qed.

End MiddlewareFacts.

(* ------------------------------------------------------------------ *)
(** ** The routing table                                               *)
(* ------------------------------------------------------------------ *)

Module RoutingFacts.

Import Float64 JsString Units JsDate Runtime GolemDBService BaseService Controllers.
Import AuthService AuthMiddleware App Properties Sample.
Import Notions Fixtures Steps.
Local Open Scope string_scope.
Local Open Scope Z_scope.

(** What matches [/api/videos/search] matches [/api/videos/:id]. *)
Lemma search_matches_id pieces params :
  matchPath (api [Lit "videos"; Lit "search"]) pieces = Some params ->
  exists params', matchPath (api [Lit "videos"; Param "id"]) pieces = Some params'.
Proof.
  unfold api. destruct pieces as [|p1 [|p2 [|p3 [|p4 rest]]]]; cbn [matchPath];
    try discriminate.
  - destruct (String.eqb _ _); discriminate.
  - destruct (String.eqb _ _); [|discriminate]. destruct (String.eqb _ _); discriminate.
  - destruct (String.eqb (toLowerCase "api") (toLowerCase p1)); [|discriminate].
    destruct (String.eqb (toLowerCase "videos") (toLowerCase p2)); [|discriminate].
    destruct (String.eqb (toLowerCase "search") (toLowerCase p3)) eqn:E; [|discriminate].
    intros _. destruct p3 as [|c r]; [discriminate E|].
    cbn [String.eqb option_map]. eauto.
  - destruct (String.eqb _ _); [|discriminate]. destruct (String.eqb _ _); [|discriminate].
    destruct (String.eqb _ _); discriminate.
Qed.

Ltac next_route :=
  match goal with
  | |- context [matchPath ?pattern ?pieces] =>
      let E := fresh "E" in
      destruct (matchPath pattern pieces) eqn:E
  end.

(** The first route that matches is never the one of [searchVideos]. *)
Lemma firstMatch_not_search method pieces :
  option_map (fun found => route_endpoint (fst found)) (firstMatch routes method pieces)
    <> Some SearchVideos.
Proof.
  unfold routes.
  destruct method; cbn [firstMatch handlesMethod methodEqb route_method route_path orb andb];
    try discriminate.
  - (* GET *)
    do 2 (next_route; [discriminate|]).
    next_route; [discriminate|].
    next_route.
    + destruct (search_matches_id _ E2) as [p' Hp]. congruence.
    + repeat (next_route; [discriminate|]). discriminate.
  - (* HEAD *)
    do 2 (next_route; [discriminate|]).
    next_route; [discriminate|].
    next_route.
    + destruct (search_matches_id _ E2) as [p' Hp]. congruence.
    + repeat (next_route; [discriminate|]). discriminate.
  - repeat (next_route; [discriminate|]). discriminate.
  - repeat (next_route; [discriminate|]). discriminate.
  - repeat (next_route; [discriminate|]). discriminate.
Qed.

(** X22.  No request reaches [searchVideos]: for every method and path
    the route [/api/videos/:id], registered before [/api/videos/search],
    answers first; [GET /api/videos/search] is answered by
    [getVideoById]. *)
Theorem search_route_is_shadowed :
  (forall method path, endpointOf method path <> Some SearchVideos) /\
  endpointOf GET "/api/videos/search" = Some GetVideoById.
Proof.
  split; [|reflexivity].
  intros method path. unfold endpointOf, dispatch.
  destruct (segmentsOf path) as [pieces|]; [|discriminate].
  apply firstMatch_not_search.
Qed.

Ltac eval_literals :=
  repeat match goal with
  | |- context [String.eqb (toLowerCase ?a) ?b] =>
      let v := eval vm_compute in (String.eqb (toLowerCase a) b) in
      match v with
      | true => change (String.eqb (toLowerCase a) b) with true
      | false => change (String.eqb (toLowerCase a) b) with false
      end
  end.

Lemma matchPath_lit text pattern piece pieces :
  matchPath (Lit text :: pattern) (piece :: pieces) =
    if String.eqb (toLowerCase text) (toLowerCase piece)
    then matchPath pattern pieces else None.
Proof. reflexivity. Qed.

(** Every route that matches a path under [/api/admin] is registered
    with [requireAdmin]. *)
Lemma admin_route_guard method first second rest route params :
  String.eqb (toLowerCase first) "api" = true ->
  String.eqb (toLowerCase second) "admin" = true ->
  firstMatch routes method (first :: second :: rest) = Some (route, params) ->
  route_guard route = RequireAdmin.
Proof.
  intros H1 H2. apply String.eqb_eq in H1, H2.
  unfold routes, api.
  destruct method; cbn [firstMatch handlesMethod methodEqb route_method route_path orb andb];
    try discriminate.
  all: rewrite !matchPath_lit, H1, H2; eval_literals; cbv iota.
  all: repeat (next_route; [intros R; inversion R; reflexivity|]).
  all: discriminate.
Qed.

(** What a parameter captures is a piece of the path. *)
Lemma matchPath_captures pattern : forall pieces captures name raw,
  matchPath pattern pieces = Some captures -> In (name, raw) captures -> In raw pieces.
Proof.
  induction pattern as [|[text|param] pattern IH]; intros [|piece pieces] captures name raw;
    cbn [matchPath]; try discriminate.
  - intros H. inversion H. contradiction.
  - destruct (String.eqb _ _); [|discriminate]. intros H I. right. eapply IH; eauto.
  - destruct (String.eqb piece ""); [discriminate|].
    destruct (matchPath pattern pieces) as [rest|] eqn:E; [|discriminate].
    cbn [option_map]. intros H I. inversion H; subst captures.
    destruct I as [I|I]; [inversion I; left; reflexivity|].
    right. eapply IH; eauto.
Qed.

Lemma decodeParams_fails decode captures :
  decodeParams decode captures = None ->
  exists name raw, In (name, raw) captures /\ decode raw = None.
Proof.
  induction captures as [|[name raw] rest IH]; cbn [decodeParams]; [discriminate|].
  destruct (decode raw) eqn:E; [|intros _; exists name, raw; split; [left; reflexivity|exact E]].
  destruct (decodeParams decode rest); [discriminate|].
  intros _. destruct (IH eq_refl) as (n & r & I & H). exists n, r. split; [right; exact I|exact H].
Qed.

(** The router and the table: a request is taken to the first route whose
    method and path match, with its parameters decoded, unless a piece of
    the path does not decode; to no route when none matches. *)
Lemma route_dispatched decode table method pieces :
  match route decode table method pieces with
  | Routed answering params =>
      exists captures,
        firstMatch table method pieces = Some (answering, captures) /\
        decodeParams decode captures = Some params
  | BadParameter => exists piece, In piece pieces /\ decode piece = None
  | NoRoute => firstMatch table method pieces = None
  end.
Proof.
  induction table as [|candidate table IH]; cbn [route firstMatch]; [reflexivity|].
  destruct (matchPath (route_path candidate) pieces) as [captures|] eqn:Em.
  - destruct (decodeParams decode captures) as [params|] eqn:Ed.
    + destruct (handlesMethod candidate method); [|exact IH].
      exists captures. split; [reflexivity|exact Ed].
    + destruct (decodeParams_fails _ _ Ed) as (name & raw & I & H).
      exists raw. split; [|exact H]. eapply matchPath_captures; eauto.
  - destruct (handlesMethod candidate method); exact IH.
Qed.

(** The router never takes a request to [searchVideos], whatever the
    decoding of the parameters. *)
Lemma search_never_served decode method pieces answering params :
  route decode routes method pieces = Routed answering params ->
  route_endpoint answering <> SearchVideos.
Proof.
  intros H. pose proof (route_dispatched decode routes method pieces) as R.
  rewrite H in R. destruct R as (captures & Ef & _).
  pose proof (firstMatch_not_search method pieces) as N.
  rewrite Ef in N. cbn [option_map fst] in N. congruence.
Qed.

(** X23.  A request that reaches the routes, to a path under
    [/api/admin], whatever its method and the case of the letters: it is
    answered with 401, 403 or 404, or with 500 'Internal server error'
    when the path or a piece of it does not decode, and the entities stay
    as they were, unless it carries a bearer token that [jwt.verify]
    accepts with the role [admin]; only then a handler runs, the one of
    the first route that matches, which is registered with
    [requireAdmin]. *)
Theorem admin_paths_need_an_admin_token jwt decode handlers method path authHeader
    req env s :
  underAdmin path = true ->
  (exists resp s',
     serve jwt decode handlers method path authHeader req env s = (Returned resp, s') /\
     entities s' = entities s /\
     (statusCode resp = 401 \/ statusCode resp = 403 \/ statusCode resp = 404 \/
      resp = mkResponse 500 (ErrorBody "Internal server error") /\
      (decode path = None \/
       exists pieces piece,
         segmentsOf path = Some pieces /\ In piece pieces /\ decode piece = None))) \/
  (exists answering captures params token t decoded s',
     dispatch method path = Some (answering, captures) /\
     route_guard answering = RequireAdmin /\
     decodeParams decode captures = Some params /\
     bearerToken authHeader = Some token /\
     verify jwt token (orEmpty (JWT_SECRET jwt)) t = Some decoded /\
     tok_role decoded = RoleAdmin /\
     entities s' = entities s /\
     serve jwt decode handlers method path authHeader req env s =
       handlers (route_endpoint answering) params (setUser (userOf decoded) req) env s').
Proof.
  unfold underAdmin, serve, dispatch. intros U.
  destruct (segmentsOf path) as [[|first [|second rest]]|]; try discriminate U.
  apply andb_true_iff in U. destruct U as [U1 U2].
  pose proof (route_dispatched decode routes method (first :: second :: rest)) as R.
  destruct (route decode routes method (first :: second :: rest))
    as [| |answering params].
  - left. unfold notFound. destruct (decode path) eqn:Ep; do 2 eexists;
      (split; [reflexivity|]); (split; [reflexivity|]).
    + right. right. left. reflexivity.
    + do 3 right. split; [reflexivity|]. left. reflexivity.
  - left. destruct R as (piece & I & H). do 2 eexists.
    split; [reflexivity|]. split; [reflexivity|]. do 3 right.
    split; [reflexivity|]. right. exists (first :: second :: rest), piece. auto.
  - destruct R as (captures & Ef & Ed).
    pose proof (@admin_route_guard method first second rest answering captures U1 U2 Ef)
      as G.
    rewrite G. cbn [guardOf].
    destruct (MiddlewareFacts.requireAdmin_verdict jwt authHeader req env s)
      as [D|[D|(decoded & A & Hr)]].
    + left. destruct D as (msg & s' & He & H). do 2 eexists.
      split; [apply H|]. split; [exact He|]. left. reflexivity.
    + left. destruct D as (msg & s' & He & H). do 2 eexists.
      split; [apply H|]. split; [exact He|]. right. left. reflexivity.
    + right. destruct A as (token & t & s' & Hb & _ & Hv & He & H).
      exists answering, captures, params, token, t, decoded, s'. repeat split; auto.
Qed.

(** Witness of X23: the whitelist route, with the token of a user and of an admin. *)
Lemma admin_paths_need_an_admin_token_witness :
  let path := "/API/Admin/users/whitelist/" in
  let asUser := Some "Bearer token-of-u1" in
  underAdmin path = true /\
  fst (serve jwt0 decodePlain noHandlers POST path asUser bare env0 s0) =
    Returned (mkResponse 403 (ErrorBody "Admin privileges required")) /\
  fst (serve jwt0 decodePlain noHandlers POST path (Some "Bearer token-of-a1") bare
             env0 s0) =
    Returned (mkResponse 501 (ErrorBody "Not implemented")) /\
  ((exists resp s',
      serve jwt0 decodePlain noHandlers POST path asUser bare env0 s0 = (Returned resp, s') /\
      entities s' = entities s0 /\
      (statusCode resp = 401 \/ statusCode resp = 403 \/ statusCode resp = 404 \/
       resp = mkResponse 500 (ErrorBody "Internal server error") /\
       (decodePlain path = None \/
        exists pieces piece,
          segmentsOf path = Some pieces /\ In piece pieces /\
          decodePlain piece = None))) \/
   (exists answering captures params token t decoded s',
      dispatch POST path = Some (answering, captures) /\
      route_guard answering = RequireAdmin /\
      decodeParams decodePlain captures = Some params /\
      bearerToken asUser = Some token /\
      verify jwt0 token (orEmpty (JWT_SECRET jwt0)) t = Some decoded /\
      tok_role decoded = RoleAdmin /\
      entities s' = entities s0 /\
      serve jwt0 decodePlain noHandlers POST path asUser bare env0 s0 =
        noHandlers (route_endpoint answering) params (setUser (userOf decoded) bare)
                   env0 s')).
Proof.
  intros path asUser.
  assert (H1 : underAdmin path = true) by (vm_compute; reflexivity).
  pose proof (@admin_paths_need_an_admin_token jwt0 decodePlain noHandlers POST
                path asUser bare env0 s0 H1) as P.
  split; [exact H1|]. split; [vm_compute; reflexivity|].
  split; [vm_compute; reflexivity|exact P].
Defined.

End RoutingFacts.

(* ------------------------------------------------------------------ *)
(** ** The helpers                                                     *)
(* ------------------------------------------------------------------ *)


Module HelperFacts.

Import Float64 JsString Units JsDate Helpers.
Import Notions UnitsFacts.
Local Open Scope string_scope.
Local Open Scope Z_scope.

(** *** [metadataToObject] *)

Section Metadata.

Variable parseDate : string -> option Z.

Lemma find_assign_same key value props :
  find (fun kv => String.eqb (fst kv) key) (assign key value props) = Some (key, value)
  \/ exists k, String.eqb k key = true /\
               find (fun kv => String.eqb (fst kv) key) (assign key value props)
                 = Some (k, value).
Proof.
  induction props as [|[k v] rest IH]; cbn [assign find fst].
  - rewrite String.eqb_refl. left. reflexivity.
  - destruct (String.eqb k key) eqn:E; cbn [find fst]; rewrite E; [|exact IH].
    right. exists k. auto.
Qed.

Lemma lookup_assign_same key value props :
  option_map snd (find (fun kv => String.eqb (fst kv) key) (assign key value props))
    = Some value.
Proof.
  destruct (find_assign_same key value props) as [->|(k & _ & ->)]; reflexivity.
Qed.

Lemma lookup_assign_other key key' value props :
  String.eqb key' key = false ->
  find (fun kv => String.eqb (fst kv) key) (assign key' value props) =
    find (fun kv => String.eqb (fst kv) key) props.
Proof.
  intros N. induction props as [|[k v] rest IH]; cbn [assign find fst].
  - rewrite N. reflexivity.
  - destruct (String.eqb k key') eqn:E; cbn [find fst].
    + apply String.eqb_eq in E. subst k. rewrite N. reflexivity.
    + destruct (String.eqb k key); [reflexivity|exact IH].
Qed.

Lemma setProperty_lookup obj item key :
  getOwnProperty (setProperty obj (meta_key item) (converted parseDate item)) key =
    if String.eqb key "__proto__" then getOwnProperty obj key
    else if String.eqb (meta_key item) key then Some (converted parseDate item)
    else getOwnProperty obj key.
Proof.
  unfold setProperty, getOwnProperty.
  destruct (String.eqb (meta_key item) "__proto__") eqn:Ep.
  - apply String.eqb_eq in Ep.
    assert (R : properties match converted parseDate item with
                           | MDate _ => mkObject (properties obj) (Some (converted parseDate item))
                           | _ => obj
                           end = properties obj) by (destruct (converted parseDate item); reflexivity).
    rewrite R. rewrite Ep.
    destruct (String.eqb key "__proto__") eqn:Ek; [reflexivity|].
    rewrite String.eqb_sym, Ek. reflexivity.
  - cbn [properties].
    destruct (String.eqb (meta_key item) key) eqn:Ek.
    + apply String.eqb_eq in Ek. subst key. rewrite Ep.
      apply lookup_assign_same.
    + rewrite (@lookup_assign_other key (meta_key item) (converted parseDate item) (properties obj) Ek).
      destruct (String.eqb key "__proto__"); reflexivity.
Qed.

Lemma find_append {A} (f : A -> bool) l1 l2 :
  find f (l1 ++ l2)%list = match find f l1 with Some x => Some x | None => find f l2 end.
Proof.
  induction l1 as [|a l1 IH]; cbn [app find]; [reflexivity|].
  destruct (f a); [reflexivity|exact IH].
Qed.

Lemma fold_lookup items : forall obj key,
  getOwnProperty
    (fold_left (fun obj item => setProperty obj (meta_key item) (converted parseDate item))
               items obj) key =
    if String.eqb key "__proto__" then getOwnProperty obj key
    else match lastWithKey key items with
         | Some item => Some (converted parseDate item)
         | None => getOwnProperty obj key
         end.
Proof.
  induction items as [|item items IH]; intros obj key.
  - cbn [fold_left]. unfold lastWithKey. cbn [rev find].
    destruct (String.eqb key "__proto__"); reflexivity.
  - cbn [fold_left]. rewrite IH, setProperty_lookup.
    destruct (String.eqb key "__proto__"); [reflexivity|].
    unfold lastWithKey. cbn [rev]. rewrite find_append.
    destruct (find _ (rev items)) as [later|]; [reflexivity|].
    cbn [find]. destruct (String.eqb (meta_key item) key); reflexivity.
Qed.

(** X24.  The object [metadataToObject] builds has, under each key, the
    converted value of the last item of the array with that key, and never
    an own property [__proto__]; [inferValueType] of a converted value
    gives the type of the item back for [number], [boolean] and [date],
    and [string] for every other type. *)
Theorem metadata_last_item_wins items key :
  getOwnProperty (metadataToObject parseDate items) key =
    (if String.eqb key "__proto__" then None
     else option_map (converted parseDate) (lastWithKey key items)) /\
  forall value type,
    inferValueType (convertValueType parseDate value type) =
      if String.eqb type "number" then "number"
      else if String.eqb type "boolean" then "boolean"
      else if String.eqb type "date" then "date"
      else "string".
Proof.
  split.
  - unfold metadataToObject.
    change (fun obj item =>
              setProperty obj (meta_key item)
                (convertValueType parseDate (meta_value item) (meta_type item)))
      with (fun obj item => setProperty obj (meta_key item) (converted parseDate item)).
    rewrite fold_lookup. destruct (String.eqb key "__proto__"); [reflexivity|].
    destruct (lastWithKey key items); reflexivity.
  - intros value type. unfold convertValueType.
    destruct (String.eqb type "number"); [reflexivity|].
    destruct (String.eqb type "boolean"); [reflexivity|].
    destruct (String.eqb type "date"); reflexivity.
Qed.

End Metadata.

(** *** [formatDate] *)


Lemma append_assoc a b c : (a ++ b) ++ c = a ++ (b ++ c).
Proof. induction a as [|x a IH]; [reflexivity|]. rewrite !StoredDateFacts.append_cons, IH. reflexivity. Qed.

Lemma append_empty w : w ++ "" = w.
Proof. induction w as [|c w IH]; [reflexivity|]. rewrite StoredDateFacts.append_cons, IH. reflexivity. Qed.

Lemma first_piece_char c r :
  Ascii.eqb c "." = false ->
  hd "" (split "." (String c r)) = String c (hd "" (split "." r)).
Proof.
  intros N. cbn [split]. rewrite N. destruct (split "." r); reflexivity.
Qed.

Lemma first_piece_dot r : hd "" (split "." (String "." r)) = "".
Proof. reflexivity. Qed.

Lemma first_piece_digits w r :
  allDigits w = true -> hd "" (split "." (w ++ r)) = w ++ hd "" (split "." r).
Proof.
  induction w as [|c w IH]; intros A; [reflexivity|].
  cbn [allDigits] in A. apply andb_true_iff in A. destruct A as [Hc Hw].
  rewrite !StoredDateFacts.append_cons, first_piece_char, IH by (auto using digit_neq).
  reflexivity.
Qed.

Lemma pad_allDigits k n : allDigits (pad k n) = true.
Proof. unfold pad. destruct (@fixedDigits_spec k n "" eq_refl) as (A & _). exact A. Qed.

(** The text of the year has no point. *)
Lemma first_piece_year y r :
  hd "" (split "."
           ((if (0 <=? y) && (y <=? 9999) then pad 4 y
             else if y <? 0 then "-" ++ pad 6 (- y) else "+" ++ pad 6 y) ++ r)) =
  (if (0 <=? y) && (y <=? 9999) then pad 4 y
   else if y <? 0 then "-" ++ pad 6 (- y) else "+" ++ pad 6 y) ++ hd "" (split "." r).
Proof.
  destruct ((0 <=? y) && (y <=? 9999)).
  - apply first_piece_digits, pad_allDigits.
  - destruct (y <? 0).
    + change ("-" ++ pad 6 (- y)) with (String "-" (pad 6 (- y))).
      rewrite !StoredDateFacts.append_cons, first_piece_char by reflexivity.
      rewrite first_piece_digits by apply pad_allDigits. reflexivity.
    + change ("+" ++ pad 6 y) with (String "+" (pad 6 y)).
      rewrite !StoredDateFacts.append_cons, first_piece_char by reflexivity.
      rewrite first_piece_digits by apply pad_allDigits. reflexivity.
Qed.

Lemma first_piece_mark (c : ascii) r :
  Ascii.eqb c "." = false ->
  hd "" (split "." (String c "" ++ r)) = String c "" ++ hd "" (split "." r).
Proof. intros N. rewrite !StoredDateFacts.append_cons. apply first_piece_char. exact N. Qed.

(** Two instants of the same second have the same calendar fields down
    to the second. *)
Lemma same_second t t' :
  t / 1000 = t' / 1000 ->
  Day t = Day t' /\ TimeWithinDay t / 1000 = TimeWithinDay t' / 1000.
Proof.
  intros H. unfold Day, TimeWithinDay, msPerDay.
  change 86400000 with (1000 * 86400).
  rewrite <- !Z.div_div by lia. rewrite H. split; [reflexivity|].
  rewrite !Z.rem_mul_r by lia.
  rewrite !(Z.mul_comm 1000), !Z.div_add by lia.
  rewrite !(Z.div_small (_ mod 1000)) by (apply Z.mod_pos_bound; lia).
  rewrite H. reflexivity.
Qed.

(** X25.  [formatDate] gives the ISO text of the date without its
    milliseconds: two dates within the same second are formatted alike.
    On an invalid date it throws. *)
Theorem formatDate_drops_milliseconds t :
  (exists text,
     toISOString t = text ++ "." ++ pad 3 (TimeWithinDay t mod 1000) ++ "Z" /\
     formatDate (Some t) = Some (text ++ "Z")) /\
  (forall t', t / 1000 = t' / 1000 -> formatDate (Some t) = formatDate (Some t')) /\
  formatDate None = None.
Proof.
  assert (F : forall u,
    formatDate (Some u) =
      Some (((if (0 <=? YearFromTime u) && (YearFromTime u <=? 9999)
              then pad 4 (YearFromTime u)
              else if YearFromTime u <? 0 then "-" ++ pad 6 (- YearFromTime u)
                   else "+" ++ pad 6 (YearFromTime u))
             ++ "-" ++ pad 2 (MonthFromTime u + 1) ++ "-" ++ pad 2 (DateFromTime u)
             ++ "T" ++ pad 2 (TimeWithinDay u / 3600000) ++ ":"
             ++ pad 2 (TimeWithinDay u / 60000 mod 60) ++ ":"
             ++ pad 2 (TimeWithinDay u / 1000 mod 60)) ++ "Z")).
  { intros u. unfold formatDate, toISOString. cbv zeta. f_equal. f_equal.
    rewrite first_piece_year.
    rewrite (first_piece_mark "-") by reflexivity.
    rewrite first_piece_digits by apply pad_allDigits.
    rewrite (first_piece_mark "-") by reflexivity.
    rewrite first_piece_digits by apply pad_allDigits.
    rewrite (first_piece_mark "T") by reflexivity.
    rewrite first_piece_digits by apply pad_allDigits.
    rewrite (first_piece_mark ":") by reflexivity.
    rewrite first_piece_digits by apply pad_allDigits.
    rewrite (first_piece_mark ":") by reflexivity.
    rewrite first_piece_digits by apply pad_allDigits.
    change ("." ++ pad 3 (TimeWithinDay u mod 1000) ++ "Z")
      with (String "." (pad 3 (TimeWithinDay u mod 1000) ++ "Z")).
    rewrite first_piece_dot. repeat f_equal. }
  split; [|split; [|reflexivity]].
  - eexists. split; [|apply F].
    unfold toISOString. cbv zeta. rewrite !append_assoc. reflexivity.
  - intros t' H. rewrite !F. destruct (@same_second t t' H) as [D W].
    assert (Y : YearFromTime t = YearFromTime t') by (unfold YearFromTime; congruence).
    assert (Dy : DayWithinYear t = DayWithinYear t')
      by (unfold DayWithinYear; congruence).
    assert (L : InLeapYear t = InLeapYear t') by (unfold InLeapYear; rewrite Y; reflexivity).
    assert (Mo : MonthFromTime t = MonthFromTime t')
      by (unfold MonthFromTime; rewrite Dy, L; reflexivity).
    assert (Da : DateFromTime t = DateFromTime t')
      by (unfold DateFromTime; rewrite Dy, L, Mo; reflexivity).
    assert (Hh : TimeWithinDay t / 3600000 = TimeWithinDay t' / 3600000).
    { change 3600000 with (1000 * 3600). rewrite <- !Z.div_div by lia. congruence. }
    assert (Mi : TimeWithinDay t / 60000 = TimeWithinDay t' / 60000).
    { change 60000 with (1000 * 60). rewrite <- !Z.div_div by lia. congruence. }
    rewrite Y, Mo, Da, Hh, Mi, W. reflexivity.
Qed.

End HelperFacts.

(* ------------------------------------------------------------------ *)
(** ** The store over a sequence of requests                           *)
(* ------------------------------------------------------------------ *)

Module GrowthFacts.

Import Float64 JsString Units JsDate Runtime GolemDBService BaseService Controllers.
Import AuthService AuthMiddleware App AdminController Properties Sample.
Import Notions Steps.
Local Open Scope string_scope.
Local Open Scope Z_scope.

Section Appending.

Variable P : Entity -> Prop.

Lemma appends_ret {A} (a : A) : appends P (ret a).
Proof. intros env s. exists []. rewrite app_nil_r. split; [reflexivity|constructor]. Qed.

Lemma appends_throw {A} msg : appends P (@throw A msg).
Proof. intros env s. exists []. rewrite app_nil_r. split; [reflexivity|constructor]. Qed.

Lemma appends_bind {A B} (m : M A) (f : A -> M B) :
  appends P m -> (forall a, appends P (f a)) -> appends P (bind m f).
Proof.
  intros Hm Hf env s. unfold bind. destruct (Hm env s) as (a1 & E1 & F1).
  destruct (m env s) as [[a|e] s1]; cbn [snd] in *.
  - destruct (Hf a env s1) as (a2 & E2 & F2). exists (a1 ++ a2)%list.
    rewrite E2, E1, app_assoc. split; [reflexivity|apply Forall_app; auto].
  - exists a1. auto.
Qed.

Lemma appends_tryCatch {A} (m : M A) h :
  appends P m -> (forall e, appends P (h e)) -> appends P (tryCatch m h).
Proof.
  intros Hm Hh env s. unfold tryCatch. destruct (Hm env s) as (a1 & E1 & F1).
  destruct (m env s) as [[a|e] s1]; cbn [snd] in *.
  - exists a1. auto.
  - destruct (Hh e env s1) as (a2 & E2 & F2). exists (a1 ++ a2)%list.
    rewrite E2, E1, app_assoc. split; [reflexivity|apply Forall_app; auto].
Qed.

(** What leaves the entities alone appends nothing. *)
Lemma appends_quiet {A} (m : M A) :
  (forall env s, entities (snd (m env s)) = entities s) -> appends P m.
Proof.
  intros H env s. exists []. rewrite app_nil_r. split; [apply H|constructor].
Qed.

Lemma appends_preserves {A} (Q : Outcome A -> Prop) (m : M A) :
  preserves Q m -> appends P m.
Proof. intros H. apply appends_quiet. intros env s. apply H. Qed.

Lemma appends_createEntities creates : Forall P creates -> appends P (createEntities creates).
Proof.
  intros H env s. unfold createEntities. destruct (storeFault env CallCreate); cbn [snd].
  - exists []. rewrite app_nil_r. split; [reflexivity|constructor].
  - exists creates. split; [reflexivity|exact H].
Qed.

Lemma appends_newDate : appends P newDate.
Proof. apply appends_quiet. reflexivity. Qed.

Lemma appends_generateId : appends P generateId.
Proof. apply appends_quiet. reflexivity. Qed.

Lemma appends_asks {A} (f : Env -> A) : appends P (asks f).
Proof. apply appends_quiet. reflexivity. Qed.

Lemma appends_getTime expr d : appends P (getTime expr d).
Proof. unfold getTime. destruct d as [[t|t]|]; [apply appends_ret|apply appends_throw..]. Qed.

Lemma appends_orNow n : appends P (orNow n).
Proof.
  unfold orNow. destruct n as [t|]; [|apply appends_newDate].
  destruct (t =? 0); [apply appends_newDate|apply appends_ret].
Qed.

Lemma appends_checkUserVideoAccess u v : appends P (checkUserVideoAccess u v).
Proof.
  apply appends_quiet. intros env s.
  destruct (checkUserVideoAccess_total u v env s) as (b & s' & -> & He & _). exact He.
Qed.

Lemma appends_subscriptionCurrent sub : appends P (subscriptionCurrent sub).
Proof.
  apply appends_quiet. intros env s.
  destruct (subscriptionCurrent_total sub env s) as (b & s' & -> & He & _). exact He.
Qed.

End Appending.

(** One step of a proof that a method appends. *)
Ltac appending_with known :=
  repeat first
    [ known
    | apply appends_ret | apply appends_throw | apply appends_newDate
    | apply appends_generateId | apply appends_asks | apply appends_getTime
    | apply appends_orNow | apply appends_checkUserVideoAccess
    | apply appends_subscriptionCurrent
    | apply (appends_preserves _ (preserves_findUserByWallet _))
    | apply (appends_preserves _ (preserves_getVideoById _))
    | apply (appends_preserves _ (preserves_getSubscriptionTierById _))
    | apply (appends_preserves _ (preserves_verifyPayment _ _ _))
    | apply (appends_preserves _ (preserves_updateUser _ _))
    | apply appends_bind; [|intros ?]
    | apply appends_tryCatch; [|intros ?]
    | match goal with
      | |- appends _ (if ?b then _ else _) => destruct b
      | |- appends _ (match ?x with _ => _ end) => destruct x
      end ].

Ltac appending := appending_with fail.

Lemma appends_recordUserVideoAccess accessData :
  appends userFiled (recordUserVideoAccess accessData).
Proof.
  unfold recordUserVideoAccess. appending.
  all: try (apply appends_createEntities; constructor; [reflexivity|constructor]).
Qed.

Lemma appends_createUser userData : appends userFiled (createUser userData).
Proof.
  unfold createUser. appending.
  apply appends_createEntities. constructor; [|constructor].
  match goal with
  | |- userFiled (mkEntity (PUser (encodeUser ?u)) _ _ [("createdAt", ?t)]) =>
      exact (LoginFacts.userEntityOf_filed u t)
  end.
Qed.

Lemma appends_updateUser id upd : appends userFiled (updateUser id upd).
Proof. exact (appends_preserves _ (preserves_updateUser id upd)). Qed.

Lemma appends_verifyVideoPurchase req : appends userFiled (verifyVideoPurchase req).
Proof.
  unfold verifyVideoPurchase, grantPurchase, respond, json.
  appending_with ltac:(apply appends_recordUserVideoAccess).
Qed.

Lemma appends_verifySubscriptionPurchase req :
  appends userFiled (verifySubscriptionPurchase req).
Proof. unfold verifySubscriptionPurchase, respond, json. appending. Qed.

Lemma appends_cancelSubscription req : appends userFiled (cancelSubscription req).
Proof. unfold cancelSubscription, respond, json. appending. Qed.

Lemma appends_getSubscriptionStatus req : appends userFiled (getSubscriptionStatus req).
Proof. unfold getSubscriptionStatus, refuse, accept. appending. Qed.

Lemma appends_getSubscriptionTiers : appends userFiled getSubscriptionTiers.
Proof.
  apply appends_quiet. intros env s.
  destruct (StoreFacts.getActiveSubscriptionTiers_total env s) as (found & H & _).
  unfold getSubscriptionTiers, tryCatch, bind. rewrite H. reflexivity.
Qed.

Lemma appends_getVideoContent req : appends userFiled (getVideoContent req).
Proof. unfold getVideoContent, respond, json. appending. Qed.

Lemma appends_generateToken jwt user : appends userFiled (generateToken jwt user).
Proof. unfold generateToken. appending. Qed.

Lemma appends_authWallet jwt wallet : appends userFiled (authWallet jwt wallet).
Proof.
  unfold authWallet, authenticateUser, refuse, accept.
  appending_with ltac:(first [apply appends_createUser|apply appends_generateToken]).
Qed.

Lemma appends_addUserToWhitelist wallet : appends userFiled (addUserToWhitelist wallet).
Proof.
  unfold addUserToWhitelist, refuse, accept.
  appending_with ltac:(apply appends_createUser).
Qed.

Lemma appends_removeUserFromWhitelist wallet :
  appends userFiled (removeUserFromWhitelist wallet).
Proof. unfold removeUserFromWhitelist, refuse, accept. appending. Qed.

Lemma after_appends call env s :
  exists added,
    entities (after call env s) = (entities s ++ added)%list /\ Forall userFiled added.
Proof.
  destruct call; cbn [after].
  - apply appends_verifyVideoPurchase.
  - apply appends_verifySubscriptionPurchase.
  - apply appends_cancelSubscription.
  - apply appends_getSubscriptionStatus.
  - apply appends_getSubscriptionTiers.
  - apply appends_getVideoContent.
  - apply appends_authWallet.
  - apply appends_addUserToWhitelist.
  - apply appends_removeUserFromWhitelist.
Qed.

Lemma afterAll_appends calls : forall s,
  exists added,
    entities (afterAll calls s) = (entities s ++ added)%list /\ Forall userFiled added.
Proof.
  induction calls as [|[env call] rest IH]; intros s; cbn [afterAll].
  - exists []. rewrite app_nil_r. split; [reflexivity|constructor].
  - destruct (after_appends call env s) as (a1 & E1 & F1).
    destruct (IH (after call env s)) as (a2 & E2 & F2).
    exists (a1 ++ a2)%list. rewrite E2, E1, app_assoc.
    split; [reflexivity|apply Forall_app; auto].
Qed.

(** X26.  Whatever sequence of requests to the handlers, in whatever
    worlds, the store only grows: the entities stored stay in place, what
    is added is filed in order, and an access record once held is held
    for good. *)
Theorem store_only_grows calls s :
  (exists added,
     entities (afterAll calls s) = (entities s ++ added)%list /\
     Forall userFiled added) /\
  (usersFiled s -> usersFiled (afterAll calls s)) /\
  (forall userId videoId,
     hasRecord userId videoId s = true ->
     hasRecord userId videoId (afterAll calls s) = true).
Proof.
  destruct (afterAll_appends calls s) as (added & E & F).
  split; [exists added; auto|]. split.
  - unfold usersFiled. rewrite E. intros H. apply Forall_app. auto.
  - intros u v. unfold hasRecord. rewrite E, existsb_app. intros ->. reflexivity.
Qed.

End GrowthFacts.
